(** * Spartan worker runtime: a shallow embedding

    Sources embedded here:
    - [carray_reducer] (scalar and dense reducers over [npy_int]),
    - [spartan/table-inl.h] ([Modulo::shard_for_key], [RemoteIterator]),
    - [spartan/worker.cc] (the RPC handlers of [Worker]).

    [table.h], [worker.h], the RPC transport and the logging macros are not
    part of the embedded sources; what the handlers need from them is
    introduced below under comments starting with "Modelled from the spec". *)

From Stdlib Require Import ZArith Lia Permutation.
From stdpp Require Import base option list gmap strings.

Local Open Scope Z_scope.

(** ** Machine integers *)

Definition INT_MAX : Z := 2 ^ 31 - 1.
Definition INT_MIN : Z := - 2 ^ 31.

(** Conversion to a 32-bit signed [int] (two's complement wrap-around). *)
Definition to_i32 (z : Z) : Z := (z + 2 ^ 31) mod 2 ^ 32 - 2 ^ 31.

(** Conversion to [uint32_t]. *)
Definition to_u32 (z : Z) : Z := z mod 2 ^ 32.

(** Conversion to a 64-bit [size_t]. *)
Definition to_size_t (z : Z) : Z := z mod 2 ^ 64.

(** ** carray_reducer: scalar and dense reducers

    [typedef npy_int _R_TYPE_]: every reducer reads two [npy_int] cells
    [in1 = *ip1] and [in2 = *ip2] and writes its result back to [*ip1].  Each
    scalar reducer is embedded as the binary operation giving the new content
    of [*ip1].  Signed overflow of [+] and [*] is written out as wrap-around. *)

Module Reducer.

Definition scalar_replace (in1 in2 : Z) : Z := in2.

Definition scalar_add (in1 in2 : Z) : Z := to_i32 (in1 + in2).

Definition scalar_multiply (in1 in2 : Z) : Z := to_i32 (in1 * in2).

Definition scalar_maximum (in1 in2 : Z) : Z :=
  if in1 >=? in2 then in1 else in2.

Definition scalar_minimum (in1 in2 : Z) : Z :=
  if in1 <? in2 then in1 else in2.

Definition scalar_and (in1 in2 : Z) : Z := Z.land in1 in2.

Definition scalar_or (in1 in2 : Z) : Z := Z.lor in1 in2.

Definition scalar_xor (in1 in2 : Z) : Z := Z.lxor in1 in2.

(** The [REDUCER] enumeration, in the order of the dispatch tables
    ("This must be sync with REDUCER enumeration"). *)
Inductive REDUCER : Set :=
| REDUCER_REPLACE
| REDUCER_ADD
| REDUCER_MUL
| REDUCER_MAXIMUM
| REDUCER_MINIMUM
| REDUCER_AND
| REDUCER_OR
| REDUCER_XOR.

(** Type letters; [scalar_funcs_type] holds the single letter
    [NPY_INTLTR]. *)
Inductive type_letter : Set := NPY_INTLTR | NPY_OTHERLTR.

Definition scalar_functions (reducer : REDUCER) : Z -> Z -> Z :=
  match reducer with
  | REDUCER_REPLACE => scalar_replace
  | REDUCER_ADD => scalar_add
  | REDUCER_MUL => scalar_multiply
  | REDUCER_MAXIMUM => scalar_maximum
  | REDUCER_MINIMUM => scalar_minimum
  | REDUCER_AND => scalar_and
  | REDUCER_OR => scalar_or
  | REDUCER_XOR => scalar_xor
  end.

(** [select_scalar_reducer]: the loop over the type table returns the
    entry of the matching letter; for any other letter control falls off
    the end of the function without a value ([None]). *)
Definition select_scalar_reducer (reducer : REDUCER) (type : type_letter)
  : option (Z -> Z -> Z) :=
  match type with
  | NPY_INTLTR => Some (scalar_functions reducer)
  | NPY_OTHERLTR => None
  end.

(** [BINARY_DENSE_LOOP]: [n = dimensions[0]] steps, both pointers advance
    by one element per step, the body writes [*ip1].  Arrays are lists of
    cells; running off either array is [None]. *)
Fixpoint BINARY_DENSE_LOOP (body : Z -> Z -> Z) (n : nat) (ip1 ip2 : list Z)
  : option (list Z) :=
  match n with
  | O => Some ip1
  | S n' =>
      match ip1, ip2 with
      | in1 :: ip1', in2 :: ip2' =>
          cons (body in1 in2) <$> BINARY_DENSE_LOOP body n' ip1' ip2'
      | _, _ => None
      end
  end.

Definition dense_replace := BINARY_DENSE_LOOP (fun in1 in2 => in2).

Definition dense_add := BINARY_DENSE_LOOP (fun in1 in2 => to_i32 (in1 + in2)).

Definition dense_multiply :=
  BINARY_DENSE_LOOP (fun in1 in2 => to_i32 (in1 * in2)).

(** [in1 and in2], [in1 or in2]: the logical operators, stored as 0 or 1. *)
Definition dense_and :=
  BINARY_DENSE_LOOP
    (fun in1 in2 => if negb (in1 =? 0) && negb (in2 =? 0) then 1 else 0).

Definition dense_or :=
  BINARY_DENSE_LOOP
    (fun in1 in2 => if negb (in1 =? 0) || negb (in2 =? 0) then 1 else 0).

Definition dense_xor := BINARY_DENSE_LOOP (fun in1 in2 => Z.lxor in1 in2).

Definition dense_maximum :=
  BINARY_DENSE_LOOP (fun in1 in2 => if in1 >=? in2 then in1 else in2).

Definition dense_minimum :=
  BINARY_DENSE_LOOP (fun in1 in2 => if in1 <=? in2 then in1 else in2).

Definition dense_functions (reducer : REDUCER)
  : nat -> list Z -> list Z -> option (list Z) :=
  match reducer with
  | REDUCER_REPLACE => dense_replace
  | REDUCER_ADD => dense_add
  | REDUCER_MUL => dense_multiply
  | REDUCER_MAXIMUM => dense_maximum
  | REDUCER_MINIMUM => dense_minimum
  | REDUCER_AND => dense_and
  | REDUCER_OR => dense_or
  | REDUCER_XOR => dense_xor
  end.

End Reducer.

(** ** table-inl.h: the Modulo sharder *)

Section Modulo.
Context {T : Type}.

(** [boost::hash_value], whose result type is [size_t]. *)
Variable hash_value : T -> Z.

(** [return boost::hash_value(k) % num_shards;] the [int] operand is
    converted to [size_t]; a zero divisor has no result. *)
Definition shard_for_key (k : T) (num_shards : Z) : option Z :=
  let d := to_size_t num_shards in
  if d =? 0 then None else Some (to_size_t (hash_value k) mod d).

End Modulo.

(** ** Outcomes of handlers

    A handler either returns, aborts the process ([Log_fatal], a failed
    [CHECK]) in the state reached so far, or runs into undefined behaviour
    (null pointer, index out of range). *)

Inductive fatal : Set :=
| RoutingViolation
| CheckFailure.

Inductive outcome (St A : Type) : Type :=
| Ok (a : A) (s : St)
| Fatal (e : fatal) (s : St)
| Undefined.

Arguments Ok {St A} a s.
Arguments Fatal {St A} e s.
Arguments Undefined {St A}.

Definition M (St A : Type) : Type := St -> outcome St A.

#[global] Instance M_ret {St} : MRet (M St) := fun A a s => Ok a s.

#[global] Instance M_bind {St} : MBind (M St) :=
  fun A B f m s =>
    match m s with
    | Ok a s' => f a s'
    | Fatal e s' => Fatal e s'
    | Undefined => Undefined
    end.

Definition get_state {St} : M St St := fun s => Ok s s.

Definition modify {St} (f : St -> St) : M St unit := fun s => Ok tt (f s).

(** Modelled from the spec: [Log_fatal] (the logging macros are not among the
    embedded sources); section 7: "Fatal; logged and aborts the worker". *)
Definition Log_fatal {St A} (e : fatal) : M St A := fun s => Fatal e s.

(** Modelled from the spec: [CHECK], fatal when the condition fails
    (section 7: "surfaced via CHECK ...; treat as fatal"). *)
Definition CHECK {St} (b : bool) : M St unit :=
  fun s => if b then Ok tt s else Fatal CheckFailure s.

(** Dereference of a pointer that may be null or out of range. *)
Definition deref {St A} (p : option A) : M St A :=
  fun s => match p with Some a => Ok a s | None => Undefined end.

(** ** The table and shard runtime *)

Section Runtime.
Context {K V : Type} `{EqDecision K}.

(** *** Accumulators, shards, tables *)

(** An accumulator slot of a table; the null pointer is [None]. *)
Definition Accumulator : Type := option (V -> V -> V).

(** Modelled from the spec: the accumulate step of a plug-in slot
    ([table.h] is not among the embedded sources); section 4.2: the slots
    "may be null; the defaults are: ... combiner = replace, reducer =
    replace". *)
Definition accumulate (acc : Accumulator) (old v : V) : V :=
  match acc with
  | Some f => f old v
  | None => v
  end.

(** Modelled from the spec: the shard ([table.h]); section 3: "[data]:
    ordered mapping bytes -> bytes, [pending] ..., [dirty] flag".  Entries
    are kept in iteration order. *)
Record Shard : Type := mkShard {
  shard_data : list (K * V);
  shard_pending : list (K * V);
  shard_dirty : bool
}.

Fixpoint find_entry (k : K) (d : list (K * V)) : option V :=
  match d with
  | [] => None
  | (k', v) :: d' => if decide (k' = k) then Some v else find_entry k d'
  end.

(** Store [acc(old, v)] at [k] if a value is present, else [v] (appended). *)
Fixpoint merge_entry (acc : Accumulator) (k : K) (v : V) (d : list (K * V))
  : list (K * V) :=
  match d with
  | [] => [(k, v)]
  | (k', old) :: d' =>
      if decide (k' = k) then (k', accumulate acc old v) :: d'
      else (k', old) :: merge_entry acc k v d'
  end.

Record ShardInfo : Type := mkShardInfo { owner : Z }.

(** Modelled from the spec: the table ([table.h]); section 3: "[id],
    [num_shards], vector of [ShardInfo] (owner per shard), vector of
    [Shard] slots ... and four plug-in slots". *)
Record Table : Type := mkTable {
  table_id : Z;
  shards : list Shard;
  shard_infos : list ShardInfo;
  combiner : Accumulator;
  reducer : Accumulator
}.

Definition at_index {A} (l : list A) (i : Z) : option A :=
  if decide (0 <= i) then l !! Z.to_nat i else None.

Definition Table_shard (t : Table) (shard : Z) : option Shard :=
  at_index (shards t) shard.

(** Modelled from the spec: [Table::worker_for_shard]; section 4.2:
    "Consults the routing table". *)
Definition worker_for_shard (t : Table) (shard : Z) : option Z :=
  owner <$> at_index (shard_infos t) shard.

(** Modelled from the spec: [Table::contains(shard, key)]; section 4.1:
    "[contains(key) -> bool]". *)
Definition Table_contains (t : Table) (shard : Z) (k : K) : option bool :=
  s ← Table_shard t shard;
  Some (bool_decide (is_Some (find_entry k (shard_data s)))).

(** Modelled from the spec: [Table::get(shard, key)]; section 4.1:
    "[get(key) -> value | missing]". *)
Definition Table_get (t : Table) (shard : Z) (k : K) : option V :=
  s ← Table_shard t shard;
  find_entry k (shard_data s).

Definition set_shard (t : Table) (shard : Z) (s : Shard) : Table :=
  {| table_id := table_id t;
     shards := <[Z.to_nat shard := s]> (shards t);
     shard_infos := shard_infos t;
     combiner := combiner t;
     reducer := reducer t |}.

(** Modelled from the spec: [Table::update(shard, key, value)], the entry
    point that [Worker::put] calls ([table.h] is not among the embedded
    sources); section 4.1: "[apply_remote(key, v)]: unconditional merge on
    an owned shard: store [reducer(old, v)] if present else [v].  This is
    the entry point used by incoming [put] RPCs." *)
Definition Table_update (t : Table) (shard : Z) (k : K) (v : V)
  : option Table :=
  s ← Table_shard t shard;
  Some (set_shard t shard
          {| shard_data := merge_entry (reducer t) k v (shard_data s);
             shard_pending := shard_pending s;
             shard_dirty := shard_dirty s |}).

(** *** Server-side iterators *)

(** Modelled from the spec: [TableIterator]; section 3: "[shard_ref],
    internal cursor"; section 4.3: "[done()], [key()], [value()],
    [next()].  Traverses the shard's ordered mapping."  The shard is
    referenced, not copied: [shard_ref] names the table and the shard in
    the worker's registry. *)
Record TableIterator : Type := mkTableIterator {
  shard_ref : Z * Z;
  cursor : nat
}.

Definition Table_get_iterator (table : Z) (t : Table) (shard : Z)
  : option TableIterator :=
  _ ← Table_shard t shard;
  Some {| shard_ref := (table, shard); cursor := 0 |}.

(** *** Messages *)

Record GetRequest : Type := mkGetRequest {
  greq_table : Z;
  greq_shard : Z;
  greq_key : K
}.

Record TableData : Type := mkTableData {
  td_source : Z;
  td_table : Z;
  td_shard : Z;
  td_done : bool;
  td_missing_key : bool;
  td_kv_data : list (K * V)
}.

Record IteratorReq : Type := mkIteratorReq {
  ireq_table : Z;
  ireq_shard : Z;
  ireq_id : Z;
  ireq_count : Z
}.

Record IteratorResp : Type := mkIteratorResp {
  iresp_id : Z;
  iresp_results : list (K * V);
  iresp_row_count : Z;
  iresp_done : bool
}.

Definition ArgMap : Type := list (string * string).

Record RunKernelReq : Type := mkRunKernelReq {
  kreq_table : Z;
  kreq_shard : Z;
  kreq_kernel : string;
  kreq_kernel_args : ArgMap;
  kreq_task_args : ArgMap
}.

(** [Time] stands for the [double] read from the [Timer]. *)
Context {Time : Type}.

Record RunKernelResp : Type := mkRunKernelResp {
  kresp_elapsed : Time;
  kresp_error : string
}.

(** *** The worker *)

(** Members of [Worker] that the handlers touch.  Pointers stored in the
    maps may be null ([None]).  [context_] records whether
    [TableContext::set_context(this)] has been called. *)
Record Worker : Type := mkWorker {
  running_ : bool;
  running_cv_signalled : bool;
  current_iterator_id_ : Z;
  id_ : Z;
  server_ : bool;
  context_ : bool;
  tables_ : gmap Z (option Table);
  iterators_ : gmap Z (option TableIterator)
}.

Definition set_tables (m : gmap Z (option Table)) (w : Worker) : Worker :=
  {| running_ := running_ w;
     running_cv_signalled := running_cv_signalled w;
     current_iterator_id_ := current_iterator_id_ w;
     id_ := id_ w;
     server_ := server_ w;
     context_ := context_ w;
     tables_ := m;
     iterators_ := iterators_ w |}.

Definition set_iterators (m : gmap Z (option TableIterator)) (w : Worker)
  : Worker :=
  {| running_ := running_ w;
     running_cv_signalled := running_cv_signalled w;
     current_iterator_id_ := current_iterator_id_ w;
     id_ := id_ w;
     server_ := server_ w;
     context_ := context_ w;
     tables_ := tables_ w;
     iterators_ := m |}.

Definition set_current_iterator_id (i : Z) (w : Worker) : Worker :=
  {| running_ := running_ w;
     running_cv_signalled := running_cv_signalled w;
     current_iterator_id_ := i;
     id_ := id_ w;
     server_ := server_ w;
     context_ := context_ w;
     tables_ := tables_ w;
     iterators_ := iterators_ w |}.

Definition set_context (w : Worker) : Worker :=
  {| running_ := running_ w;
     running_cv_signalled := running_cv_signalled w;
     current_iterator_id_ := current_iterator_id_ w;
     id_ := id_ w;
     server_ := server_ w;
     context_ := true;
     tables_ := tables_ w;
     iterators_ := iterators_ w |}.

(** [tables_[k]]: [operator[]] of the map inserts a null pointer for a
    key that is not present. *)
Definition tables_index (k : Z) : M Worker (option Table) :=
  fun w =>
    match tables_ w !! k with
    | Some p => Ok p w
    | None => Ok None (set_tables (<[k := None]> (tables_ w)) w)
    end.

(** [iterators_[k]], likewise. *)
Definition iterators_index (k : Z) : M Worker (option TableIterator) :=
  fun w =>
    match iterators_ w !! k with
    | Some p => Ok p w
    | None => Ok None (set_iterators (<[k := None]> (iterators_ w)) w)
    end.

(** *** Kernels *)

Context {PyException : Type}.

(** [format_exc] (from [py-support.h]). *)
Variable format_exc : PyException -> string.

(** What [k->init(...); k->run();] can do to the worker: run to completion
    or raise a [PyException] after some changes. *)
Inductive kernel_result : Type :=
| Returned (w : Worker)
| Raised (exc : PyException) (w : Worker).

Definition Kernel : Type := ArgMap -> ArgMap -> Worker -> kernel_result.

(** [TypeRegistry<Kernel>::get_by_id]. *)
Variable Kernel_get_by_id : string -> option Kernel.

Definition set_error (e : string) (resp : RunKernelResp) : RunKernelResp :=
  {| kresp_elapsed := kresp_elapsed resp; kresp_error := e |}.

Definition set_elapsed (t : Time) (resp : RunKernelResp) : RunKernelResp :=
  {| kresp_elapsed := t; kresp_error := kresp_error resp |}.

(** [try { k->init(...); k->run(); } catch (PyException* exc)
    { resp->error = format_exc(exc); }] *)
Definition try_run (k : Kernel) (kreq : RunKernelReq) (resp : RunKernelResp)
  : M Worker RunKernelResp :=
  fun w =>
    match k (kreq_kernel_args kreq) (kreq_task_args kreq) w with
    | Returned w' => Ok resp w'
    | Raised exc w' => Ok (set_error (format_exc exc) resp) w'
    end.

(** *** Handlers of worker.cc

    A handler receives the request and the response object it fills in;
    [elapsed] is what [t.elapsed()] reads at the end of [run_kernel]. *)

Definition Worker_run_kernel (kreq : RunKernelReq) (resp : RunKernelResp)
    (elapsed : Time) : M Worker RunKernelResp :=
  modify set_context;;
  w ← get_state;
  CHECK (negb (id_ w =? -1));;
  (* arguments of Log_debug *)
  t ← tables_index (kreq_table kreq) ≫= deref;
  _ ← deref (Table_shard t (kreq_shard kreq));
  t ← tables_index (kreq_table kreq) ≫= deref;
  owner ← deref (worker_for_shard t (kreq_shard kreq));
  (if negb (owner =? id_ w) then Log_fatal RoutingViolation else mret tt);;
  k ← deref (Kernel_get_by_id (kreq_kernel kreq));
  resp ← try_run k kreq resp;
  mret (set_elapsed elapsed resp).

Definition Worker_get (req : GetRequest) (resp : TableData)
  : M Worker TableData :=
  w ← get_state;
  let resp :=
    {| td_source := id_ w;
       td_table := greq_table req;
       td_shard := -1;
       td_done := true;
       td_missing_key := td_missing_key resp;
       td_kv_data := td_kv_data resp |} in
  t ← tables_index (greq_table req) ≫= deref;
  present ← deref (Table_contains t (greq_shard req) (greq_key req));
  if negb present then
    mret {| td_source := td_source resp;
            td_table := td_table resp;
            td_shard := td_shard resp;
            td_done := td_done resp;
            td_missing_key := true;
            td_kv_data := td_kv_data resp |}
  else
    v ← deref (Table_get t (greq_shard req) (greq_key req));
    mret {| td_source := td_source resp;
            td_table := td_table resp;
            td_shard := td_shard resp;
            td_done := td_done resp;
            td_missing_key := false;
            td_kv_data := td_kv_data resp ++ [(greq_key req, v)] |}.

(** The shard an iterator points into, looked up through [shard_ref]. *)
Definition iterator_entries (it : TableIterator) : M Worker (list (K * V)) :=
  w ← get_state;
  t ← deref (mjoin (tables_ w !! (shard_ref it).1));
  s ← deref (Table_shard t (shard_ref it).2);
  mret (shard_data s).

Definition TableIterator_done (it : TableIterator) : M Worker bool :=
  d ← iterator_entries it;
  mret (bool_decide (length d ≤ cursor it)%nat).

Definition TableIterator_key (it : TableIterator) : M Worker K :=
  d ← iterator_entries it;
  deref (fst <$> d !! cursor it).

Definition TableIterator_value (it : TableIterator) : M Worker V :=
  d ← iterator_entries it;
  deref (snd <$> d !! cursor it).

Definition TableIterator_next (it : TableIterator) : TableIterator :=
  {| shard_ref := shard_ref it; cursor := S (cursor it) |}.

(** [for (size_t i = 0; i < req.count; i++) { if (!it->done()) { ... } }]
    with [n] iterations left and loop variable [i]. *)
Fixpoint fill_loop (n : nat) (i : Z) (it : TableIterator)
    (resp : IteratorResp) : M Worker (TableIterator * IteratorResp) :=
  match n with
  | O => mret (it, resp)
  | S n' =>
      d ← TableIterator_done it;
      if negb d then
        k ← TableIterator_key it;
        v ← TableIterator_value it;
        fill_loop n' (i + 1) (TableIterator_next it)
          {| iresp_id := iresp_id resp;
             iresp_results := iresp_results resp ++ [(k, v)];
             iresp_row_count := to_u32 i;
             iresp_done := iresp_done resp |}
      else fill_loop n' (i + 1) it resp
  end.

Definition set_resp_id (i : Z) (resp : IteratorResp) : IteratorResp :=
  {| iresp_id := i;
     iresp_results := iresp_results resp;
     iresp_row_count := iresp_row_count resp;
     iresp_done := iresp_done resp |}.

Definition set_resp_done (b : bool) (resp : IteratorResp) : IteratorResp :=
  {| iresp_id := iresp_id resp;
     iresp_results := iresp_results resp;
     iresp_row_count := iresp_row_count resp;
     iresp_done := b |}.

(** The iterator object lives in the registry and is advanced through
    the pointer [it]; [id] is its key. *)
Definition Worker_get_iterator (req : IteratorReq) (resp : IteratorResp)
  : M Worker IteratorResp :=
  let table := ireq_table req in
  let shard := ireq_shard req in
  t ← tables_index table;
  '(id, it, resp) ←
    (if ireq_id req =? -1 then
       t ← deref t;
       it ← deref (Table_get_iterator table t shard);
       w ← get_state;
       let id := to_u32 (current_iterator_id_ w) in
       modify (set_current_iterator_id (to_u32 (current_iterator_id_ w + 1)));;
       modify (fun w => set_iterators (<[id := Some it]> (iterators_ w)) w);;
       mret (id, it, set_resp_id id resp)
     else
       let id := to_u32 (ireq_id req) in
       it ← iterators_index id;
       let resp := set_resp_id id resp in
       CHECK (bool_decide (is_Some it));;
       it ← deref it;
       mret (id, it, resp));
  '(it, resp) ← fill_loop (Z.to_nat (ireq_count req)) 0 it resp;
  modify (fun w => set_iterators (<[id := Some it]> (iterators_ w)) w);;
  d ← TableIterator_done it;
  mret (set_resp_done d resp).

Definition Worker_shutdown : M Worker unit :=
  (* delete every table; tables_.clear() *)
  modify (set_tables ∅);;
  (* delete server_; server_ = NULL; running_ = false; running_cv_.signal() *)
  modify (fun w =>
    {| running_ := false;
       running_cv_signalled := true;
       current_iterator_id_ := current_iterator_id_ w;
       id_ := id_ w;
       server_ := false;
       context_ := context_ w;
       tables_ := tables_ w;
       iterators_ := iterators_ w |}).

Definition Worker_destroy_table (id : Z) : M Worker unit :=
  (* delete tables_[id]; *)
  _ ← tables_index id;
  (* tables_.erase(tables_.find(id)); *)
  modify (fun w => set_tables (delete id (tables_ w)) w).

(** [for (auto p : req.kv_data) { t->update(req.shard, p.key, p.value); }]
    the table is updated through the pointer held in the registry. *)
Fixpoint put_loop (table shard : Z) (kv : list (K * V)) : M Worker unit :=
  match kv with
  | [] => mret tt
  | (k, v) :: kv' =>
      w ← get_state;
      t ← deref (mjoin (tables_ w !! table));
      t' ← deref (Table_update t shard k v);
      modify (set_tables (<[table := Some t']> (tables_ w)));;
      put_loop table shard kv'
  end.

Definition Worker_put (req : TableData) : M Worker unit :=
  w ← get_state;
  CHECK (bool_decide (is_Some (tables_ w !! td_table req)));;
  _ ← tables_index (td_table req);
  put_loop (td_table req) (td_shard req) (td_kv_data req).

(** *** LocalIterator: a traversal of a locally owned shard *)

(** [while (!it->done()) { read it->key(), it->value(); it->next(); }] *)
Fixpoint TableIterator_drain (fuel : nat) (it : TableIterator)
  : M Worker (option (list (K * V))) :=
  match fuel with
  | O => mret None
  | S fuel' =>
      d ← TableIterator_done it;
      if (d : bool) then mret (Some [])
      else
        k ← TableIterator_key it;
        v ← TableIterator_value it;
        rest ← TableIterator_drain fuel' (TableIterator_next it);
        mret (cons (k, v) <$> rest)
  end.

Definition LocalIterator_observe (fuel : nat) (table shard : Z)
  : M Worker (option (list (K * V))) :=
  w ← get_state;
  t ← deref (mjoin (tables_ w !! table));
  it ← deref (Table_get_iterator table t shard);
  TableIterator_drain fuel it.

(** *** table-inl.h: RemoteIterator *)

Definition IteratorResp_new : IteratorResp :=
  {| iresp_id := 0; iresp_results := []; iresp_row_count := 0;
     iresp_done := false |}.

(** Modelled from the spec: the RPC proxy [table->workers[i]] (the
    transport is not among the embedded sources); section 4.3: the peer
    "fills up to [FETCH] entries into the response ... The client buffers
    entries".  The call is synchronous: the handler of the peer runs on a
    fresh response, and the reply becomes the content of the caller's
    response object. *)
Definition WorkerProxy_get_iterator (target : Z) (req : IteratorReq)
  : M (gmap Z Worker) IteratorResp :=
  fun cluster =>
    match cluster !! target with
    | None => Undefined
    | Some w =>
        match Worker_get_iterator req IteratorResp_new w with
        | Ok resp w' => Ok resp (<[target := w']> cluster)
        | Fatal e w' => Fatal e (<[target := w']> cluster)
        | Undefined => Undefined
        end
    end.

Record RemoteIterator : Type := mkRemoteIterator {
  table_ : Table;
  shard_ : Z;
  done_ : bool;
  fetch_num_ : Z;
  request_ : IteratorReq;
  response_ : IteratorResp;
  index_ : nat
}.

Definition RemoteIterator_new (table : Table) (shard : Z) (fetch_num : Z)
  : M (gmap Z Worker) RemoteIterator :=
  let request :=
    {| ireq_table := table_id table; ireq_shard := shard;
       ireq_id := -1; ireq_count := to_u32 fetch_num |} in
  target_worker ← deref (worker_for_shard table shard);
  response ← WorkerProxy_get_iterator target_worker request;
  mret {| table_ := table; shard_ := shard; done_ := false;
          fetch_num_ := to_u32 fetch_num;
          request_ :=
            {| ireq_table := ireq_table request;
               ireq_shard := ireq_shard request;
               ireq_id := to_i32 (iresp_id response);
               ireq_count := ireq_count request |};
          response_ := response;
          index_ := 0 |}.

Definition RemoteIterator_done (it : RemoteIterator) : bool :=
  iresp_done (response_ it)
  && bool_decide (index_ it = length (iresp_results (response_ it))).

Definition set_index (i : nat) (it : RemoteIterator) : RemoteIterator :=
  {| table_ := table_ it; shard_ := shard_ it; done_ := done_ it;
     fetch_num_ := fetch_num_ it; request_ := request_ it;
     response_ := response_ it; index_ := i |}.

Definition set_response (r : IteratorResp) (it : RemoteIterator)
  : RemoteIterator :=
  {| table_ := table_ it; shard_ := shard_ it; done_ := done_ it;
     fetch_num_ := fetch_num_ it; request_ := request_ it;
     response_ := r; index_ := index_ it |}.

Definition RemoteIterator_next (it : RemoteIterator)
  : M (gmap Z Worker) RemoteIterator :=
  let it := set_index (S (index_ it)) it in
  target_worker ← deref (worker_for_shard (table_ it) (shard_ it));
  if bool_decide (length (iresp_results (response_ it)) ≤ index_ it)%nat then
    if iresp_done (response_ it) then mret it
    else
      response ← WorkerProxy_get_iterator target_worker (request_ it);
      mret (set_response response it)
  else mret it.

Definition RemoteIterator_key_str (it : RemoteIterator) : option K :=
  fst <$> iresp_results (response_ it) !! index_ it.

Definition RemoteIterator_value_str (it : RemoteIterator) : option V :=
  snd <$> iresp_results (response_ it) !! index_ it.

(** The client loop over a remote shard:
    [while (!it.done()) { read it.key(), it.value(); it.next(); }] *)
Fixpoint RemoteIterator_drain (fuel : nat) (it : RemoteIterator)
  : M (gmap Z Worker) (option (list (K * V))) :=
  match fuel with
  | O => mret None
  | S fuel' =>
      if RemoteIterator_done it then mret (Some [])
      else
        k ← deref (RemoteIterator_key_str it);
        v ← deref (RemoteIterator_value_str it);
        it' ← RemoteIterator_next it;
        rest ← RemoteIterator_drain fuel' it';
        mret (cons (k, v) <$> rest)
  end.

Definition RemoteIterator_observe (fuel : nat) (table : Table) (shard : Z)
    (fetch_num : Z) : M (gmap Z Worker) (option (list (K * V))) :=
  it ← RemoteIterator_new table shard fetch_num;
  RemoteIterator_drain fuel it.

End Runtime.

Arguments Shard : clear implicits.
Arguments Table : clear implicits.
Arguments Worker : clear implicits.
Arguments TableData : clear implicits.
Arguments IteratorResp : clear implicits.
Arguments GetRequest : clear implicits.
Arguments RunKernelResp : clear implicits.
Arguments Kernel : clear implicits.
Arguments kernel_result : clear implicits.
Arguments RemoteIterator : clear implicits.

(** * Notions used in the statements *)

(** ** Algebra of the reducers *)

Module ReducerAlgebra.
Import Reducer.

Definition commutative {A} (f : A -> A -> A) : Prop :=
  forall a b, f a b = f b a.

Definition associative {A} (f : A -> A -> A) : Prop :=
  forall a b c, f (f a b) c = f a (f b c).

(** The loop bodies of the dense reducers. *)
Definition body_add (in1 in2 : Z) : Z := to_i32 (in1 + in2).
Definition body_mul (in1 in2 : Z) : Z := to_i32 (in1 * in2).
Definition body_max (in1 in2 : Z) : Z := if in1 >=? in2 then in1 else in2.
Definition body_min (in1 in2 : Z) : Z := if in1 <? in2 then in1 else in2.
Definition body_minle (in1 in2 : Z) : Z := if in1 <=? in2 then in1 else in2.
Definition body_and (in1 in2 : Z) : Z :=
  if negb (in1 =? 0) && negb (in2 =? 0) then 1 else 0.
Definition body_or (in1 in2 : Z) : Z :=
  if negb (in1 =? 0) || negb (in2 =? 0) then 1 else 0.

Definition dense_body (r : REDUCER) : Z -> Z -> Z :=
  match r with
  | REDUCER_REPLACE => fun _ in2 => in2
  | REDUCER_ADD => body_add
  | REDUCER_MUL => body_mul
  | REDUCER_MAXIMUM => body_max
  | REDUCER_MINIMUM => body_minle
  | REDUCER_AND => body_and
  | REDUCER_OR => body_or
  | REDUCER_XOR => Z.lxor
  end.

End ReducerAlgebra.

(** ** States and responses of the handlers *)

Section Notions.
Context {K V : Type} `{EqDecision K}.
Implicit Types (w : Worker K V) (t : Table K V) (s : Shard K V).
Implicit Types (d : list (K * V)) (acc : Accumulator (V := V)).

(** The shard [s] with its entries replaced by [d]. *)
Definition set_data (d : list (K * V)) (s : Shard K V) : Shard K V :=
  {| shard_data := d; shard_pending := shard_pending s;
     shard_dirty := shard_dirty s |}.

(** The entries [d] after the updates [kv] were merged one by one. *)
Definition merge_batch acc (kv d : list (K * V)) : list (K * V) :=
  foldl (fun d p => merge_entry acc p.1 p.2 d) d kv.

(** The worker after a batch has been merged into shard [shard] of the
    table registered under [table]. *)
Definition after_put w (table shard : Z) t s (kv : list (K * V))
  : Worker K V :=
  set_tables
    (<[table :=
         Some (set_shard t shard
                 (set_data (merge_batch (reducer t) kv (shard_data s)) s))]>
       (tables_ w)) w.

(** The cursor [it] moved [m] entries forward. *)
Definition advance (m : nat) (it : TableIterator) : TableIterator :=
  {| shard_ref := shard_ref it; cursor := cursor it + m |}.

(** The response after [m] entries [batch] were pushed by a loop that
    started at loop index [i]. *)
Definition filled (i : Z) (batch : list (K * V)) (resp : IteratorResp K V)
  : IteratorResp K V :=
  {| iresp_id := iresp_id resp;
     iresp_results := iresp_results resp ++ batch;
     iresp_row_count :=
       match length batch with
       | O => iresp_row_count resp
       | S m => to_u32 (i + Z.of_nat m)
       end;
     iresp_done := iresp_done resp |}.

(** The worker with [it] stored in the registry under [id]. *)
Definition registered (id : Z) (it : TableIterator) w : Worker K V :=
  set_iterators (<[id := Some it]> (iterators_ w)) w.

Definition new_iterator (req : IteratorReq) : TableIterator :=
  {| shard_ref := (ireq_table req, ireq_shard req); cursor := 0 |}.

(** The response to a request of [c] entries served by the cursor [it]
    over the entries [d], registered under [id]. *)
Definition served (id : Z) (c : nat) (it : TableIterator)
    (d : list (K * V)) (resp : IteratorResp K V) : IteratorResp K V :=
  set_resp_done
    (bool_decide
       (length d ≤ cursor (advance (c `min` (length d - cursor it)) it))%nat)
    (filled 0 (take c (drop (cursor it) d)) (set_resp_id id resp)).

(** [reaches Q o]: the state in which a handler returned or aborted
    satisfies [Q]. *)
Definition reaches {St A} (Q : St -> Prop) (o : outcome St A) : Prop :=
  match o with
  | Ok _ st | Fatal _ st => Q st
  | Undefined => True
  end.

(** [m] leaves every registered iterator id registered. *)
Definition keeps_iterators {A} (m : M (Worker K V) A) : Prop :=
  forall w,
    reaches (fun w' => dom (iterators_ w) ⊆ dom (iterators_ w')) (m w).

(** A fresh response object. *)
Definition TableData_new : TableData K V :=
  {| td_source := 0; td_table := 0; td_shard := 0; td_done := false;
     td_missing_key := false; td_kv_data := [] |}.

(** A [put] request carrying the single update [(k, v)] from [source]. *)
Definition single_update (source table shard : Z) (k : K) (v : V)
  : TableData K V :=
  {| td_source := source; td_table := table; td_shard := shard;
     td_done := true; td_missing_key := false; td_kv_data := [(k, v)] |}.

(** Two flushes reach the owner, first [v1] from worker [src1], then [v2]
    from worker [src2]; then the key is read. *)
Definition two_writers (table shard : Z) (k : K) (src1 src2 : Z)
    (v1 v2 : V) : M (Worker K V) (TableData K V) :=
  Worker_put (single_update src1 table shard k v1);;
  Worker_put (single_update src2 table shard k v2);;
  Worker_get (mkGetRequest table shard k) TableData_new.

(** What C5 says of one [GetIterator] request served by the cursor [it]
    over the entries [d] of its shard: with [c] the requested count and
    [r] the number of entries left, the handler returns the next
    [min c r] entries in order, [done] tells whether the cursor is
    exhausted after the fill, and the registry holds the advanced
    cursor under the returned id. *)
Definition serves_batch w (req : IteratorReq) (resp : IteratorResp K V)
    (it : TableIterator) (d : list (K * V)) : Prop :=
  let c := Z.to_nat (ireq_count req) in
  let r := (length d - cursor it)%nat in
  exists resp' w',
    Worker_get_iterator req resp w = Ok resp' w'
    /\ iresp_results resp' = take c (drop (cursor it) d)
    /\ length (iresp_results resp') = (c `min` r)%nat
    /\ (iresp_done resp' = true <-> (r <= c)%nat)
    /\ iterators_ w' !! iresp_id resp'
       = Some (Some {| shard_ref := shard_ref it;
                       cursor := cursor it + (c `min` r) |})
    /\ (c = 0%nat ->
        iresp_results resp' = [] /\ (iresp_done resp' = true <-> r = 0%nat))
    /\ (d = [] -> iresp_results resp' = [] /\ iresp_done resp' = true).

(** A traversal stopped by the fuel bound, not by [done()]. *)
Definition out_of_fuel {St A} (o : outcome St (option A)) : Prop :=
  exists st, o = Ok None st.

(** The client's buffer of fetched entries. *)
Definition buffer (it : RemoteIterator K V) : list (K * V) :=
  iresp_results (response_ it).

(** The owner after it has served the first request [req] of a client
    over the entries [d]. *)
Definition opened (w : Worker K V) (req : IteratorReq) (d : list (K * V))
  : Worker K V :=
  let id := to_u32 (current_iterator_id_ w) in
  let c := Z.to_nat (ireq_count req) in
  registered id
    (advance (c `min` (length d - 0)) (new_iterator req))
    (registered id (new_iterator req)
       (set_current_iterator_id (to_u32 (current_iterator_id_ w + 1)) w)).

(** The request sent by the constructor of [RemoteIterator], and the
    iterator it builds from the reply. *)
Definition first_request (ct : Table K V) (shard fetch_num : Z)
  : IteratorReq :=
  {| ireq_table := table_id ct; ireq_shard := shard; ireq_id := -1;
     ireq_count := to_u32 fetch_num |}.

Definition first_iterator (ct : Table K V) (shard fetch_num : Z)
    (w : Worker K V) (d : list (K * V)) : RemoteIterator K V :=
  let id := to_u32 (current_iterator_id_ w) in
  {| table_ := ct; shard_ := shard; done_ := false;
     fetch_num_ := to_u32 fetch_num;
     request_ :=
       {| ireq_table := table_id ct; ireq_shard := shard;
          ireq_id := to_i32 id; ireq_count := to_u32 fetch_num |};
     response_ :=
       served id (Z.to_nat (to_u32 fetch_num))
         (new_iterator (first_request ct shard fetch_num)) d IteratorResp_new;
     index_ := 0 |}.

(** [p] put in front of what the rest of a traversal yields. *)
Definition prepend {St} (p : list (K * V))
    (o : outcome St (option (list (K * V))))
  : outcome St (option (list (K * V))) :=
  match o with
  | Ok r c => Ok (app p <$> r) c
  | Fatal e c => Fatal e c
  | Undefined => Undefined
  end.

End Notions.

(** ** A two-worker cluster over integer keys and values *)

Module Example.
Import Reducer.

Definition shard_of (d : list (Z * Z)) : Shard Z Z :=
  {| shard_data := d; shard_pending := []; shard_dirty := false |}.

(** Table 0 with a single shard owned by worker [owner_id]. *)
Definition table_of (r : Accumulator) (d : list (Z * Z)) (owner_id : Z)
  : Table Z Z :=
  {| table_id := 0; shards := [shard_of d];
     shard_infos := [{| owner := owner_id |}];
     combiner := None; reducer := r |}.

Definition worker_of (id : Z) (t : Table Z Z) : Worker Z Z :=
  {| running_ := true; running_cv_signalled := false;
     current_iterator_id_ := 0; id_ := id; server_ := true;
     context_ := false;
     tables_ := {[ 0 := Some t ]};
     iterators_ := ∅ |}.

(** [n] entries [(0, 0); (1, 10); (2, 20); ...]. *)
Definition entries (n : nat) : list (Z * Z) :=
  (fun i => (Z.of_nat i, 10 * Z.of_nat i)) <$> seq 0 n.

(** Worker 1 owns the shard and holds its [n] entries. *)
Definition owner_worker (n : nat) : Worker Z Z :=
  worker_of 1 (table_of None (entries n) 1).

(** Worker 0 sees the peer through its proxy; its replica of the table
    routes shard 0 to worker 1 and holds no data for it. *)
Definition peers (n : nat) : gmap Z (Worker Z Z) := {[ 1 := owner_worker n ]}.

Definition client_table : Table Z Z := table_of None [] 1.

(** Worker 0 owns shard 0 of table 0, reduced with MAX, holding
    [(1, 5)]. *)
Definition max_table : Table Z Z := table_of (Some scalar_maximum) [(1, 5)] 0.

Definition max_owner : Worker Z Z := worker_of 0 max_table.

(** Kernels: one writes [(9, 9)] into the shard and returns, one writes
    and then raises. *)
Definition write_nine (w : Worker Z Z) : Worker Z Z :=
  set_tables
    (<[0 := Some (table_of (Some scalar_maximum) [(1, 5); (9, 9)] 0)]>
       (tables_ w)) w.

Definition example_kernels (id : string)
  : option (Kernel Z Z string) :=
  if String.eqb id "writer" then
    Some (fun _ _ w => Returned (write_nine w))
  else if String.eqb id "failing" then
    Some (fun _ _ w => Raised "boom"%string (write_nine w))
  else None.

Definition example_format_exc (exc : string) : string :=
  String.append "PyException: " exc.

Definition kernel_req (kernel : string) : RunKernelReq :=
  {| kreq_table := 0; kreq_shard := 0; kreq_kernel := kernel;
     kreq_kernel_args := []; kreq_task_args := [] |}.

Definition fresh_kernel_resp : RunKernelResp Z :=
  {| kresp_elapsed := 0; kresp_error := EmptyString |}.

(** Worker 1 holds the same routing table but does not own the shard, so
    its replica of the shard is empty. *)
Definition max_peer_table : Table Z Z := table_of (Some scalar_maximum) [] 0.

Definition max_peer : Worker Z Z := worker_of 1 max_peer_table.

(** No iterator of the table is registered in [w]. *)
Definition no_iterator_for (table : Z) (w : Worker Z Z) : Prop :=
  forall id it,
    iterators_ w !! id = Some (Some it) -> (shard_ref it).1 <> table.

End Example.

(** * The other handlers of worker.cc *)

Section Lifecycle.
Context {K V : Type} `{EqDecision K}.

(** [Worker::Worker]: [running_ = true], [current_iterator_id_ = 0],
    [id_ = -1], [server_ = NULL]; the maps start empty. *)
Definition Worker_new : Worker K V :=
  {| running_ := true;
     running_cv_signalled := false;
     current_iterator_id_ := 0;
     id_ := -1;
     server_ := false;
     context_ := false;
     tables_ := ∅;
     iterators_ := ∅ |}.

Definition set_id (i : Z) (w : Worker K V) : Worker K V :=
  {| running_ := running_ w;
     running_cv_signalled := running_cv_signalled w;
     current_iterator_id_ := current_iterator_id_ w;
     id_ := i;
     server_ := server_ w;
     context_ := context_ w;
     tables_ := tables_ w;
     iterators_ := iterators_ w |}.

(** *** [Worker::initialize] *)

Record HostPort : Type := mkHostPort { hp_host : string; hp_port : Z }.

(** [req.workers] is a map from worker id to address; it is kept as the
    list of its pairs in iteration order. *)
Record WorkerInitReq : Type := mkWorkerInitReq {
  wi_id : Z;
  wi_workers : list (Z * HostPort)
}.

(** The vector [peers_] of proxy pointers lives beside the members kept in
    [Worker]; a proxy is identified with the address it was connected to,
    the null pointer is [None]. *)
Definition Peers : Type := list (option HostPort).

(** [for (auto w : req.workers) { if (w.first != id_) { peers_[w.first] =
    connect<WorkerProxy>(...); } }]; an index outside the vector is out of
    range. *)
Fixpoint connect_peers (id : Z) (workers : list (Z * HostPort))
  : M (Worker K V * Peers) unit :=
  match workers with
  | [] => mret tt
  | (i, addr) :: rest =>
      (if negb (i =? id) then
         st ← get_state;
         _ ← deref (at_index st.2 i);
         modify (fun st : Worker K V * Peers =>
                   (st.1, <[Z.to_nat i := Some addr]> st.2))
       else mret tt);;
      connect_peers id rest
  end.

Definition Worker_initialize (req : WorkerInitReq)
  : M (Worker K V * Peers) unit :=
  CHECK (negb (wi_id req =? -1));;
  modify (fun st : Worker K V * Peers => (set_id (wi_id req) st.1, st.2));;
  (* peers_.resize(req.workers.size()) *)
  modify (fun st : Worker K V * Peers =>
            (st.1, resize (length (wi_workers req)) None st.2));;
  connect_peers (wi_id req) (wi_workers req).

(** *** [Worker::create_table] *)

Context {Opts : Type}.

(** [req.combiner], [req.reducer], ...: a type id and its options. *)
Record PluginSpec : Type := mkPluginSpec { type_id : string; opts : Opts }.

Record CreateTableReq : Type := mkCreateTableReq {
  creq_id : Z;
  creq_num_shards : Z;
  creq_sharder : PluginSpec;
  creq_combiner : PluginSpec;
  creq_reducer : PluginSpec;
  creq_selector : PluginSpec
}.

(** [new Table] followed by [t->init(id, num_shards)] ([table.h]). *)
Variable Table_init : Z -> Z -> Table K V.

(** [TypeRegistry<Accumulator>::get_by_id]. *)
Variable Accumulator_get_by_id : string -> Opts -> Accumulator (V := V).

Definition set_plugins (c r : Accumulator (V := V)) (t : Table K V)
  : Table K V :=
  {| table_id := table_id t;
     shards := shards t;
     shard_infos := shard_infos t;
     combiner := c;
     reducer := r |}.

(** The sharder, the selector, [t->workers] and the context pointer are
    members that [Table] does not keep; the assignments to them leave the
    members kept here as they are. *)
Definition Worker_create_table (req : CreateTableReq) : M (Worker K V) unit :=
  w ← get_state;
  CHECK (negb (id_ w =? -1));;
  modify set_context;;
  let t := Table_init (creq_id req) (creq_num_shards req) in
  let t :=
    set_plugins
      (Accumulator_get_by_id (type_id (creq_combiner req))
         (opts (creq_combiner req)))
      (Accumulator_get_by_id (type_id (creq_reducer req))
         (opts (creq_reducer req))) t in
  modify (fun w => set_tables (<[creq_id req := Some t]> (tables_ w)) w).

(** *** [Worker::assign_shards] *)

Record ShardAssignment : Type := mkShardAssignment {
  sa_table : Z;
  sa_shard : Z;
  sa_worker : Z
}.

(** [t->shard_info(shard)->owner = worker]; a shard index outside the
    vector of [ShardInfo] is out of range. *)
Definition Table_set_owner (t : Table K V) (shard worker : Z)
  : option (Table K V) :=
  _ ← at_index (shard_infos t) shard;
  Some {| table_id := table_id t;
          shards := shards t;
          shard_infos := <[Z.to_nat shard := {| owner := worker |}]>
                           (shard_infos t);
          combiner := combiner t;
          reducer := reducer t |}.

(** [for (auto a : shard_req.assign) { CHECK(tables_.find(a.table) !=
    tables_.end()); Table *t = tables_[a.table]; ... }] *)
Fixpoint Worker_assign_shards (assign : list ShardAssignment)
  : M (Worker K V) unit :=
  match assign with
  | [] => mret tt
  | a :: rest =>
      w ← get_state;
      CHECK (bool_decide (is_Some (tables_ w !! sa_table a)));;
      t ← tables_index (sa_table a) ≫= deref;
      t' ← deref (Table_set_owner t (sa_shard a) (sa_worker a));
      modify (fun w => set_tables (<[sa_table a := Some t']> (tables_ w)) w);;
      Worker_assign_shards rest
  end.

(** *** A sequence of [GetIterator] requests

    The requests are served one after the other, each on a fresh response
    object; the responses are collected in order. *)
Fixpoint serve_requests (reqs : list IteratorReq)
  : M (Worker K V) (list (IteratorResp K V)) :=
  match reqs with
  | [] => mret []
  | req :: rest =>
      resp ← Worker_get_iterator req IteratorResp_new;
      resps ← serve_requests rest;
      mret (resp :: resps)
  end.

End Lifecycle.

Arguments PluginSpec : clear implicits.
Arguments CreateTableReq : clear implicits.

(** * Notions used in the further properties *)

Module ReducerNotions.
Import Reducer.

(** The truth value of a cell, as the logical operators see it. *)
Definition truth (x : Z) : Z := if x =? 0 then 0 else 1.

(** The scalar operation that a dense reducer applies to each pair of
    cells: the scalar reducer itself, except that the dense AND and OR are
    the logical operators, the scalar ones the bitwise operators. *)
Definition cellwise (r : REDUCER) (in1 in2 : Z) : Z :=
  match r with
  | REDUCER_AND | REDUCER_OR => scalar_functions r (truth in1) (truth in2)
  | _ => scalar_functions r in1 in2
  end.

(** Reducers for which an update applied twice counts once. *)
Definition absorbs_repeats (r : REDUCER) : bool :=
  match r with
  | REDUCER_REPLACE | REDUCER_MAXIMUM | REDUCER_MINIMUM
  | REDUCER_AND | REDUCER_OR => true
  | REDUCER_ADD | REDUCER_MUL | REDUCER_XOR => false
  end.

(** The values of [npy_int]. *)
Definition is_npy_int (z : Z) : Prop := INT_MIN <= z <= INT_MAX.

End ReducerNotions.

Section HandlerNotions.
Context {K V : Type} `{EqDecision K}.

(** The request [req] carrying the batch [kv] instead of its own. *)
Definition with_batch (kv : list (K * V)) (req : TableData K V)
  : TableData K V :=
  {| td_source := td_source req; td_table := td_table req;
     td_shard := td_shard req; td_done := td_done req;
     td_missing_key := td_missing_key req; td_kv_data := kv |}.

(** What a handler working on table [table] leaves alone: the iterator
    registry, the iterator counter, the worker id, the running flag, the
    server and every other table; the table itself stays registered. *)
Definition same_but_table (table : Z) (w w' : Worker K V) : Prop :=
  iterators_ w' = iterators_ w
  /\ current_iterator_id_ w' = current_iterator_id_ w
  /\ id_ w' = id_ w
  /\ running_ w' = running_ w
  /\ server_ w' = server_ w
  /\ (forall k, k <> table -> tables_ w' !! k = tables_ w !! k)
  /\ (is_Some (tables_ w !! table) -> is_Some (tables_ w' !! table)).

(** What a [GetIterator] request leaves alone: the registered tables, the
    registry entries under other ids than [id], the worker id, the
    running flag and the server. *)
Definition same_but_iterator (id : Z) (w w' : Worker K V) : Prop :=
  (forall k p, tables_ w !! k = Some p -> tables_ w' !! k = Some p)
  /\ (forall j, j <> id -> iterators_ w' !! j = iterators_ w !! j)
  /\ id_ w' = id_ w
  /\ running_ w' = running_ w
  /\ server_ w' = server_ w.

(** The request that opens a cursor on a shard and asks for [count]
    entries. *)
Definition opening (table shard count : Z) : IteratorReq :=
  {| ireq_table := table; ireq_shard := shard; ireq_id := -1;
     ireq_count := count |}.

(** A follow-up request for [count] entries of the cursor [id]. *)
Definition continuation (table shard id count : Z) : IteratorReq :=
  {| ireq_table := table; ireq_shard := shard; ireq_id := id;
     ireq_count := count |}.

(** The number of entries asked for by requests with the counts [cs]. *)
Definition requested (cs : list Z) : nat :=
  foldr (fun c n => (Z.to_nat c + n)%nat) 0%nat cs.

(** All entries of the batches [resps], in the order received. *)
Definition received (resps : list (IteratorResp K V)) : list (K * V) :=
  concat (iresp_results <$> resps).

(** The owner of shard [shard] of table [table] after the assignments
    [assign] were applied in order to a shard owned by [old]: the worker
    of the last assignment naming the shard, if any. *)
Definition assigned (assign : list ShardAssignment) (table shard old : Z)
  : Z :=
  foldl (fun o a =>
           if bool_decide (sa_table a = table /\ sa_shard a = shard)
           then sa_worker a else o) old assign.

(** [a] names a registered table and one of its shards. *)
Definition assignable (w : Worker K V) (a : ShardAssignment) : Prop :=
  exists t, tables_ w !! sa_table a = Some (Some t)
            /\ is_Some (at_index (shard_infos t) (sa_shard a)).

(** [t'] is [t] with the owners changed by [assign]; the shards and the
    plug-in slots are those of [t]. *)
Definition reassigned (assign : list ShardAssignment) (id : Z)
    (t t' : Table K V) : Prop :=
  table_id t' = table_id t
  /\ shards t' = shards t
  /\ combiner t' = combiner t
  /\ reducer t' = reducer t
  /\ forall i, worker_for_shard t' i
               = assigned assign id i <$> worker_for_shard t i.

(** The worker after [shutdown]. *)
Definition stopped (w : Worker K V) : Worker K V :=
  {| running_ := false;
     running_cv_signalled := true;
     current_iterator_id_ := current_iterator_id_ w;
     id_ := id_ w;
     server_ := false;
     context_ := context_ w;
     tables_ := ∅;
     iterators_ := iterators_ w |}.

(** A peer entry that [initialize] can store in a vector of [n] proxies:
    the worker's own entry, which is skipped, or an index of the vector. *)
Definition connectable (id : Z) (n : nat) (p : Z * HostPort) : Prop :=
  p.1 = id \/ 0 <= p.1 < Z.of_nat n.

End HandlerNotions.

(** Requests and registries on which the properties are instantiated. *)
Module Scenario.
Import Reducer Example.

(** A table of [n] empty shards, none of them assigned. *)
Definition empty_table (id n : Z) : Table Z Z :=
  {| table_id := id;
     shards := replicate (Z.to_nat n) (shard_of []);
     shard_infos := replicate (Z.to_nat n) {| owner := -1 |};
     combiner := None; reducer := None |}.

(** A registry of accumulators holding the maximum under the name
    ["max"]. *)
Definition accumulators (name : string) (_ : unit) : Accumulator (V := Z) :=
  if String.eqb name "max" then Some scalar_maximum else None.

Definition plugin (name : string) : PluginSpec unit :=
  {| type_id := name; opts := tt |}.

(** Table 1 with two shards, reduced with the maximum. *)
Definition create_req : CreateTableReq unit :=
  {| creq_id := 1; creq_num_shards := 2;
     creq_sharder := plugin "modulo"%string;
     creq_combiner := plugin "replace"%string;
     creq_reducer := plugin "max"%string;
     creq_selector := plugin "all"%string |}.

Definition host (port : Z) : HostPort :=
  {| hp_host := "localhost"%string; hp_port := port |}.

(** Worker 1 of three workers. *)
Definition init_req : WorkerInitReq :=
  {| wi_id := 1; wi_workers := [(0, host 9000); (1, host 9001); (2, host 9002)] |}.

(** Worker 0 of two workers, the other one registered under the id 5. *)
Definition sparse_init_req : WorkerInitReq :=
  {| wi_id := 0; wi_workers := [(0, host 9000); (5, host 9005)] |}.

(** The owner of three entries whose iterator counter stands at its last
    value. *)
Definition last_id_worker : Worker Z Z :=
  set_current_iterator_id (2 ^ 32 - 1) (owner_worker 3).

(** The owner of three entries after an opening request for two of
    them. *)
Definition after_two_rows : Worker Z Z :=
  registered 0 (advance 2 (new_iterator (opening 0 0 2)))
    (registered 0 (new_iterator (opening 0 0 2))
       (set_current_iterator_id 1 (owner_worker 3))).

(** The response to that request. *)
Definition two_rows : IteratorResp Z Z :=
  {| iresp_id := 0; iresp_results := [(0, 0); (1, 10)];
     iresp_row_count := 1; iresp_done := false |}.

End Scenario.

(** * Facts *)

(** ** Machine integers *)

Lemma to_i32_add_l (a b : Z) : to_i32 (to_i32 a + b) = to_i32 (a + b).
Proof.
  unfold to_i32.
  replace ((a + 2 ^ 31) mod 2 ^ 32 - 2 ^ 31 + b + 2 ^ 31)
    with ((a + 2 ^ 31) mod 2 ^ 32 + b) by ring.
  rewrite Zplus_mod_idemp_l. f_equal. f_equal. ring.
Qed.

Lemma to_i32_add_r (a b : Z) : to_i32 (a + to_i32 b) = to_i32 (a + b).
Proof. rewrite (Z.add_comm a), to_i32_add_l. f_equal. ring. Qed.

Lemma to_i32_mul_l (a b : Z) : to_i32 (to_i32 a * b) = to_i32 (a * b).
Proof.
  unfold to_i32 at 2.
  rewrite (Z.mod_eq (a + 2 ^ 31) (2 ^ 32)) by lia.
  set (q := (a + 2 ^ 31) / 2 ^ 32).
  unfold to_i32.
  replace ((a + 2 ^ 31 - 2 ^ 32 * q - 2 ^ 31) * b + 2 ^ 31)
    with (a * b + 2 ^ 31 + (- q * b) * 2 ^ 32) by ring.
  now rewrite Z_mod_plus_full.
Qed.

Lemma to_i32_mul_r (a b : Z) : to_i32 (a * to_i32 b) = to_i32 (a * b).
Proof. rewrite (Z.mul_comm a), to_i32_mul_l. f_equal. ring. Qed.

Lemma to_u32_to_i32 (x : Z) : to_u32 (to_i32 x) = to_u32 x.
Proof. unfold to_u32, to_i32. Z.to_euclidean_division_equations. lia. Qed.

Lemma to_i32_to_u32_minus_one (x : Z) :
  to_i32 (to_u32 x) = -1 <-> to_u32 x = 2 ^ 32 - 1.
Proof. unfold to_u32, to_i32. Z.to_euclidean_division_equations. lia. Qed.

(** ** Reducers *)

Module ReducerFacts.
Import Reducer ReducerAlgebra.

Lemma add_ac : commutative body_add /\ associative body_add.
Proof.
  split; unfold body_add.
  - intros a b. now rewrite Z.add_comm.
  - intros a b c. rewrite to_i32_add_l, to_i32_add_r. f_equal. ring.
Qed.

Lemma mul_ac : commutative body_mul /\ associative body_mul.
Proof.
  split; unfold body_mul.
  - intros a b. now rewrite Z.mul_comm.
  - intros a b c. rewrite to_i32_mul_l, to_i32_mul_r. f_equal. ring.
Qed.

Lemma body_max_eq (a b : Z) : body_max a b = Z.max a b.
Proof. unfold body_max. rewrite Z.geb_leb. destruct (Z.leb_spec b a); lia. Qed.

Lemma body_min_eq (a b : Z) : body_min a b = Z.min a b.
Proof. unfold body_min. destruct (Z.ltb_spec a b); lia. Qed.

Lemma body_minle_eq (a b : Z) : body_minle a b = Z.min a b.
Proof. unfold body_minle. destruct (Z.leb_spec a b); lia. Qed.

Lemma max_ac : commutative body_max /\ associative body_max.
Proof.
  split; [intros a b | intros a b c]; rewrite !body_max_eq; lia.
Qed.

Lemma min_ac : commutative body_min /\ associative body_min.
Proof.
  split; [intros a b | intros a b c]; rewrite !body_min_eq; lia.
Qed.

Lemma minle_ac : commutative body_minle /\ associative body_minle.
Proof.
  split; [intros a b | intros a b c]; rewrite !body_minle_eq; lia.
Qed.

Lemma and_ac : commutative body_and /\ associative body_and.
Proof.
  split; [intros a b | intros a b c]; unfold body_and;
    destruct (a =? 0), (b =? 0); try destruct (c =? 0); reflexivity.
Qed.

Lemma or_ac : commutative body_or /\ associative body_or.
Proof.
  split; [intros a b | intros a b c]; unfold body_or;
    destruct (a =? 0), (b =? 0); try destruct (c =? 0); reflexivity.
Qed.

Lemma land_ac : commutative Z.land /\ associative Z.land.
Proof.
  split; [exact Z.land_comm | intros a b c; symmetry; apply Z.land_assoc].
Qed.

Lemma lor_ac : commutative Z.lor /\ associative Z.lor.
Proof.
  split; [exact Z.lor_comm | intros a b c; symmetry; apply Z.lor_assoc].
Qed.

Lemma lxor_ac : commutative Z.lxor /\ associative Z.lxor.
Proof.
  split; [exact Z.lxor_comm | intros a b c; apply Z.lxor_assoc].
Qed.

Lemma scalar_functions_ac (r : REDUCER) :
  r <> REDUCER_REPLACE ->
  commutative (scalar_functions r) /\ associative (scalar_functions r).
Proof.
  destruct r; intros Hr; try congruence; simpl.
  - exact add_ac.
  - exact mul_ac.
  - exact max_ac.
  - exact min_ac.
  - exact land_ac.
  - exact lor_ac.
  - exact lxor_ac.
Qed.

(** The dense loop over two arrays of [n] cells is the pointwise
    operation. *)
Lemma BINARY_DENSE_LOOP_zip (body : Z -> Z -> Z) (n : nat) :
  forall ip1 ip2 : list Z,
    length ip1 = n -> length ip2 = n ->
    BINARY_DENSE_LOOP body n ip1 ip2 = Some (zip_with body ip1 ip2).
Proof.
  induction n as [|n IH]; intros [|a ip1] [|b ip2] H1 H2;
    simpl in *; try discriminate; try reflexivity.
  rewrite IH by congruence. reflexivity.
Qed.

Lemma zip_with_comm (f : Z -> Z -> Z) :
  commutative f -> forall a b : list Z, zip_with f a b = zip_with f b a.
Proof.
  intros Hf a. induction a as [|x a IH]; intros [|y b]; simpl; try easy.
  now rewrite Hf, IH.
Qed.

Lemma zip_with_assoc (f : Z -> Z -> Z) :
  associative f ->
  forall a b c : list Z,
    zip_with f (zip_with f a b) c = zip_with f a (zip_with f b c).
Proof.
  intros Hf a. induction a as [|x a IH]; intros [|y b] [|z c]; simpl;
    try easy.
  now rewrite Hf, IH.
Qed.

Lemma dense_functions_body (r : REDUCER) :
  dense_functions r = BINARY_DENSE_LOOP (dense_body r).
Proof. destruct r; reflexivity. Qed.

Lemma dense_body_ac (r : REDUCER) :
  r <> REDUCER_REPLACE ->
  commutative (dense_body r) /\ associative (dense_body r).
Proof.
  destruct r; intros Hr; try congruence; simpl.
  - exact add_ac.
  - exact mul_ac.
  - exact max_ac.
  - exact minle_ac.
  - exact and_ac.
  - exact or_ac.
  - exact lxor_ac.
Qed.

Lemma dense_functions_comm (r : REDUCER) (n : nat) (a b : list Z) :
  r <> REDUCER_REPLACE -> length a = n -> length b = n ->
  dense_functions r n a b = dense_functions r n b a.
Proof.
  intros Hr Ha Hb. rewrite dense_functions_body.
  rewrite !BINARY_DENSE_LOOP_zip by assumption.
  f_equal. apply zip_with_comm, dense_body_ac, Hr.
Qed.

Lemma dense_functions_assoc (r : REDUCER) (n : nat) (a b c : list Z) :
  r <> REDUCER_REPLACE -> length a = n -> length b = n -> length c = n ->
  (dense_functions r n a b ≫= fun ab => dense_functions r n ab c)
  = (dense_functions r n b c ≫= fun bc => dense_functions r n a bc).
Proof.
  intros Hr Ha Hb Hc. rewrite dense_functions_body.
  rewrite (BINARY_DENSE_LOOP_zip _ n a b), (BINARY_DENSE_LOOP_zip _ n b c)
    by assumption.
  simpl.
  rewrite !BINARY_DENSE_LOOP_zip;
    rewrite ?length_zip_with; try lia.
  f_equal. apply zip_with_assoc, dense_body_ac, Hr.
Qed.

End ReducerFacts.

(** ** Sequencing *)

Lemma bind_Ok {St A B} (m : M St A) (f : A -> M St B) (s s' : St) (a : A) :
  m s = Ok a s' -> (m ≫= f) s = f a s'.
Proof. intros Hm. unfold mbind, M_bind. now rewrite Hm. Qed.

(** ** The worker runtime *)

Section RuntimeFacts.
Context {K V : Type} `{EqDecision K}.
Implicit Types (w : Worker K V) (t : Table K V) (s : Shard K V).
Implicit Types (d : list (K * V)) (acc : Accumulator (V := V)).

Ltac munfold :=
  unfold mbind, M_bind, mret, M_ret, get_state, modify, deref, CHECK,
    Log_fatal.

(** *** Shards *)

Lemma find_entry_merge_eq acc k v d :
  find_entry k (merge_entry acc k v d) =
    Some match find_entry k d with
         | Some old => accumulate acc old v
         | None => v
         end.
Proof.
  induction d as [|[k' old] d IH]; simpl.
  - now rewrite decide_True.
  - destruct (decide (k' = k)) as [->|Hne]; simpl.
    + now rewrite decide_True.
    + now rewrite decide_False.
Qed.

Lemma find_entry_merge_ne acc k k' v d :
  k' <> k -> find_entry k' (merge_entry acc k v d) = find_entry k' d.
Proof.
  intros Hne. induction d as [|[k0 old] d IH]; simpl.
  - rewrite decide_False; [reflexivity | congruence].
  - destruct (decide (k0 = k)) as [->|Hk]; simpl.
    + rewrite !decide_False; [reflexivity | congruence | congruence].
    + now rewrite IH.
Qed.

Lemma at_index_Some {A} (l : list A) (i : Z) (x : A) :
  at_index l i = Some x -> 0 <= i /\ l !! Z.to_nat i = Some x.
Proof. unfold at_index. case_decide; [tauto | discriminate]. Qed.

Lemma set_data_id s : set_data (shard_data s) s = s.
Proof. now destruct s. Qed.

Lemma set_shard_id t shard s :
  Table_shard t shard = Some s -> set_shard t shard s = t.
Proof.
  intros [_ Hs]%at_index_Some. unfold set_shard.
  rewrite list_insert_id by exact Hs. now destruct t.
Qed.

Lemma set_shard_twice t shard s1 s2 :
  set_shard (set_shard t shard s1) shard s2 = set_shard t shard s2.
Proof. unfold set_shard; simpl. now rewrite list_insert_insert_eq. Qed.

Lemma Table_shard_set_shard t shard s s' :
  Table_shard t shard = Some s ->
  Table_shard (set_shard t shard s') shard = Some s'.
Proof.
  intros [Hi Hs]%at_index_Some. unfold Table_shard, at_index; simpl.
  rewrite decide_True by exact Hi.
  apply list_lookup_insert_eq. eapply lookup_lt_Some, Hs.
Qed.

Lemma set_tables_id w : set_tables (tables_ w) w = w.
Proof. now destruct w. Qed.

Lemma set_tables_twice m1 m2 w :
  set_tables m2 (set_tables m1 w) = set_tables m2 w.
Proof. reflexivity. Qed.

(** *** Lookups in the registries *)

Lemma tables_index_present w k (p : option (Table K V)) :
  tables_ w !! k = Some p -> tables_index k w = Ok p w.
Proof. intros Hk. unfold tables_index. now rewrite Hk. Qed.

(** *** [Worker::get] *)

Lemma Worker_get_spec w (req : GetRequest K) (resp : TableData K V) t s :
  tables_ w !! greq_table req = Some (Some t) ->
  Table_shard t (greq_shard req) = Some s ->
  Worker_get req resp w =
    Ok {| td_source := id_ w;
          td_table := greq_table req;
          td_shard := -1;
          td_done := true;
          td_missing_key :=
            bool_decide (find_entry (greq_key req) (shard_data s) = None);
          td_kv_data :=
            td_kv_data resp ++
              match find_entry (greq_key req) (shard_data s) with
              | Some v => [(greq_key req, v)]
              | None => []
              end |} w.
Proof.
  intros Ht Hs. unfold Worker_get, Table_contains, Table_get.
  munfold. unfold tables_index.
  rewrite Ht, Hs. simpl.
  destruct (find_entry (greq_key req) (shard_data s)) as [v|] eqn:Hf.
  - rewrite bool_decide_true by eauto. simpl. reflexivity.
  - rewrite bool_decide_false by (intros [? ?]; congruence). simpl.
    now rewrite app_nil_r.
Qed.

(** *** [Worker::put] *)

Lemma put_loop_spec (table shard : Z) (kv : list (K * V)) :
  forall w t s,
    tables_ w !! table = Some (Some t) ->
    Table_shard t shard = Some s ->
    put_loop table shard kv w = Ok tt (after_put w table shard t s kv).
Proof.
  induction kv as [|[k v] kv IH]; intros w t s Ht Hs; simpl.
  - unfold after_put, merge_batch; simpl.
    rewrite set_data_id, (set_shard_id _ _ _ Hs).
    rewrite insert_id by exact Ht. now rewrite set_tables_id.
  - munfold. unfold Table_update. rewrite Ht; simpl. rewrite Hs; simpl.
    set (s' := {| shard_data := merge_entry (reducer t) k v (shard_data s);
                  shard_pending := shard_pending s;
                  shard_dirty := shard_dirty s |}).
    set (t' := set_shard t shard s').
    rewrite (IH _ t' s').
    + unfold after_put. f_equal. simpl.
      rewrite insert_insert_eq. unfold t'.
      now rewrite set_shard_twice.
    + simpl. apply lookup_insert_eq.
    + eapply Table_shard_set_shard, Hs.
Qed.

Lemma Worker_put_spec w (req : TableData K V) t s :
  tables_ w !! td_table req = Some (Some t) ->
  Table_shard t (td_shard req) = Some s ->
  Worker_put req w =
    Ok tt (after_put w (td_table req) (td_shard req) t s (td_kv_data req)).
Proof.
  intros Ht Hs. unfold Worker_put. munfold. unfold tables_index.
  rewrite bool_decide_true by (rewrite Ht; eauto).
  rewrite Ht. eapply put_loop_spec; eassumption.
Qed.

Lemma after_put_lookup w table shard t s kv :
  tables_ (after_put w table shard t s kv) !! table =
    Some (Some (set_shard t shard
                  (set_data (merge_batch (reducer t) kv (shard_data s)) s))).
Proof. unfold after_put; simpl. apply lookup_insert_eq. Qed.

(** *** Server-side iterators *)

Lemma iterator_entries_spec w (it : TableIterator) t s :
  tables_ w !! (shard_ref it).1 = Some (Some t) ->
  Table_shard t (shard_ref it).2 = Some s ->
  iterator_entries it w = Ok (shard_data s) w.
Proof.
  intros Ht Hs. unfold iterator_entries. munfold.
  rewrite Ht; simpl. now rewrite Hs.
Qed.

Lemma fill_loop_spec w (ref : Z * Z) d :
  (forall it, shard_ref it = ref -> iterator_entries it w = Ok d w) ->
  forall (n : nat) (i : Z) (it : TableIterator) (resp : IteratorResp K V),
    shard_ref it = ref ->
    fill_loop n i it resp w =
      Ok (advance (n `min` (length d - cursor it)) it,
          filled i (take n (drop (cursor it) d)) resp) w.
Proof.
  intros Hent n. induction n as [|n IH]; intros i it resp Hit.
  - simpl. munfold. unfold advance, filled. rewrite take_0; simpl.
    rewrite app_nil_r, Nat.add_0_r. now destruct it, resp.
  - match goal with |- _ = ?r => set (rhs := r) end.
    simpl. unfold TableIterator_done, TableIterator_key,
      TableIterator_value. munfold. rewrite (Hent it Hit).
    destruct (decide (length d ≤ cursor it)%nat) as [Hdone|Hmore].
    + rewrite bool_decide_true by exact Hdone. simpl.
      rewrite (IH (i + 1) it resp Hit). subst rhs.
      rewrite drop_ge by exact Hdone. rewrite !take_nil.
      replace (length d - cursor it)%nat with 0%nat by lia.
      now rewrite !Nat.min_0_r.
    + rewrite bool_decide_false by exact Hmore. simpl.
      destruct (lookup_lt_is_Some_2 d (cursor it)) as [[k v] Hkv]; [lia|].
      rewrite (Hent it Hit), Hkv; simpl.
      rewrite (Hent it Hit), Hkv; simpl.
      rewrite IH by (simpl; exact Hit). subst rhs.
      rewrite (drop_S _ _ _ Hkv).
      replace (S n `min` (length d - cursor it))%nat
        with (S (n `min` (length d - S (cursor it))))%nat by lia.
      f_equal. f_equal.
      * unfold advance; simpl. f_equal. lia.
      * unfold filled; simpl. rewrite <- app_assoc. simpl.
        f_equal.
        destruct (length (take n (drop (S (cursor it)) d))) as [|m];
          f_equal; lia.
Qed.

(** *** [Worker::get_iterator] *)

Lemma Worker_get_iterator_new_spec w (req : IteratorReq)
    (resp : IteratorResp K V) t s :
  ireq_id req = -1 ->
  tables_ w !! ireq_table req = Some (Some t) ->
  Table_shard t (ireq_shard req) = Some s ->
  let id := to_u32 (current_iterator_id_ w) in
  let c := Z.to_nat (ireq_count req) in
  let it0 := new_iterator req in
  Worker_get_iterator req resp w =
    Ok (served id c it0 (shard_data s) resp)
       (registered id (advance (c `min` (length (shard_data s) - 0)) it0)
          (registered id it0
             (set_current_iterator_id
                (to_u32 (current_iterator_id_ w + 1)) w))).
Proof.
  intros Hid Ht Hs id c it0.
  unfold Worker_get_iterator, Table_get_iterator. munfold.
  unfold tables_index. rewrite Ht, Hid, Hs. simpl.
  fold id. fold it0.
  match goal with
  | |- context [fill_loop _ _ _ _ ?w1] =>
      rewrite (fill_loop_spec w1 (ireq_table req, ireq_shard req)
                 (shard_data s))
  end; [| | reflexivity].
  - simpl.
    match goal with
    | |- context [TableIterator_done ?i ?w1] =>
        unfold TableIterator_done; munfold;
        rewrite (iterator_entries_spec w1 i t s) by (simpl; assumption)
    end.
    reflexivity.
  - intros it Hit. apply (iterator_entries_spec _ it t s); rewrite Hit;
      simpl; assumption.
Qed.

Lemma Worker_get_iterator_continue_spec w (req : IteratorReq)
    (resp : IteratorResp K V) (p : option (Table K V)) it t s :
  ireq_id req <> -1 ->
  tables_ w !! ireq_table req = Some p ->
  iterators_ w !! to_u32 (ireq_id req) = Some (Some it) ->
  tables_ w !! (shard_ref it).1 = Some (Some t) ->
  Table_shard t (shard_ref it).2 = Some s ->
  let id := to_u32 (ireq_id req) in
  let c := Z.to_nat (ireq_count req) in
  Worker_get_iterator req resp w =
    Ok (served id c it (shard_data s) resp)
       (registered id
          (advance (c `min` (length (shard_data s) - cursor it)) it) w).
Proof.
  intros Hid Hp Hit Ht Hs id c.
  unfold Worker_get_iterator. munfold.
  unfold tables_index, iterators_index. rewrite Hp.
  apply Z.eqb_neq in Hid. rewrite Hid, Hit. simpl.
  rewrite (fill_loop_spec w (shard_ref it) (shard_data s));
    [| | reflexivity].
  - simpl.
    match goal with
    | |- context [TableIterator_done ?i ?w1] =>
        unfold TableIterator_done; munfold;
        rewrite (iterator_entries_spec w1 i t s) by (simpl; assumption)
    end.
    reflexivity.
  - intros it' Hit'. apply (iterator_entries_spec _ it' t s);
      rewrite Hit'; assumption.
Qed.

(** *** The iterator registry only grows *)

Local Abbreviation keeps_iterators := (keeps_iterators (K := K) (V := V)).

Lemma keeps_bind {A B} (m : M (Worker K V) A) (f : A -> M (Worker K V) B) :
  keeps_iterators m -> (forall a, keeps_iterators (f a)) ->
  keeps_iterators (m ≫= f).
Proof.
  intros Hm Hf w. specialize (Hm w). unfold mbind, M_bind.
  destruct (m w) as [a w1|e w1|]; simpl in *; try assumption.
  specialize (Hf a w1). destruct (f a w1); simpl in *; set_solver.
Qed.

Lemma keeps_ret {A} (a : A) : keeps_iterators (mret a).
Proof. intros w; simpl. set_solver. Qed.

Lemma keeps_get_state : keeps_iterators get_state.
Proof. intros w; simpl. set_solver. Qed.

Lemma keeps_deref {A} (p : option A) : keeps_iterators (deref p).
Proof. intros w; destruct p; simpl; set_solver. Qed.

Lemma keeps_CHECK (b : bool) : keeps_iterators (CHECK b).
Proof. intros w; destruct b; simpl; set_solver. Qed.

Lemma keeps_modify (f : Worker K V -> Worker K V) :
  (forall w, dom (iterators_ w) ⊆ dom (iterators_ (f w))) ->
  keeps_iterators (modify f).
Proof. intros Hf w; simpl. apply Hf. Qed.

Lemma keeps_tables_index k : keeps_iterators (tables_index k).
Proof.
  intros w. unfold tables_index.
  destruct (tables_ w !! k); simpl; set_solver.
Qed.

Lemma keeps_iterators_index k : keeps_iterators (iterators_index k).
Proof.
  intros w. unfold iterators_index.
  destruct (iterators_ w !! k); simpl; [set_solver|].
  rewrite dom_insert_L. set_solver.
Qed.

Lemma keeps_register id (it : TableIterator) :
  keeps_iterators
    (modify (fun w => set_iterators (<[id := Some it]> (iterators_ w)) w)).
Proof.
  apply keeps_modify. intros w; simpl. rewrite dom_insert_L. set_solver.
Qed.

Lemma keeps_iterator_entries it : keeps_iterators (iterator_entries it).
Proof.
  unfold iterator_entries.
  apply keeps_bind; [apply keeps_get_state | intros w0].
  apply keeps_bind; [apply keeps_deref | intros t].
  apply keeps_bind; [apply keeps_deref | intros s].
  apply keeps_ret.
Qed.

Lemma keeps_TableIterator_done it : keeps_iterators (TableIterator_done it).
Proof.
  unfold TableIterator_done.
  apply keeps_bind; [apply keeps_iterator_entries | intros d].
  apply keeps_ret.
Qed.

Lemma keeps_fill_loop n :
  forall i it (resp : IteratorResp K V),
    keeps_iterators (fill_loop n i it resp).
Proof.
  induction n as [|n IH]; intros i it resp; simpl.
  - apply keeps_ret.
  - apply keeps_bind; [apply keeps_TableIterator_done | intros d].
    destruct d; simpl; [apply IH|].
    apply keeps_bind;
      [apply keeps_bind; [apply keeps_iterator_entries | intros ?];
       apply keeps_deref | intros k].
    apply keeps_bind;
      [apply keeps_bind; [apply keeps_iterator_entries | intros ?];
       apply keeps_deref | intros v].
    apply IH.
Qed.

Lemma keeps_Worker_get_iterator (req : IteratorReq)
    (resp : IteratorResp K V) :
  keeps_iterators (Worker_get_iterator req resp).
Proof.
  unfold Worker_get_iterator.
  apply keeps_bind; [apply keeps_tables_index | intros t].
  apply keeps_bind.
  - destruct (ireq_id req =? -1).
    + apply keeps_bind; [apply keeps_deref | intros t'].
      apply keeps_bind; [apply keeps_deref | intros it].
      apply keeps_bind; [apply keeps_get_state | intros w0].
      apply keeps_bind; [| intros _].
      { apply keeps_modify. intros w; simpl. set_solver. }
      apply keeps_bind; [apply keeps_register | intros _].
      apply keeps_ret.
    + apply keeps_bind; [apply keeps_iterators_index | intros it].
      apply keeps_bind; [apply keeps_CHECK | intros _].
      apply keeps_bind; [apply keeps_deref | intros it'].
      apply keeps_ret.
  - intros [[id it] resp'].
    apply keeps_bind; [apply keeps_fill_loop | intros [it' resp'']].
    apply keeps_bind; [apply keeps_register | intros _].
    apply keeps_bind; [apply keeps_TableIterator_done | intros d].
    apply keeps_ret.
Qed.

(** *** [Worker::destroy_table] and [Worker::shutdown] *)

Lemma Worker_destroy_table_spec w (id : Z) :
  Worker_destroy_table id w = Ok tt (set_tables (delete id (tables_ w)) w).
Proof.
  unfold Worker_destroy_table, tables_index. munfold.
  destruct (tables_ w !! id) eqn:Hid; simpl; [reflexivity|].
  rewrite delete_insert_eq. reflexivity.
Qed.

Lemma Worker_shutdown_spec w :
  Worker_shutdown w =
    Ok tt {| running_ := false;
             running_cv_signalled := true;
             current_iterator_id_ := current_iterator_id_ w;
             id_ := id_ w;
             server_ := false;
             context_ := context_ w;
             tables_ := ∅;
             iterators_ := iterators_ w |}.
Proof. reflexivity. Qed.

(** *** [Worker::run_kernel] *)

Context {Time PyException : Type}.
Variable format_exc : PyException -> string.
Variable Kernel_get_by_id : string -> option (Kernel K V PyException).

Lemma Worker_run_kernel_spec w (kreq : RunKernelReq)
    (resp : RunKernelResp Time) (elapsed : Time) t s (o : Z) :
  id_ w <> -1 ->
  tables_ w !! kreq_table kreq = Some (Some t) ->
  Table_shard t (kreq_shard kreq) = Some s ->
  worker_for_shard t (kreq_shard kreq) = Some o ->
  Worker_run_kernel format_exc Kernel_get_by_id kreq resp elapsed w =
    if o =? id_ w then
      match Kernel_get_by_id (kreq_kernel kreq) with
      | Some k =>
          match k (kreq_kernel_args kreq) (kreq_task_args kreq)
                  (set_context w) with
          | Returned w' => Ok (set_elapsed elapsed resp) w'
          | Raised exc w' =>
              Ok (set_elapsed elapsed (set_error (format_exc exc) resp)) w'
          end
      | None => Undefined
      end
    else Fatal RoutingViolation (set_context w).
Proof.
  intros Hid Ht Hs Ho. unfold Worker_run_kernel, try_run. munfold.
  unfold tables_index. simpl.
  apply Z.eqb_neq in Hid. rewrite Hid; simpl.
  rewrite Ht; simpl. rewrite Hs; simpl. rewrite Ht; simpl.
  rewrite Ho; simpl.
  destruct (o =? id_ w); simpl; [|reflexivity].
  destruct (Kernel_get_by_id (kreq_kernel kreq)) as [k|]; [|reflexivity].
  destruct (k _ _ _); reflexivity.
Qed.

Lemma Worker_run_kernel_uninitialised w (kreq : RunKernelReq)
    (resp : RunKernelResp Time) (elapsed : Time) :
  id_ w = -1 ->
  Worker_run_kernel format_exc Kernel_get_by_id kreq resp elapsed w
  = Fatal CheckFailure (set_context w).
Proof.
  intros Hid. unfold Worker_run_kernel. munfold. simpl.
  rewrite Hid. reflexivity.
Qed.

(** *** Two writers to one key *)

Lemma merge_entry_swap (f : V -> V -> V) k v1 v2 d :
  (forall a b, f a b = f b a) ->
  (forall a b c, f (f a b) c = f a (f b c)) ->
  merge_entry (Some f) k v2 (merge_entry (Some f) k v1 d)
  = merge_entry (Some f) k v1 (merge_entry (Some f) k v2 d).
Proof.
  intros Hc Ha. induction d as [|[k' old] d IH]; simpl.
  - rewrite !decide_True by reflexivity. simpl. now rewrite Hc.
  - destruct (decide (k' = k)) as [->|Hne]; simpl.
    + rewrite !decide_True by reflexivity. simpl.
      now rewrite !Ha, (Hc v1 v2).
    + rewrite !decide_False by exact Hne. now rewrite IH.
Qed.

Lemma two_writers_spec w table shard k src1 src2 v1 v2 t s :
  tables_ w !! table = Some (Some t) ->
  Table_shard t shard = Some s ->
  let d' :=
    merge_entry (reducer t) k v2 (merge_entry (reducer t) k v1 (shard_data s))
  in
  two_writers table shard k src1 src2 v1 v2 w =
    Ok {| td_source := id_ w;
          td_table := table;
          td_shard := -1;
          td_done := true;
          td_missing_key := bool_decide (find_entry k d' = None);
          td_kv_data :=
            match find_entry k d' with
            | Some v => [(k, v)]
            | None => []
            end |}
       (set_tables
          (<[table := Some (set_shard t shard (set_data d' s))]> (tables_ w))
          w).
Proof.
  intros Ht Hs d'. unfold two_writers.
  rewrite (bind_Ok _ _ _ _ _
             (Worker_put_spec w (single_update src1 table shard k v1)
                t s Ht Hs)).
  simpl td_table; simpl td_shard; simpl td_kv_data.
  set (s1 := set_data (merge_batch (reducer t) [(k, v1)] (shard_data s)) s).
  set (t1 := set_shard t shard s1).
  assert (Ht1 : tables_ (after_put w table shard t s [(k, v1)]) !! table
                = Some (Some t1)) by apply after_put_lookup.
  assert (Hs1 : Table_shard t1 shard = Some s1)
    by (eapply Table_shard_set_shard, Hs).
  rewrite (bind_Ok _ _ _ _ _
             (Worker_put_spec _ (single_update src2 table shard k v2)
                t1 s1 Ht1 Hs1)).
  simpl td_table; simpl td_shard; simpl td_kv_data.
  set (s2 := set_data (merge_batch (reducer t1) [(k, v2)] (shard_data s1)) s1).
  set (t2 := set_shard t1 shard s2).
  assert (Ht2 : tables_ (after_put (after_put w table shard t s [(k, v1)])
                           table shard t1 s1 [(k, v2)]) !! table
                = Some (Some t2)) by apply after_put_lookup.
  assert (Hs2 : Table_shard t2 shard = Some s2)
    by (eapply Table_shard_set_shard, Hs1).
  rewrite (Worker_get_spec _ (mkGetRequest table shard k) TableData_new
             t2 s2 Ht2 Hs2).
  unfold after_put; simpl. rewrite insert_insert_eq.
  unfold t1. rewrite set_shard_twice. reflexivity.
Qed.

End RuntimeFacts.

(** * Claims *)

Section Claims.
Context {K V : Type} `{EqDecision K}.
Implicit Types (w : Worker K V) (t : Table K V) (s : Shard K V).

(** C2.  [Worker::put] merges every entry of the batch, in order, into the
    addressed shard of the registered table and then returns; one merge
    stores [reducer(old, v)] at the key when a value is present there
    (the replace default for a null reducer), [v] otherwise, and leaves
    the other keys alone. *)
Theorem C2_put_merges_every_entry w (req : TableData K V) t s :
  tables_ w !! td_table req = Some (Some t) ->
  Table_shard t (td_shard req) = Some s ->
  Worker_put req w =
    Ok tt
      (set_tables
         (<[td_table req :=
              Some (set_shard t (td_shard req)
                      (set_data
                         (foldl (fun d p => merge_entry (reducer t) p.1 p.2 d)
                            (shard_data s) (td_kv_data req)) s))]>
            (tables_ w)) w)
  /\ (forall k v (d : list (K * V)),
        find_entry k (merge_entry (reducer t) k v d) =
          Some match find_entry k d with
               | Some old => accumulate (reducer t) old v
               | None => v
               end)
  /\ (forall k k' v (d : list (K * V)),
        k' <> k ->
        find_entry k' (merge_entry (reducer t) k v d) = find_entry k' d)
  /\ (forall f old v,
        reducer t = Some f -> accumulate (reducer t) old v = f old v).
Proof.
  intros Ht Hs. split; [|split; [|split]].
  - exact (Worker_put_spec w req t s Ht Hs).
  - intros k v d. apply find_entry_merge_eq.
  - intros k k' v d Hne. now apply find_entry_merge_ne.
  - intros f old v ->. reflexivity.
Qed.

(** C7.  [Worker::get] on a registered table and an existing shard
    returns normally, without changing the worker: [missing_key] is true
    and [kv_data] empty when the shard does not hold the key; otherwise
    [missing_key] is false and [kv_data] is the one pair of the key and
    the stored value. *)
Theorem C7_get_encodes_missing_key w (req : GetRequest K)
    (resp : TableData K V) t s :
  tables_ w !! greq_table req = Some (Some t) ->
  Table_shard t (greq_shard req) = Some s ->
  td_kv_data resp = [] ->
  exists resp',
    Worker_get req resp w = Ok resp' w
    /\ match find_entry (greq_key req) (shard_data s) with
       | None => td_missing_key resp' = true /\ td_kv_data resp' = []
       | Some v =>
           td_missing_key resp' = false
           /\ td_kv_data resp' = [(greq_key req, v)]
       end.
Proof.
  intros Ht Hs Hkv. eexists. split.
  - exact (Worker_get_spec w req resp t s Ht Hs).
  - simpl. rewrite Hkv.
    destruct (find_entry (greq_key req) (shard_data s)); simpl; auto.
Qed.

(** C10.  The response of [Worker::get] carries the id of the handling
    worker as [source], the requested table, [shard = -1] and
    [done = true], whether or not the key is present; the requested shard
    id is not echoed. *)
Theorem C10_get_response_header w (req : GetRequest K)
    (resp : TableData K V) t s :
  tables_ w !! greq_table req = Some (Some t) ->
  Table_shard t (greq_shard req) = Some s ->
  exists resp',
    Worker_get req resp w = Ok resp' w
    /\ td_source resp' = id_ w
    /\ td_table resp' = greq_table req
    /\ td_shard resp' = -1
    /\ td_done resp' = true
    /\ td_shard resp' <> greq_shard req.
Proof.
  intros Ht Hs. eexists. split.
  - exact (Worker_get_spec w req resp t s Ht Hs).
  - simpl. repeat split; try reflexivity.
    apply at_index_Some in Hs. lia.
Qed.

Section RunKernel.
Context {Time PyException : Type}.
Variable format_exc : PyException -> string.
Variable Kernel_get_by_id : string -> option (Kernel K V PyException).

(** C3.  A [RunKernel] request for a shard of a registered table whose
    owner is another worker ends fatally, with the routing violation on
    an initialised worker (on a worker without an id the [CHECK] on [id_]
    fails first); the tables, the iterator registry, the iterator
    counter, the running flag and the server are what they were.  When
    the worker is the owner the check passes and the outcome is that of
    running the registered kernel. *)
Theorem C3_run_kernel_routing_check w (kreq : RunKernelReq)
    (resp : RunKernelResp Time) (elapsed : Time) t s (o : Z) :
  tables_ w !! kreq_table kreq = Some (Some t) ->
  Table_shard t (kreq_shard kreq) = Some s ->
  worker_for_shard t (kreq_shard kreq) = Some o ->
  (o <> id_ w ->
   exists e w',
     Worker_run_kernel format_exc Kernel_get_by_id kreq resp elapsed w
     = Fatal e w'
     /\ (id_ w <> -1 -> e = RoutingViolation)
     /\ tables_ w' = tables_ w
     /\ iterators_ w' = iterators_ w
     /\ current_iterator_id_ w' = current_iterator_id_ w
     /\ running_ w' = running_ w
     /\ server_ w' = server_ w)
  /\ (o = id_ w ->
      id_ w <> -1 ->
      forall k,
        Kernel_get_by_id (kreq_kernel kreq) = Some k ->
        Worker_run_kernel format_exc Kernel_get_by_id kreq resp elapsed w
        = match k (kreq_kernel_args kreq) (kreq_task_args kreq)
                  (set_context w) with
          | Returned w' => Ok (set_elapsed elapsed resp) w'
          | Raised exc w' =>
              Ok (set_elapsed elapsed (set_error (format_exc exc) resp))
                 w'
          end).
Proof.
  intros Ht Hs Ho. split.
  - intros Hne. destruct (decide (id_ w = -1)) as [Hid|Hid].
    + exists CheckFailure, (set_context w). split.
      * now apply Worker_run_kernel_uninitialised.
      * repeat split. intros Hid'. contradiction.
    + pose proof (Worker_run_kernel_spec format_exc Kernel_get_by_id
                    w kreq resp elapsed t s o Hid Ht Hs Ho) as Hrun.
      apply Z.eqb_neq in Hne. rewrite Hne in Hrun.
      exists RoutingViolation, (set_context w). repeat split. exact Hrun.
  - intros -> Hid k Hk.
    pose proof (Worker_run_kernel_spec format_exc Kernel_get_by_id
                  w kreq resp elapsed t s (id_ w) Hid Ht Hs Ho) as Hrun.
    rewrite Z.eqb_refl, Hk in Hrun. exact Hrun.
Qed.

(** C6.  On an owned shard, a [PyException] raised by the kernel is
    caught: the handler returns with [error = format_exc(exc)]
    (non-empty when [format_exc] yields non-empty text), and with the
    [error] of the fresh response (empty) when the kernel returns; in
    both cases [elapsed] is the timer reading and the worker is left in
    the state the kernel produced. *)
Theorem C6_kernel_failure_is_reported w (kreq : RunKernelReq)
    (resp : RunKernelResp Time) (elapsed : Time) t s k :
  (forall exc, format_exc exc <> EmptyString) ->
  kresp_error resp = EmptyString ->
  id_ w <> -1 ->
  tables_ w !! kreq_table kreq = Some (Some t) ->
  Table_shard t (kreq_shard kreq) = Some s ->
  worker_for_shard t (kreq_shard kreq) = Some (id_ w) ->
  Kernel_get_by_id (kreq_kernel kreq) = Some k ->
  match k (kreq_kernel_args kreq) (kreq_task_args kreq) (set_context w)
  with
  | Raised exc w' =>
      exists resp',
        Worker_run_kernel format_exc Kernel_get_by_id kreq resp elapsed w
        = Ok resp' w'
        /\ kresp_error resp' = format_exc exc
        /\ kresp_error resp' <> EmptyString
        /\ kresp_elapsed resp' = elapsed
  | Returned w' =>
      exists resp',
        Worker_run_kernel format_exc Kernel_get_by_id kreq resp elapsed w
        = Ok resp' w'
        /\ kresp_error resp' = EmptyString
        /\ kresp_elapsed resp' = elapsed
  end.
Proof.
  intros Hfmt Hfresh Hid Ht Hs Ho Hk.
  pose proof (Worker_run_kernel_spec format_exc Kernel_get_by_id
                w kreq resp elapsed t s (id_ w) Hid Ht Hs Ho) as Hrun.
  rewrite Z.eqb_refl, Hk in Hrun.
  destruct (k _ _ _) as [w'|exc w']; eexists; (split; [exact Hrun|]);
    simpl; auto.
Qed.

End RunKernel.

Lemma served_serves_batch w (req : IteratorReq) (resp : IteratorResp K V)
    (it : TableIterator) (d : list (K * V)) (id : Z) w' :
  iresp_results resp = [] ->
  Worker_get_iterator req resp w =
    Ok (served id (Z.to_nat (ireq_count req)) it d resp) w' ->
  iterators_ w' !! id
  = Some (Some (advance (Z.to_nat (ireq_count req)
                           `min` (length d - cursor it)) it)) ->
  serves_batch w req resp it d.
Proof.
  intros Hfresh Hrun Hreg. unfold serves_batch.
  eexists _, _. split; [exact Hrun|].
  assert (Hres : iresp_results
                   (served id (Z.to_nat (ireq_count req)) it d resp)
                 = take (Z.to_nat (ireq_count req)) (drop (cursor it) d))
    by (simpl; now rewrite Hfresh).
  assert (Hdone : iresp_done
                    (served id (Z.to_nat (ireq_count req)) it d resp) = true
                  <-> (length d - cursor it <= Z.to_nat (ireq_count req))%nat).
  { simpl. rewrite bool_decide_eq_true. lia. }
  split; [exact Hres|].
  split; [rewrite Hres, length_take, length_drop; lia|].
  split; [exact Hdone|].
  split; [exact Hreg|].
  split.
  - intros Hc. rewrite Hres, Hdone, Hc. split; [reflexivity | lia].
  - intros ->. rewrite Hres, Hdone. simpl.
    split; [now rewrite drop_nil, take_nil | lia].
Qed.

(** C5.  A [GetIterator] request with a fresh response, either opening a
    new iterator ([id = -1]) on an existing shard or continuing a
    registered one, returns exactly [min(count, remaining)] entries in
    cursor order, with [done] true iff the cursor is exhausted after the
    fill; [count = 0] gives an empty batch with the current [done], and
    an empty shard gives an empty batch with [done = true]. *)
Theorem C5_get_iterator_batch w (req : IteratorReq)
    (resp : IteratorResp K V) :
  iresp_results resp = [] ->
  (forall t s,
      ireq_id req = -1 ->
      tables_ w !! ireq_table req = Some (Some t) ->
      Table_shard t (ireq_shard req) = Some s ->
      serves_batch w req resp (new_iterator req) (shard_data s))
  /\ (forall p it t s,
        ireq_id req <> -1 ->
        tables_ w !! ireq_table req = Some p ->
        iterators_ w !! to_u32 (ireq_id req) = Some (Some it) ->
        tables_ w !! (shard_ref it).1 = Some (Some t) ->
        Table_shard t (shard_ref it).2 = Some s ->
        serves_batch w req resp it (shard_data s)).
Proof.
  intros Hfresh. split.
  - intros t s Hid Ht Hs.
    eapply served_serves_batch; [exact Hfresh | |].
    + exact (Worker_get_iterator_new_spec w req resp t s Hid Ht Hs).
    + simpl. apply lookup_insert_eq.
  - intros p it t s Hid Hp Hit Ht Hs.
    eapply served_serves_batch; [exact Hfresh | |].
    + exact (Worker_get_iterator_continue_spec w req resp p it t s
               Hid Hp Hit Ht Hs).
    + simpl. apply lookup_insert_eq.
Qed.

(** C8, as amended.  No handler removes an entry of the iterator
    registry: [Worker::destroy_table] erases the table and
    [Worker::shutdown] clears the tables, stops the server and signals
    the condition variable, both leaving [iterators_] as it was, and
    whatever [Worker::get_iterator] does, every id registered before is
    registered afterwards. *)
Theorem C8_iterators_are_never_unregistered w :
  (forall id,
      exists w',
        Worker_destroy_table id w = Ok tt w'
        /\ tables_ w' = delete id (tables_ w)
        /\ iterators_ w' = iterators_ w)
  /\ (exists w',
        Worker_shutdown w = Ok tt w'
        /\ tables_ w' = ∅
        /\ server_ w' = false
        /\ running_ w' = false
        /\ running_cv_signalled w' = true
        /\ iterators_ w' = iterators_ w)
  /\ (forall (req : IteratorReq) (resp : IteratorResp K V),
        reaches (fun w' => dom (iterators_ w) ⊆ dom (iterators_ w'))
          (Worker_get_iterator req resp w)).
Proof.
  split; [|split].
  - intros id. eexists. split; [apply Worker_destroy_table_spec|].
    split; reflexivity.
  - eexists. split; [apply Worker_shutdown_spec|]. repeat split.
  - intros req resp. apply keeps_Worker_get_iterator.
Qed.

End Claims.

(** ** Iteration with any amount of fuel *)

Section Fuel.
Context {K V : Type} `{EqDecision K}.

(** Once the client loop ends without running out of fuel, more fuel does
    not change what it does. *)
Lemma RemoteIterator_drain_stable (f : nat) :
  forall (it : RemoteIterator K V) (cluster : gmap Z (Worker K V)),
    ~ out_of_fuel (RemoteIterator_drain f it cluster) ->
    forall f', (f <= f')%nat ->
      RemoteIterator_drain f' it cluster = RemoteIterator_drain f it cluster.
Proof.
  induction f as [|f IH]; intros it cluster Hfuel f' Hle.
  - exfalso. apply Hfuel. now exists cluster.
  - destruct f' as [|f']; [lia|]. simpl in *.
    destruct (RemoteIterator_done it); [reflexivity|].
    unfold mbind, M_bind, mret, M_ret, deref in *.
    destruct (RemoteIterator_key_str it) as [k|]; [|reflexivity].
    destruct (RemoteIterator_value_str it) as [v|]; [|reflexivity].
    destruct (RemoteIterator_next it cluster) as [it' c1|e c1|];
      [|reflexivity|reflexivity].
    rewrite (IH it' c1); [reflexivity | | lia].
    intros [c2 Hc2]. apply Hfuel. rewrite Hc2. simpl. now exists c2.
Qed.

Lemma RemoteIterator_observe_stable (f : nat) (table : Table K V)
    (shard fetch_num : Z) (cluster : gmap Z (Worker K V)) :
  ~ out_of_fuel (RemoteIterator_observe f table shard fetch_num cluster) ->
  forall f', (f <= f')%nat ->
    RemoteIterator_observe f' table shard fetch_num cluster
    = RemoteIterator_observe f table shard fetch_num cluster.
Proof.
  unfold RemoteIterator_observe, mbind, M_bind. intros Hfuel f' Hle.
  destruct (RemoteIterator_new table shard fetch_num cluster)
    as [it c1|e c1|]; [|reflexivity|reflexivity].
  now apply RemoteIterator_drain_stable.
Qed.

(** A local traversal yields the entries from the cursor on, in order. *)
Lemma TableIterator_drain_spec (w : Worker K V) (ref : Z * Z)
    (d : list (K * V)) :
  (forall it, shard_ref it = ref -> iterator_entries it w = Ok d w) ->
  forall (n : nat) (it : TableIterator) (fuel : nat),
    shard_ref it = ref ->
    (length d - cursor it = n)%nat ->
    (n < fuel)%nat ->
    TableIterator_drain fuel it w = Ok (Some (drop (cursor it) d)) w.
Proof.
  intros Hent n. induction n as [|n IH]; intros it fuel Hit Hn Hfuel;
    (destruct fuel as [|fuel]; [lia|]); simpl;
    unfold TableIterator_done, TableIterator_key, TableIterator_value,
      mbind, M_bind, mret, M_ret, deref; rewrite (Hent it Hit).
  - rewrite bool_decide_true by lia. rewrite drop_ge by lia. reflexivity.
  - rewrite bool_decide_false by lia.
    destruct (lookup_lt_is_Some_2 d (cursor it)) as [[k v] Hkv]; [lia|].
    rewrite (Hent it Hit), Hkv; simpl.
    rewrite (Hent it Hit), Hkv; simpl.
    rewrite (IH (TableIterator_next it) fuel); simpl; try lia;
      [|exact Hit].
    now rewrite (drop_S _ _ _ Hkv).
Qed.

Lemma LocalIterator_observe_spec (w : Worker K V) (table shard : Z)
    (t : Table K V) (s : Shard K V) (fuel : nat) :
  tables_ w !! table = Some (Some t) ->
  Table_shard t shard = Some s ->
  (length (shard_data s) < fuel)%nat ->
  LocalIterator_observe fuel table shard w = Ok (Some (shard_data s)) w.
Proof.
  intros Ht Hs Hfuel.
  unfold LocalIterator_observe, Table_get_iterator, mbind at 1 2 3, M_bind,
    get_state, deref.
  rewrite Ht; simpl. rewrite Hs; simpl.
  erewrite (TableIterator_drain_spec w (table, shard) (shard_data s));
    [reflexivity | | reflexivity | reflexivity | simpl; lia].
  intros it Hit. apply (iterator_entries_spec w it t s); now rewrite Hit.
Qed.

End Fuel.

(** ** Remote iteration in general *)

Section RemoteGeneral.
Context {K V : Type} `{EqDecision K}.
Implicit Types (it : RemoteIterator K V) (cluster : gmap Z (Worker K V)).

Lemma RemoteIterator_drain_last_buffer cluster (o : Z) :
  forall (n : nat) it (fuel : nat),
    worker_for_shard (table_ it) (shard_ it) = Some o ->
    iresp_done (response_ it) = true ->
    (index_ it <= length (buffer it))%nat ->
    (length (buffer it) - index_ it = n)%nat ->
    (n < fuel)%nat ->
    RemoteIterator_drain fuel it cluster
    = Ok (Some (drop (index_ it) (buffer it))) cluster.
Proof.
  induction n as [|n IH]; intros it fuel Ho Hdone Hle Hn Hfuel;
    (destruct fuel as [|fuel]; [lia|]); simpl;
    unfold RemoteIterator_done; rewrite Hdone; simpl.
  - rewrite bool_decide_true by (unfold buffer in *; lia).
    rewrite drop_ge by lia. reflexivity.
  - rewrite bool_decide_false by (unfold buffer in *; lia).
    unfold RemoteIterator_key_str, RemoteIterator_value_str.
    destruct (lookup_lt_is_Some_2 (buffer it) (index_ it)) as [[k v] Hkv];
      [lia|].
    unfold buffer in Hkv. 
    unfold mbind, M_bind, mret, M_ret, deref. rewrite Hkv. simpl.
    unfold RemoteIterator_next. simpl. 
    unfold mbind, M_bind, mret, M_ret, deref. rewrite Ho, Hdone.
    assert (Hrec : RemoteIterator_drain fuel (set_index (S (index_ it)) it)
                     cluster
                   = Ok (Some (drop (S (index_ it)) (buffer it))) cluster).
    { refine (IH (set_index (S (index_ it)) it) fuel _ _ _ _ _);
        simpl; unfold buffer in *; simpl; try assumption; lia. }
    destruct (bool_decide _); rewrite Hrec; simpl;
      unfold buffer; now rewrite (drop_S _ _ _ Hkv).
Qed.

Lemma RemoteIterator_new_spec cluster (ct : Table K V) shard fetch_num
    target w t s :
  worker_for_shard ct shard = Some target ->
  cluster !! target = Some w ->
  tables_ w !! table_id ct = Some (Some t) ->
  Table_shard t shard = Some s ->
  RemoteIterator_new ct shard fetch_num cluster =
    Ok (first_iterator ct shard fetch_num w (shard_data s))
       (<[target := opened w (first_request ct shard fetch_num) (shard_data s)]>
          cluster).
Proof.
  intros Ho Hw Ht Hs.
  unfold RemoteIterator_new, WorkerProxy_get_iterator.
  unfold mbind, M_bind, mret, M_ret, deref. rewrite Ho, Hw.
  fold (first_request ct shard fetch_num).
  rewrite (Worker_get_iterator_new_spec w (first_request ct shard fetch_num)
             IteratorResp_new t s eq_refl Ht Hs).
  reflexivity.
Qed.

(** Without a refill: a shard of at most [FETCH] entries. *)
Theorem RemoteIterator_observe_single_batch cluster (ct : Table K V)
    shard fetch_num target w t s (fuel : nat) :
  worker_for_shard ct shard = Some target ->
  cluster !! target = Some w ->
  tables_ w !! table_id ct = Some (Some t) ->
  Table_shard t shard = Some s ->
  0 < fetch_num < 2 ^ 32 ->
  (length (shard_data s) <= Z.to_nat fetch_num)%nat ->
  (length (shard_data s) < fuel)%nat ->
  exists cluster',
    RemoteIterator_observe fuel ct shard fetch_num cluster
    = Ok (Some (shard_data s)) cluster'
    /\ LocalIterator_observe fuel (table_id ct) shard w
       = Ok (Some (shard_data s)) w.
Proof.
  intros Ho Hw Ht Hs Hfetch Hlen Hfuel.
  eexists. split; [|now apply (LocalIterator_observe_spec w _ _ t s)].
  unfold RemoteIterator_observe.
  rewrite (bind_Ok _ _ _ _ _
             (RemoteIterator_new_spec cluster ct shard fetch_num target w t s
                Ho Hw Ht Hs)).
  assert (Hc : to_u32 fetch_num = fetch_num)
    by (unfold to_u32; apply Z.mod_small; lia).
  assert (Hbuf : buffer (first_iterator ct shard fetch_num w (shard_data s))
                 = shard_data s).
  { unfold buffer; simpl. rewrite Hc. now rewrite take_ge by exact Hlen. }
  rewrite (RemoteIterator_drain_last_buffer _ target (length (shard_data s))).
  - simpl index_. rewrite Hbuf. reflexivity.
  - exact Ho.
  - simpl. rewrite Hc. apply bool_decide_eq_true. lia.
  - simpl; lia.
  - rewrite Hbuf. simpl. lia.
  - exact Hfuel.
Qed.

Lemma prepend_nil {St} (o : outcome St (option (list (K * V)))) :
  prepend [] o = o.
Proof. destruct o as [[l|] c|e c|]; reflexivity. Qed.

Lemma set_index_same it : set_index (index_ it) it = it.
Proof. now destruct it. Qed.

(** While the client reads inside the buffer no request is sent. *)
Lemma RemoteIterator_drain_within_buffer cluster (o : Z) :
  forall (n : nat) it (fuel : nat),
    worker_for_shard (table_ it) (shard_ it) = Some o ->
    iresp_done (response_ it) = false ->
    (index_ it + n < length (buffer it))%nat ->
    RemoteIterator_drain (n + fuel) it cluster
    = prepend (take n (drop (index_ it) (buffer it)))
        (RemoteIterator_drain fuel (set_index (index_ it + n) it) cluster).
Proof.
  induction n as [|n IH]; intros it fuel Ho Hdone Hlt.
  - rewrite Nat.add_0_r, set_index_same, take_0. now rewrite prepend_nil.
  - destruct (lookup_lt_is_Some_2 (buffer it) (index_ it)) as [[k v] Hkv];
      [lia|].
    assert (Hnext : RemoteIterator_next it cluster
                    = Ok (set_index (S (index_ it)) it) cluster).
    { unfold RemoteIterator_next, mbind, M_bind, mret, M_ret, deref. simpl.
      rewrite Ho. unfold buffer in Hlt.
      rewrite bool_decide_false by lia. reflexivity. }
    pose proof (IH (set_index (S (index_ it)) it) fuel Ho Hdone) as Hrec.
    simpl index_ in Hrec. unfold buffer in *. simpl response_ in Hrec.
    replace (S (index_ it) + n)%nat with (index_ it + S n)%nat in Hrec by lia.
    change (set_index (index_ it + S n) (set_index (S (index_ it)) it))
      with (set_index (index_ it + S n) it) in Hrec.
    specialize (Hrec Hlt).
    rewrite (drop_S _ _ _ Hkv).
    change (S n + fuel)%nat with (S (n + fuel)).
    match goal with |- _ = ?r => set (rhs := r) end.
    simpl. unfold RemoteIterator_done, RemoteIterator_key_str,
      RemoteIterator_value_str, mbind, M_bind, mret, M_ret, deref.
    rewrite Hdone, Hkv. simpl. rewrite Hnext, Hrec. subst rhs.
    destruct (RemoteIterator_drain fuel _ cluster) as [[l|] c|e c|];
      reflexivity.
Qed.

(** The request a client sends to refill, answered by the peer. *)
Lemma WorkerProxy_get_iterator_refill cluster (ct : Table K V) shard
    fetch_num target w t s :
  cluster !! target = Some w ->
  tables_ w !! table_id ct = Some (Some t) ->
  Table_shard t shard = Some s ->
  to_u32 (current_iterator_id_ w) <> 2 ^ 32 - 1 ->
  let d := shard_data s in
  let req := first_request ct shard fetch_num in
  let id := to_u32 (current_iterator_id_ w) in
  let c := Z.to_nat (to_u32 fetch_num) in
  let it1 := advance (c `min` (length d - 0)) (new_iterator req) in
  exists w2,
    WorkerProxy_get_iterator target
      (request_ (first_iterator ct shard fetch_num w d))
      (<[target := opened w req d]> cluster)
    = Ok (served id c it1 d IteratorResp_new)
         (<[target := w2]> (<[target := opened w req d]> cluster)).
Proof.
  intros Hw Ht Hs Hid d req id c it1.
  unfold WorkerProxy_get_iterator. rewrite lookup_insert_eq.
  assert (Hne : ireq_id (request_ (first_iterator ct shard fetch_num w d))
                <> -1).
  { simpl. rewrite to_i32_to_u32_minus_one. exact Hid. }
  assert (Hkey : to_u32 (ireq_id
                   (request_ (first_iterator ct shard fetch_num w d))) = id).
  { simpl. rewrite to_u32_to_i32. unfold id, to_u32.
    apply Z.mod_mod. lia. }
  erewrite (Worker_get_iterator_continue_spec (opened w req d)
              (request_ (first_iterator ct shard fetch_num w d))
              IteratorResp_new (Some t) it1 t s Hne).
  - rewrite Hkey. eexists. reflexivity.
  - simpl. exact Ht.
  - rewrite Hkey. unfold opened. simpl. apply lookup_insert_eq.
  - simpl. exact Ht.
  - simpl. exact Hs.
Qed.

(** With a refill: a shard of more than [FETCH] entries.  After the refill
    the client either stops, having seen the first batch only, or reads
    past the end of its buffer. *)
Lemma RemoteIterator_observe_refill cluster (ct : Table K V) shard
    fetch_num target w t s :
  worker_for_shard ct shard = Some target ->
  cluster !! target = Some w ->
  tables_ w !! table_id ct = Some (Some t) ->
  Table_shard t shard = Some s ->
  0 < fetch_num < 2 ^ 32 ->
  (Z.to_nat fetch_num < length (shard_data s))%nat ->
  to_u32 (current_iterator_id_ w) <> 2 ^ 32 - 1 ->
  let c := Z.to_nat fetch_num in
  RemoteIterator_observe (S c) ct shard fetch_num cluster = Undefined
  \/ exists cluster',
      RemoteIterator_observe (S c) ct shard fetch_num cluster
      = Ok (Some (take c (shard_data s))) cluster'.
Proof.
  intros Ho Hw Ht Hs Hfetch Hlen Hid. cbv zeta.
  set (d := shard_data s) in *.
  assert (Hc : to_u32 fetch_num = fetch_num)
    by (unfold to_u32; apply Z.mod_small; lia).
  unfold RemoteIterator_observe.
  rewrite (bind_Ok _ _ _ _ _
             (RemoteIterator_new_spec cluster ct shard fetch_num target w t s
                Ho Hw Ht Hs)).
  fold d.
  destruct (WorkerProxy_get_iterator_refill cluster ct shard fetch_num
              target w t s Hw Ht Hs Hid) as [w2 Hrefill].
  fold d in Hrefill.
  set (it0 := first_iterator ct shard fetch_num w d) in *.
  set (cl1 := <[target := opened w (first_request ct shard fetch_num) d]>
                cluster) in *.
  rewrite Hc in Hrefill.
  assert (Hbuf : buffer it0 = take (Z.to_nat fetch_num) d).
  { unfold buffer; simpl. now rewrite Hc. }
  assert (Hdone0 : iresp_done (response_ it0) = false).
  { simpl. rewrite Hc. apply bool_decide_eq_false.
    clear -Hlen. clearbody d. lia. }
  destruct (Z.to_nat fetch_num) as [|c'] eqn:Ec; [lia|].
  destruct (lookup_lt_is_Some_2 d c') as [[k v] Hkv]; [lia|].
  replace (S (S c')) with (c' + 2)%nat by lia.
  rewrite (RemoteIterator_drain_within_buffer cl1 target c' it0 2 Ho Hdone0)
    by (rewrite Hbuf, length_take; change (index_ it0) with 0%nat; lia).
  simpl index_. rewrite Hbuf.
  change (set_index (0 + c') it0) with (set_index c' it0).
  set (resp' := served (to_u32 (current_iterator_id_ w)) (S c')
                  (advance (S c' `min` (length d - 0))
                     (new_iterator (first_request ct shard fetch_num)))
                  d IteratorResp_new) in *.
  assert (Hshort : (length (iresp_results resp') <= S c')%nat).
  { simpl. rewrite length_take. lia. }
  assert (Hnext : RemoteIterator_next (set_index c' it0) cl1
                  = Ok (set_response resp' (set_index (S c') it0))
                       (<[target := w2]> cl1)).
  { unfold RemoteIterator_next, mbind, M_bind, mret, M_ret, deref. simpl.
    rewrite Ho. rewrite Hc, Ec.
    rewrite bool_decide_true by (rewrite length_take; lia).
    rewrite bool_decide_false by lia.
    pose proof Hrefill as Hr. unfold it0 in Hr. simpl request_ in Hr.
    rewrite Hc in Hr. rewrite Hr. reflexivity. }
  assert (Hfinal :
    RemoteIterator_drain 1 (set_response resp' (set_index (S c') it0))
      (<[target := w2]> cl1) = Undefined
    \/ RemoteIterator_drain 1 (set_response resp' (set_index (S c') it0))
         (<[target := w2]> cl1) = Ok (Some []) (<[target := w2]> cl1)).
  { simpl RemoteIterator_drain.
    destruct (RemoteIterator_done _); [right; reflexivity | left].
    unfold RemoteIterator_key_str, mbind, M_bind, deref.
    simpl response_. simpl index_.
    now rewrite (lookup_ge_None_2 _ _ Hshort). }
  assert (Hstep : forall o,
    RemoteIterator_drain 1 (set_response resp' (set_index (S c') it0))
      (<[target := w2]> cl1) = o ->
    RemoteIterator_drain 2 (set_index c' it0) cl1
    = match o with
      | Ok rest c2 => Ok (cons (k, v) <$> rest) c2
      | Fatal e c2 => Fatal e c2
      | Undefined => Undefined
      end).
  { intros o Ho'. change 2%nat with (S 1).
    remember 1%nat as one. simpl RemoteIterator_drain.
    unfold RemoteIterator_done, RemoteIterator_key_str,
      RemoteIterator_value_str.
    change (response_ (set_index c' it0)) with (response_ it0).
    change (index_ (set_index c' it0)) with c'.
    rewrite Hdone0. cbn [andb].
    change (iresp_results (response_ it0)) with (buffer it0).
    rewrite Hbuf. rewrite lookup_take_lt by lia. rewrite Hkv.
    erewrite bind_Ok by reflexivity.
    erewrite bind_Ok by reflexivity.
    erewrite bind_Ok by exact Hnext.
    unfold mbind, M_bind. rewrite Ho'. reflexivity. }
  rewrite drop_0, take_take. replace (c' `min` S c')%nat with c' by lia.
  rewrite (take_S_r _ _ _ Hkv).
  destruct Hfinal as [Hu|Hd].
  - left. rewrite (Hstep _ Hu). reflexivity.
  - right. eexists. rewrite (Hstep _ Hd). reflexivity.
Qed.

(** With a refill the client never yields the whole shard: whenever its
    loop ends, it has yielded the first batch only. *)
Theorem RemoteIterator_observe_truncated cluster (ct : Table K V) shard
    fetch_num target w t s :
  worker_for_shard ct shard = Some target ->
  cluster !! target = Some w ->
  tables_ w !! table_id ct = Some (Some t) ->
  Table_shard t shard = Some s ->
  0 < fetch_num < 2 ^ 32 ->
  (Z.to_nat fetch_num < length (shard_data s))%nat ->
  to_u32 (current_iterator_id_ w) <> 2 ^ 32 - 1 ->
  forall fuel l cluster',
    RemoteIterator_observe fuel ct shard fetch_num cluster
    = Ok (Some l) cluster' ->
    l = take (Z.to_nat fetch_num) (shard_data s) /\ l <> shard_data s.
Proof.
  intros Ho Hw Ht Hs Hfetch Hlen Hid fuel l cluster' Hrun.
  assert (Hl : l = take (Z.to_nat fetch_num) (shard_data s)).
  { pose proof (RemoteIterator_observe_stable fuel ct shard fetch_num cluster)
      as Hfuel.
    rewrite Hrun in Hfuel.
    specialize (Hfuel ltac:(intros [? ?]; discriminate)
                  (fuel + S (Z.to_nat fetch_num))%nat ltac:(lia)).
    destruct (RemoteIterator_observe_refill cluster ct shard fetch_num
                target w t s Ho Hw Ht Hs Hfetch Hlen Hid) as [Hu|[c2 Hok]].
    - rewrite (RemoteIterator_observe_stable (S (Z.to_nat fetch_num)))
        in Hfuel; [congruence | | lia].
      rewrite Hu. intros [? ?]; discriminate.
    - rewrite (RemoteIterator_observe_stable (S (Z.to_nat fetch_num)))
        in Hfuel; [congruence | | lia].
      rewrite Hok. intros [? ?]; discriminate. }
  split; [exact Hl|].
  intros Heq. rewrite Heq in Hl. apply (f_equal length) in Hl.
  rewrite length_take in Hl. lia.
Qed.

End RemoteGeneral.

(** ** Sharder and reducers *)

(** C9.  For a positive [int] number of shards, the Modulo sharder returns
    a shard index in [[0, num_shards)], and equal inputs give equal
    results. *)
Theorem C9_modulo_shard_in_range {T : Type} (hash_value : T -> Z) (k : T)
    (num_shards : Z) :
  0 < num_shards <= INT_MAX ->
  (forall k' n',
      k' = k -> n' = num_shards ->
      shard_for_key hash_value k' n' = shard_for_key hash_value k num_shards)
  /\ exists shard,
      shard_for_key hash_value k num_shards = Some shard
      /\ 0 <= shard < num_shards.
Proof.
  intros Hn. split; [intros k' n' -> ->; reflexivity|].
  unfold shard_for_key, to_size_t, INT_MAX in *.
  rewrite (Z.mod_small num_shards) by lia.
  destruct (Z.eqb_spec num_shards 0); [lia|].
  eexists. split; [reflexivity|]. apply Z.mod_pos_bound. lia.
Qed.

Lemma C9_witness :
  exists shard,
    shard_for_key (fun z : Z => z) 10 4 = Some shard /\ 0 <= shard < 4.
Proof.
  apply (C9_modulo_shard_in_range (fun z : Z => z) 10 4).
  unfold INT_MAX. lia.
Defined.

Section Accumulate.
Context {K : Type} `{EqDecision K}.
Import Reducer ReducerAlgebra ReducerFacts.

(** C4, as amended.  Every built-in reducer other than REPLACE (add,
    multiply, maximum, minimum, and, or, xor), scalar and dense, is
    commutative and associative; REPLACE is associative only.  With such
    a reducer the owner ends in the same state and answers the same
    [get] whichever of two flushes arrives first, and with MAX the
    writes 5 and 7 to an absent key read back as 7 in both orders. *)
Theorem C4_reducers_other_than_replace_are_ac :
  (forall r,
      r <> REDUCER_REPLACE ->
      commutative (scalar_functions r) /\ associative (scalar_functions r))
  /\ (forall r n (a b c : list Z),
        r <> REDUCER_REPLACE ->
        length a = n -> length b = n -> length c = n ->
        dense_functions r n a b = dense_functions r n b a
        /\ (dense_functions r n a b ≫= fun ab => dense_functions r n ab c)
           = (dense_functions r n b c ≫= fun bc => dense_functions r n a bc))
  /\ associative (scalar_functions REDUCER_REPLACE)
  /\ (forall r (w : Worker K Z) table shard k src1 src2 v1 v2 t s,
        r <> REDUCER_REPLACE ->
        tables_ w !! table = Some (Some t) ->
        Table_shard t shard = Some s ->
        reducer t = Some (scalar_functions r) ->
        two_writers table shard k src1 src2 v1 v2 w
        = two_writers table shard k src2 src1 v2 v1 w)
  /\ (forall (w : Worker K Z) table shard k t s,
        tables_ w !! table = Some (Some t) ->
        Table_shard t shard = Some s ->
        reducer t = Some scalar_maximum ->
        find_entry k (shard_data s) = None ->
        exists resp w',
          two_writers table shard k 0 1 5 7 w = Ok resp w'
          /\ two_writers table shard k 1 0 7 5 w = Ok resp w'
          /\ td_missing_key resp = false
          /\ td_kv_data resp = [(k, 7)]).
Proof.
  split; [exact scalar_functions_ac|].
  split.
  { intros r n a b c Hr Ha Hb Hc. split.
    - now apply dense_functions_comm.
    - now apply dense_functions_assoc. }
  split; [intros a b c; reflexivity|].
  split.
  - intros r w table shard k src1 src2 v1 v2 t s Hr Ht Hs Hred.
    rewrite !(two_writers_spec w table shard k _ _ _ _ t s Ht Hs).
    destruct (scalar_functions_ac r Hr) as [Hc Ha].
    rewrite Hred, (merge_entry_swap _ k v1 v2 _ Hc Ha). reflexivity.
  - intros w table shard k t s Ht Hs Hred Hk.
    assert (Hswap :
      merge_entry (reducer t) k 5 (merge_entry (reducer t) k 7 (shard_data s))
      = merge_entry (reducer t) k 7
          (merge_entry (reducer t) k 5 (shard_data s))).
    { rewrite Hred. destruct max_ac as [Hc Ha].
      apply (merge_entry_swap scalar_maximum k 7 5 _ Hc Ha). }
    eexists _, _.
    split; [apply (two_writers_spec w table shard k 0 1 5 7 t s Ht Hs)|].
    split.
    { rewrite (two_writers_spec w table shard k 1 0 7 5 t s Ht Hs).
      simpl. now rewrite Hswap. }
    simpl. rewrite !find_entry_merge_eq, Hk, Hred. simpl. auto.
Qed.

End Accumulate.

(** ** Remote against local iteration *)

Section RemoteIteration.
Import Example.

Lemma observe_two_entries_fetch_one :
  exists cluster',
    RemoteIterator_observe 2 client_table 0 1 (peers 2)
    = Ok (Some [(0, 0)]) cluster'.
Proof. eexists. vm_compute. reflexivity. Qed.

Lemma observe_thousand_entries_fetch_128 :
  RemoteIterator_observe 129 client_table 0 128 (peers 1000) = Undefined.
Proof. vm_compute. reflexivity. Qed.

Lemma Ok_Some_not_out_of_fuel {St A} (o : outcome St (option A)) l s :
  o = Ok (Some l) s -> ~ out_of_fuel o.
Proof. intros -> [s' Hs']. discriminate. Qed.

Lemma Undefined_not_out_of_fuel {St A} (o : outcome St (option A)) :
  o = Undefined -> ~ out_of_fuel o.
Proof. intros -> [s' Hs']. discriminate. Qed.

(** The two general facts on the example cluster: three entries fit in one
    batch of three; of four entries fetched two at a time only the first
    batch is ever yielded. *)
Lemma observe_three_entries_fetch_three :
  exists cluster',
    RemoteIterator_observe 4 client_table 0 3 (peers 3)
    = Ok (Some (entries 3)) cluster'
    /\ LocalIterator_observe 4 0 0 (owner_worker 3)
       = Ok (Some (entries 3)) (owner_worker 3).
Proof.
  apply (RemoteIterator_observe_single_batch (peers 3) client_table 0 3 1
           (owner_worker 3) (table_of None (entries 3) 1)
           (shard_of (entries 3)));
    try reflexivity; simpl; lia.
Qed.

Lemma observe_four_entries_fetch_two :
  forall fuel l cluster',
    RemoteIterator_observe fuel client_table 0 2 (peers 4)
    = Ok (Some l) cluster' ->
    l = [(0, 0); (1, 10)] /\ l <> entries 4.
Proof.
  apply (RemoteIterator_observe_truncated (peers 4) client_table 0 2 1
           (owner_worker 4) (table_of None (entries 4) 1)
           (shard_of (entries 4)));
    try reflexivity; simpl; try lia.
  discriminate.
Qed.

(** C1.  Where the code departs from the equality of the remote and the
    local sequence.  Worker 1 owns a shard, worker 0 iterates over it
    remotely.  After a refill [RemoteIterator::next] keeps the old
    [index_], so the refilled buffer is not read from its start.  With
    two entries and a fetch count of 1 the client loop ends after the
    first entry, however long it is allowed to run, while the local
    traversal yields both.  With 1000 entries and a fetch count of 128
    the client reads [results[128]] of a 128-entry buffer after the first
    refill, so it never returns a sequence, while the local traversal
    yields the 1000 entries. *)
Theorem C1_remote_iterator_keeps_index_after_refill :
  (forall n,
      exists cluster',
        RemoteIterator_observe (2 + n) client_table 0 1 (peers 2)
        = Ok (Some [(0, 0)]) cluster')
  /\ (forall n,
        LocalIterator_observe (3 + n) 0 0 (owner_worker 2)
        = Ok (Some [(0, 0); (1, 10)]) (owner_worker 2))
  /\ (forall n,
        RemoteIterator_observe (129 + n) client_table 0 128 (peers 1000)
        = Undefined)
  /\ (forall fuel l cluster',
        RemoteIterator_observe fuel client_table 0 128 (peers 1000)
        <> Ok (Some l) cluster')
  /\ (forall n,
        LocalIterator_observe (1001 + n) 0 0 (owner_worker 1000)
        = Ok (Some (entries 1000)) (owner_worker 1000)
        /\ length (entries 1000) = 1000%nat).
Proof.
  assert (Hbig : forall n,
    RemoteIterator_observe (129 + n) client_table 0 128 (peers 1000)
    = Undefined).
  { intros n.
    rewrite (RemoteIterator_observe_stable 129); [| |lia].
    - exact observe_thousand_entries_fetch_128.
    - apply Undefined_not_out_of_fuel, observe_thousand_entries_fetch_128. }
  split; [|split; [|split; [|split]]].
  - intros n. destruct observe_two_entries_fetch_one as [c' Hc'].
    exists c'. rewrite (RemoteIterator_observe_stable 2); [exact Hc'| |lia].
    eapply Ok_Some_not_out_of_fuel, Hc'.
  - intros n.
    apply (LocalIterator_observe_spec (owner_worker 2) 0 0
             (table_of None (entries 2) 1) (shard_of (entries 2)));
      [reflexivity | reflexivity | simpl; lia].
  - exact Hbig.
  - intros fuel l c' Hrun.
    pose proof (Hbig fuel) as Hundef.
    rewrite (Nat.add_comm 129 fuel) in Hundef.
    rewrite (RemoteIterator_observe_stable fuel) in Hundef; [| |lia].
    + congruence.
    + eapply Ok_Some_not_out_of_fuel, Hrun.
  - intros n. split.
    + apply (LocalIterator_observe_spec (owner_worker 1000) 0 0
               (table_of None (entries 1000) 1) (shard_of (entries 1000)));
        [reflexivity | reflexivity |].
      unfold shard_of, shard_data, entries. rewrite length_fmap, length_seq.
      lia.
    + unfold entries. now rewrite length_fmap, length_seq.
Qed.

End RemoteIteration.

(** ** The claims on the example cluster *)

Section Instances.
Import Example Reducer ReducerAlgebra ReducerFacts.

Lemma C2_witness :
  exists w',
    Worker_put
      {| td_source := 1; td_table := 0; td_shard := 0; td_done := true;
         td_missing_key := false; td_kv_data := [(1, 7); (2, 3); (1, 6)] |}
      max_owner = Ok tt w'
    /\ tables_ w' !! 0
       = Some (Some (table_of (Some scalar_maximum) [(1, 7); (2, 3)] 0)).
Proof.
  destruct (C2_put_merges_every_entry max_owner
              {| td_source := 1; td_table := 0; td_shard := 0;
                 td_done := true; td_missing_key := false;
                 td_kv_data := [(1, 7); (2, 3); (1, 6)] |}
              max_table (shard_of [(1, 5)]) eq_refl eq_refl) as [Hput _].
  eexists. split; [exact Hput | reflexivity].
Defined.

Lemma C7_witness :
  (exists resp',
      Worker_get (mkGetRequest 0 0 1) TableData_new max_owner
      = Ok resp' max_owner
      /\ td_missing_key resp' = false /\ td_kv_data resp' = [(1, 5)])
  /\ (exists resp',
        Worker_get (mkGetRequest 0 0 2) TableData_new max_owner
        = Ok resp' max_owner
        /\ td_missing_key resp' = true /\ td_kv_data resp' = []).
Proof.
  split.
  - exact (C7_get_encodes_missing_key max_owner (mkGetRequest 0 0 1)
             TableData_new max_table (shard_of [(1, 5)])
             eq_refl eq_refl eq_refl).
  - exact (C7_get_encodes_missing_key max_owner (mkGetRequest 0 0 2)
             TableData_new max_table (shard_of [(1, 5)])
             eq_refl eq_refl eq_refl).
Defined.

Lemma C10_witness :
  exists resp',
    Worker_get (mkGetRequest 0 0 2) TableData_new max_owner
    = Ok resp' max_owner
    /\ td_source resp' = 0
    /\ td_table resp' = 0
    /\ td_shard resp' = -1
    /\ td_done resp' = true
    /\ td_shard resp' <> 0.
Proof.
  exact (C10_get_response_header max_owner (mkGetRequest 0 0 2)
           TableData_new max_table (shard_of [(1, 5)]) eq_refl eq_refl).
Defined.

Lemma C3_witness :
  (exists w',
      Worker_run_kernel example_format_exc example_kernels
        (kernel_req "writer") fresh_kernel_resp 3 max_peer
      = Fatal RoutingViolation w'
      /\ tables_ w' = tables_ max_peer
      /\ iterators_ w' = iterators_ max_peer)
  /\ Worker_run_kernel example_format_exc example_kernels
       (kernel_req "writer") fresh_kernel_resp 3 max_owner
     = Ok {| kresp_elapsed := 3; kresp_error := EmptyString |}
          (write_nine (set_context max_owner)).
Proof.
  split.
  - destruct (C3_run_kernel_routing_check example_format_exc
                example_kernels max_peer (kernel_req "writer")
                fresh_kernel_resp 3 max_peer_table (shard_of []) 0
                eq_refl eq_refl eq_refl) as [Hother _].
    destruct Hother as (e & w' & Hrun & He & Ht & Hi & _); [discriminate|].
    exists w'. rewrite <- He by discriminate. auto.
  - destruct (C3_run_kernel_routing_check example_format_exc
                example_kernels max_owner (kernel_req "writer")
                fresh_kernel_resp 3 max_table (shard_of [(1, 5)]) 0
                eq_refl eq_refl eq_refl) as [_ Howner].
    exact (Howner eq_refl ltac:(discriminate) _ eq_refl).
Defined.

Lemma example_format_exc_nonempty (exc : string) :
  example_format_exc exc <> EmptyString.
Proof. discriminate. Defined.

Lemma C6_witness :
  (exists resp',
      Worker_run_kernel example_format_exc example_kernels
        (kernel_req "failing") fresh_kernel_resp 3 max_owner
      = Ok resp' (write_nine (set_context max_owner))
      /\ kresp_error resp' = "PyException: boom"%string
      /\ kresp_error resp' <> EmptyString
      /\ kresp_elapsed resp' = 3)
  /\ (exists resp',
        Worker_run_kernel example_format_exc example_kernels
          (kernel_req "writer") fresh_kernel_resp 3 max_owner
        = Ok resp' (write_nine (set_context max_owner))
        /\ kresp_error resp' = EmptyString
        /\ kresp_elapsed resp' = 3).
Proof.
  split.
  - exact (C6_kernel_failure_is_reported example_format_exc
             example_kernels max_owner (kernel_req "failing")
             fresh_kernel_resp 3 max_table (shard_of [(1, 5)])
             (fun _ _ w => Raised "boom"%string (write_nine w))
             example_format_exc_nonempty eq_refl
             ltac:(discriminate) eq_refl eq_refl eq_refl eq_refl).
  - exact (C6_kernel_failure_is_reported example_format_exc
             example_kernels max_owner (kernel_req "writer")
             fresh_kernel_resp 3 max_table (shard_of [(1, 5)])
             (fun _ _ w => Returned (write_nine w))
             example_format_exc_nonempty eq_refl
             ltac:(discriminate) eq_refl eq_refl eq_refl eq_refl).
Defined.

(** A first request for two of three entries, then the continuation. *)
Lemma C5_witness :
  serves_batch (owner_worker 3) (mkIteratorReq 0 0 (-1) 2) IteratorResp_new
    (new_iterator (mkIteratorReq 0 0 (-1) 2)) (entries 3)
  /\ serves_batch
       (registered 0 {| shard_ref := (0, 0); cursor := 2 |} (owner_worker 3))
       (mkIteratorReq 0 0 0 2) IteratorResp_new
       {| shard_ref := (0, 0); cursor := 2 |} (entries 3).
Proof.
  split.
  - destruct (C5_get_iterator_batch (owner_worker 3)
                (mkIteratorReq 0 0 (-1) 2) IteratorResp_new eq_refl)
      as [Hnew _].
    exact (Hnew (table_of None (entries 3) 1) (shard_of (entries 3))
             eq_refl eq_refl eq_refl).
  - destruct (C5_get_iterator_batch
                (registered 0 {| shard_ref := (0, 0); cursor := 2 |}
                   (owner_worker 3))
                (mkIteratorReq 0 0 0 2) IteratorResp_new eq_refl)
      as [_ Hcont].
    exact (Hcont (Some (table_of None (entries 3) 1))
             {| shard_ref := (0, 0); cursor := 2 |}
             (table_of None (entries 3) 1) (shard_of (entries 3))
             ltac:(discriminate) eq_refl eq_refl eq_refl eq_refl).
Defined.

Lemma C4_witness :
  (commutative (scalar_functions REDUCER_MAXIMUM)
   /\ associative (scalar_functions REDUCER_MAXIMUM))
  /\ dense_functions REDUCER_MAXIMUM 2 [1; 9] [4; 3]
     = dense_functions REDUCER_MAXIMUM 2 [4; 3] [1; 9]
  /\ two_writers 0 0 2 0 1 5 7 max_owner = two_writers 0 0 2 1 0 7 5 max_owner
  /\ exists resp w',
      two_writers 0 0 2 0 1 5 7 max_owner = Ok resp w'
      /\ two_writers 0 0 2 1 0 7 5 max_owner = Ok resp w'
      /\ td_missing_key resp = false
      /\ td_kv_data resp = [(2, 7)].
Proof.
  destruct (C4_reducers_other_than_replace_are_ac (K := Z))
    as (Hscalar & Hdense & _ & Horder & Hmax).
  split; [apply Hscalar; discriminate|].
  split;
    [apply (Hdense REDUCER_MAXIMUM 2%nat [1; 9] [4; 3] [0; 0]);
     [discriminate | reflexivity..]|].
  split.
  - apply (Horder REDUCER_MAXIMUM max_owner 0 0 2 0 1 5 7 max_table
             (shard_of [(1, 5)])); [discriminate | reflexivity..].
  - apply (Hmax max_owner 0 0 2 max_table (shard_of [(1, 5)]));
      reflexivity.
Defined.

(** C4 as stated fails for REPLACE: it is not commutative, and with
    REPLACE as the reducer what [get] returns after the writes 5 and 7
    depends on which flush arrives last. *)
Lemma C4_replace_depends_on_order :
  ~ commutative (scalar_functions REDUCER_REPLACE)
  /\ (exists resp w',
        two_writers 0 0 2 0 1 5 7
          (worker_of 0 (table_of (Some scalar_replace) [] 0)) = Ok resp w'
        /\ td_kv_data resp = [(2, 7)])
  /\ (exists resp w',
        two_writers 0 0 2 1 0 7 5
          (worker_of 0 (table_of (Some scalar_replace) [] 0)) = Ok resp w'
        /\ td_kv_data resp = [(2, 5)]).
Proof.
  split; [|split].
  - intros Hc. specialize (Hc 5 7). discriminate.
  - eexists _, _. split; [vm_compute; reflexivity | reflexivity].
  - eexists _, _. split; [vm_compute; reflexivity | reflexivity].
Qed.

(** C8 as stated fails: an iterator opened on shard 0 of table 0 is still
    registered after [DestroyTable(0)], and after [Shutdown]. *)
Lemma C8_iterator_survives_destroy_table :
  exists resp w1 w2 w3,
    Worker_get_iterator (mkIteratorReq 0 0 (-1) 1) IteratorResp_new
      (owner_worker 3) = Ok resp w1
    /\ Worker_destroy_table 0 w1 = Ok tt w2
    /\ tables_ w2 !! 0 = None
    /\ ~ no_iterator_for 0 w2
    /\ Worker_shutdown w1 = Ok tt w3
    /\ tables_ w3 = ∅
    /\ ~ no_iterator_for 0 w3.
Proof.
  eexists _, _, _, _.
  split; [vm_compute; reflexivity|].
  split; [vm_compute; reflexivity|].
  split; [reflexivity|].
  split.
  { intros Hno.
    apply (Hno 0 {| shard_ref := (0, 0); cursor := 1 |});
      [vm_compute|]; reflexivity. }
  split; [vm_compute; reflexivity|].
  split; [reflexivity|].
  intros Hno.
  apply (Hno 0 {| shard_ref := (0, 0); cursor := 1 |});
    [vm_compute|]; reflexivity.
Qed.

End Instances.

(** * Further properties of the code

    Properties of the reducers, of the handlers of worker.cc and of the
    remote iterator beyond the claims above. *)

(** ** Reducers *)

Section ReducerProperties.
Import Reducer ReducerAlgebra ReducerFacts ReducerNotions.

Lemma BINARY_DENSE_LOOP_prefix (body : Z -> Z -> Z) (n : nat) :
  forall ip1 ip2 : list Z,
    (n <= length ip1)%nat -> (n <= length ip2)%nat ->
    BINARY_DENSE_LOOP body n ip1 ip2
    = Some (zip_with body (take n ip1) (take n ip2) ++ drop n ip1).
Proof.
  induction n as [|n IH]; intros [|a ip1] [|b ip2] H1 H2;
    simpl in *; try lia; try reflexivity.
  rewrite IH by lia. reflexivity.
Qed.

Lemma BINARY_DENSE_LOOP_short (body : Z -> Z -> Z) (n : nat) :
  forall ip1 ip2 : list Z,
    (length ip1 < n)%nat \/ (length ip2 < n)%nat ->
    BINARY_DENSE_LOOP body n ip1 ip2 = None.
Proof.
  induction n as [|n IH]; intros [|a ip1] [|b ip2] H;
    simpl in *; try lia; try reflexivity.
  rewrite IH by lia. reflexivity.
Qed.

(** X1.  A dense reducer run over [n] cells of two arrays that hold at
    least [n] cells each returns, keeps the length of [ip1], leaves the
    cells of [ip1] from position [n] on as they were and stores in each
    of the first [n] cells the body of the loop applied to the two cells
    at that position; when either array holds fewer than [n] cells the
    loop runs off its end. *)
Theorem X1_dense_loop_touches_first_n_cells (r : REDUCER) (n : nat)
    (ip1 ip2 : list Z) :
  ((n <= length ip1)%nat -> (n <= length ip2)%nat ->
   exists out,
     dense_functions r n ip1 ip2 = Some out
     /\ length out = length ip1
     /\ drop n out = drop n ip1
     /\ take n out = zip_with (dense_body r) (take n ip1) (take n ip2))
  /\ ((length ip1 < n)%nat \/ (length ip2 < n)%nat ->
      dense_functions r n ip1 ip2 = None).
Proof.
  rewrite dense_functions_body. split.
  - intros H1 H2. eexists. split; [now apply BINARY_DENSE_LOOP_prefix|].
    assert (Hz : length (zip_with (dense_body r) (take n ip1) (take n ip2))
                 = n).
    { rewrite length_zip_with, !length_take. lia. }
    split; [|split].
    + rewrite length_app, Hz, length_drop. lia.
    + rewrite drop_app_length'; [reflexivity | now rewrite Hz].
    + rewrite take_app_length'; [reflexivity | now rewrite Hz].
  - apply BINARY_DENSE_LOOP_short.
Qed.

Lemma dense_body_cellwise (r : REDUCER) (a b : Z) :
  dense_body r a b = cellwise r a b.
Proof.
  destruct r; simpl; try reflexivity.
  - unfold body_minle, scalar_minimum.
    destruct (Z.leb_spec a b), (Z.ltb_spec a b); lia.
  - unfold body_and, scalar_and, truth.
    destruct (a =? 0), (b =? 0); reflexivity.
  - unfold body_or, scalar_or, truth.
    destruct (a =? 0), (b =? 0); reflexivity.
Qed.

Lemma dense_functions_cellwise (r : REDUCER) (n : nat) (ip1 ip2 : list Z) :
  length ip1 = n -> length ip2 = n ->
  dense_functions r n ip1 ip2 = Some (zip_with (cellwise r) ip1 ip2).
Proof.
  intros H1 H2.
  rewrite dense_functions_body, BINARY_DENSE_LOOP_zip by assumption.
  f_equal. clear H1 H2. revert ip2.
  induction ip1 as [|a ip1 IH]; intros [|b ip2]; simpl; try reflexivity.
  now rewrite dense_body_cellwise, IH.
Qed.

(** X2.  On two arrays of [n] cells a dense reducer is the cell by cell
    application of one scalar operation: the scalar reducer of the same
    row of the dispatch table for every row but AND and OR, where the
    dense loop applies the logical operators and the scalar reducer the
    bitwise ones (dense AND of 2 and 1 stores 1, scalar AND stores 0);
    the dense minimum, written with [<=], agrees with the scalar one,
    written with [<]. *)
Theorem X2_dense_reducer_is_cellwise_scalar (r : REDUCER) (n : nat)
    (ip1 ip2 : list Z) :
  length ip1 = n -> length ip2 = n ->
  dense_functions r n ip1 ip2 = Some (zip_with (cellwise r) ip1 ip2)
  /\ (r <> REDUCER_AND -> r <> REDUCER_OR ->
      dense_functions r n ip1 ip2
      = Some (zip_with (scalar_functions r) ip1 ip2))
  /\ dense_functions REDUCER_AND 1 [2] [1]
     <> Some [scalar_functions REDUCER_AND 2 1].
Proof.
  intros H1 H2.
  pose proof (dense_functions_cellwise r n ip1 ip2 H1 H2) as Hc.
  split; [exact Hc|]. split; [|discriminate].
  intros Hand Hor. rewrite Hc. destruct r; try reflexivity; congruence.
Qed.

Lemma zip_with_absorb (f : Z -> Z -> Z) :
  (forall a b, f (f a b) b = f a b) ->
  forall a b : list Z,
    length a = length b -> zip_with f (zip_with f a b) b = zip_with f a b.
Proof.
  intros Hf a. induction a as [|x a IH]; intros [|y b] Hl; simpl in *;
    try reflexivity; try discriminate.
  rewrite Hf, IH by congruence. reflexivity.
Qed.

Lemma zip_with_undo (f : Z -> Z -> Z) :
  (forall a b, f (f a b) b = a) ->
  forall a b : list Z,
    length a = length b -> zip_with f (zip_with f a b) b = a.
Proof.
  intros Hf a. induction a as [|x a IH]; intros [|y b] Hl; simpl in *;
    try reflexivity; try discriminate.
  rewrite Hf, IH by congruence. reflexivity.
Qed.

Lemma scalar_absorbs (r : REDUCER) (a b : Z) :
  absorbs_repeats r = true ->
  scalar_functions r (scalar_functions r a b) b = scalar_functions r a b.
Proof.
  destruct r; simpl; try discriminate; intros _.
  - reflexivity.
  - change scalar_maximum with body_max. rewrite !body_max_eq. lia.
  - change scalar_minimum with body_min. rewrite !body_min_eq. lia.
  - unfold scalar_and. now rewrite <- Z.land_assoc, Z.land_diag.
  - unfold scalar_or. now rewrite <- Z.lor_assoc, Z.lor_diag.
Qed.

Lemma dense_body_absorbs (r : REDUCER) (a b : Z) :
  absorbs_repeats r = true ->
  dense_body r (dense_body r a b) b = dense_body r a b.
Proof.
  destruct r; simpl; try discriminate; intros _.
  - reflexivity.
  - rewrite !body_max_eq. lia.
  - rewrite !body_minle_eq. lia.
  - unfold body_and. destruct (a =? 0), (b =? 0); reflexivity.
  - unfold body_or. destruct (a =? 0), (b =? 0); reflexivity.
Qed.

Lemma lxor_undo (a b : Z) : Z.lxor (Z.lxor a b) b = a.
Proof. now rewrite Z.lxor_assoc, Z.lxor_nilpotent, Z.lxor_0_r. Qed.

(** X3.  Applying the same update twice: for REPLACE, MAXIMUM, MINIMUM,
    AND and OR the second application changes nothing, for a scalar and
    for dense arrays of [n] cells; for XOR the second application
    restores the original content. *)
Theorem X3_repeated_update (r : REDUCER) (a b : Z) (n : nat)
    (ip1 ip2 : list Z) :
  length ip1 = n -> length ip2 = n ->
  (absorbs_repeats r = true ->
   scalar_functions r (scalar_functions r a b) b = scalar_functions r a b
   /\ (dense_functions r n ip1 ip2 ≫= fun out => dense_functions r n out ip2)
      = dense_functions r n ip1 ip2)
  /\ (r = REDUCER_XOR ->
      scalar_functions r (scalar_functions r a b) b = a
      /\ (dense_functions r n ip1 ip2 ≫= fun out => dense_functions r n out ip2)
         = Some ip1).
Proof.
  intros H1 H2. split.
  - intros Hr. split; [now apply scalar_absorbs|].
    rewrite dense_functions_body.
    rewrite (BINARY_DENSE_LOOP_zip _ n ip1 ip2) by assumption. simpl.
    rewrite BINARY_DENSE_LOOP_zip;
      [| rewrite length_zip_with; lia | assumption].
    f_equal. apply zip_with_absorb; [|congruence].
    intros x y. now apply dense_body_absorbs.
  - intros ->. split; [apply lxor_undo|].
    rewrite dense_functions_body.
    rewrite (BINARY_DENSE_LOOP_zip _ n ip1 ip2) by assumption. simpl.
    rewrite BINARY_DENSE_LOOP_zip;
      [| rewrite length_zip_with; lia | assumption].
    f_equal. apply zip_with_undo; [exact lxor_undo | congruence].
Qed.

(** *** Results stay in the range of [npy_int] *)

Lemma is_npy_int_shiftr (z : Z) :
  is_npy_int z <-> Z.shiftr z 31 = 0 \/ Z.shiftr z 31 = -1.
Proof.
  unfold is_npy_int, INT_MIN, INT_MAX. rewrite Z.shiftr_div_pow2 by lia.
  Z.to_euclidean_division_equations. lia.
Qed.

Lemma is_npy_int_to_i32 (z : Z) : is_npy_int (to_i32 z).
Proof.
  unfold is_npy_int, to_i32, INT_MIN, INT_MAX.
  Z.to_euclidean_division_equations. lia.
Qed.

Lemma scalar_functions_in_range (r : REDUCER) (a b : Z) :
  is_npy_int a -> is_npy_int b -> is_npy_int (scalar_functions r a b).
Proof.
  intros Ha Hb. destruct r; simpl.
  - exact Hb.
  - apply is_npy_int_to_i32.
  - apply is_npy_int_to_i32.
  - unfold scalar_maximum. destruct (a >=? b); assumption.
  - unfold scalar_minimum. destruct (a <? b); assumption.
  - apply is_npy_int_shiftr in Ha, Hb. apply is_npy_int_shiftr.
    unfold scalar_and. rewrite Z.shiftr_land.
    destruct Ha as [-> | ->], Hb as [-> | ->]; auto.
  - apply is_npy_int_shiftr in Ha, Hb. apply is_npy_int_shiftr.
    unfold scalar_or. rewrite Z.shiftr_lor.
    destruct Ha as [-> | ->], Hb as [-> | ->]; auto.
  - apply is_npy_int_shiftr in Ha, Hb. apply is_npy_int_shiftr.
    unfold scalar_xor. rewrite Z.shiftr_lxor.
    destruct Ha as [-> | ->], Hb as [-> | ->]; auto.
Qed.

Lemma cellwise_in_range (r : REDUCER) (a b : Z) :
  is_npy_int a -> is_npy_int b -> is_npy_int (cellwise r a b).
Proof.
  intros Ha Hb.
  assert (Ht : forall x, is_npy_int (truth x)).
  { intros x. unfold truth, is_npy_int, INT_MIN, INT_MAX.
    destruct (x =? 0); lia. }
  destruct r;
    first [ exact (scalar_functions_in_range REDUCER_AND _ _ (Ht a) (Ht b))
          | exact (scalar_functions_in_range REDUCER_OR _ _ (Ht a) (Ht b))
          | exact (scalar_functions_in_range _ a b Ha Hb) ].
Qed.

(** X4.  Every scalar reducer maps two [npy_int] values to an [npy_int]
    value, and every dense reducer maps two arrays of [n] [npy_int]
    cells to an array of [npy_int] cells. *)
Theorem X4_reducers_stay_in_npy_int (r : REDUCER) (a b : Z) (n : nat)
    (ip1 ip2 : list Z) :
  is_npy_int a -> is_npy_int b ->
  Forall is_npy_int ip1 -> Forall is_npy_int ip2 ->
  length ip1 = n -> length ip2 = n ->
  is_npy_int (scalar_functions r a b)
  /\ exists out,
      dense_functions r n ip1 ip2 = Some out /\ Forall is_npy_int out.
Proof.
  intros Ha Hb H1 H2 Hl1 Hl2.
  split; [now apply scalar_functions_in_range|].
  pose proof (dense_functions_cellwise r n ip1 ip2 Hl1 Hl2) as Hc.
  eexists. split; [exact Hc|]. clear Hc Hl1 Hl2. revert ip2 H2.
  induction H1 as [|x ip1 Hx H1 IH]; intros [|y ip2] H2; simpl;
    try constructor.
  - apply cellwise_in_range; [exact Hx | now inversion H2].
  - apply IH. now inversion H2.
Qed.
End ReducerProperties.

(** ** Handlers of worker.cc *)

Section HandlerProperties.
Context {K V : Type} `{EqDecision K}.
Implicit Types (w : Worker K V) (t : Table K V) (s : Shard K V).

Ltac munfold :=
  unfold mbind, M_bind, mret, M_ret, get_state, modify, deref, CHECK,
    Log_fatal.

(** *** [Worker::get] *)

(** X10.  [Worker::get] returns, leaving the worker unchanged, exactly
    when the requested table is registered with a table and the shard
    index is one of its shards; for an unregistered table, a null table
    or a shard index out of range it dereferences a null pointer or
    indexes out of range. *)
Theorem X10_get_returns_iff_shard_exists w (req : GetRequest K)
    (resp : TableData K V) :
  match mjoin (tables_ w !! greq_table req)
        ≫= fun t => Table_shard t (greq_shard req) with
  | Some s => exists resp', Worker_get req resp w = Ok resp' w
  | None => Worker_get req resp w = Undefined
  end.
Proof.
  destruct (tables_ w !! greq_table req) as [[t|]|] eqn:Ht; simpl.
  - destruct (Table_shard t (greq_shard req)) as [s|] eqn:Hs; simpl.
    + eexists. exact (Worker_get_spec w req resp t s Ht Hs).
    + unfold Worker_get, Table_contains. munfold. unfold tables_index.
      rewrite Ht, Hs. reflexivity.
  - unfold Worker_get. munfold. unfold tables_index. now rewrite Ht.
  - unfold Worker_get. munfold. unfold tables_index. now rewrite Ht.
Qed.

(** *** [Worker::put] *)

(** X11.  The outcomes of [Worker::put]: for an unregistered table the
    check fails and the worker is unchanged; for a registered table and
    an existing shard every entry is merged and the request returns; for
    a null table or a shard index out of range an empty batch returns
    with the worker unchanged and a non-empty one dereferences a null
    pointer or indexes out of range. *)
Theorem X11_put_outcomes w (req : TableData K V) :
  Worker_put req w =
  match tables_ w !! td_table req with
  | None => Fatal CheckFailure w
  | Some p =>
      match p ≫= fun t => pair t <$> Table_shard t (td_shard req) with
      | Some (t, s) =>
          Ok tt (after_put w (td_table req) (td_shard req) t s
                   (td_kv_data req))
      | None =>
          match td_kv_data req with
          | [] => Ok tt w
          | _ :: _ => Undefined
          end
      end
  end.
Proof.
  destruct (tables_ w !! td_table req) as [[t|]|] eqn:Ht; simpl.
  - destruct (Table_shard t (td_shard req)) as [s|] eqn:Hs; simpl.
    + now apply Worker_put_spec.
    + unfold Worker_put. munfold. unfold tables_index.
      rewrite bool_decide_true by (rewrite Ht; eauto). rewrite Ht.
      destruct (td_kv_data req) as [|[k v] kv]; simpl; [reflexivity|].
      munfold. rewrite Ht. simpl. unfold Table_update. now rewrite Hs.
  - unfold Worker_put. munfold. unfold tables_index.
    rewrite bool_decide_true by (rewrite Ht; eauto). rewrite Ht.
    destruct (td_kv_data req) as [|[k v] kv]; simpl; [reflexivity|].
    munfold. now rewrite Ht.
  - unfold Worker_put. munfold. now rewrite Ht.
Qed.

Lemma put_loop_app (table shard : Z) (kv1 kv2 : list (K * V)) :
  forall w,
    put_loop table shard (kv1 ++ kv2) w
    = (put_loop table shard kv1;; put_loop table shard kv2) w.
Proof.
  induction kv1 as [|[k v] kv1 IH]; intros w; simpl.
  - reflexivity.
  - munfold. destruct (mjoin (tables_ w !! table)) as [t|]; [|reflexivity].
    destruct (Table_update t shard k v) as [t'|]; [|reflexivity].
    rewrite IH. reflexivity.
Qed.

Lemma put_loop_frame (table shard : Z) (kv : list (K * V)) :
  forall w, reaches (same_but_table table w) (put_loop table shard kv w).
Proof.
  induction kv as [|[k v] kv IH]; intros w; simpl.
  - unfold same_but_table. tauto.
  - munfold. destruct (mjoin (tables_ w !! table)) as [t|]; [|exact I].
    destruct (Table_update t shard k v) as [t'|]; [|exact I].
    set (w1 := set_tables (<[table := Some t']> (tables_ w)) w).
    specialize (IH w1).
    destruct (put_loop table shard kv w1) as [[] w2|e w2|];
      simpl in IH |- *; try exact I;
      destruct IH as (Hi & Hc & Hid & Hr & Hs & Ho & Hk);
      (repeat split; try assumption;
       [ intros j Hj; rewrite (Ho j Hj); unfold w1; simpl;
         now apply lookup_insert_ne
       | intros _; apply Hk; unfold w1; simpl;
         rewrite lookup_insert_eq; eauto ]).
Qed.

(** X13.  Whether a [put] returns or aborts, it touches the table it
    names only: the iterator registry, the iterator counter, the worker
    id, the running flag, the server and every other table are
    unchanged, and the table stays registered. *)
Theorem X13_put_changes_only_its_table w (req : TableData K V) :
  reaches (same_but_table (td_table req) w) (Worker_put req w).
Proof.
  unfold Worker_put. munfold. unfold tables_index.
  destruct (tables_ w !! td_table req) as [p|] eqn:Ht.
  - rewrite bool_decide_true by eauto. rewrite Ht. apply put_loop_frame.
  - rewrite bool_decide_false by (intros [? ?]; discriminate).
    simpl. unfold same_but_table. tauto.
Qed.

(** X12.  A [put] of the batch [kv1 ++ kv2] has the same outcome and
    leaves the same worker as a [put] of [kv1] followed by a [put] of
    [kv2] with the same table and shard. *)
Theorem X12_put_of_appended_batches w (req : TableData K V)
    (kv1 kv2 : list (K * V)) :
  Worker_put (with_batch (kv1 ++ kv2) req) w
  = (Worker_put (with_batch kv1 req);; Worker_put (with_batch kv2 req)) w.
Proof.
  unfold Worker_put. simpl. munfold. unfold tables_index.
  destruct (tables_ w !! td_table req) as [p|] eqn:Ht.
  - rewrite bool_decide_true by eauto. rewrite Ht.
    rewrite put_loop_app. unfold mbind, M_bind.
    pose proof (put_loop_frame (td_table req) (td_shard req) kv1 w) as Hf.
    destruct (put_loop (td_table req) (td_shard req) kv1 w)
      as [[] w1|e w1|]; simpl in *; try reflexivity.
    destruct Hf as (_ & _ & _ & _ & _ & _ & Hk).
    destruct Hk as [p1 Hp1]; [eauto|].
    rewrite bool_decide_true by (rewrite Hp1; eauto).
    now rewrite Hp1.
  - rewrite bool_decide_false by (intros [? ?]; discriminate). reflexivity.
Qed.

(** *** [Worker::get_iterator] *)

Lemma iterator_entries_state (it : TableIterator) w :
  (exists d, iterator_entries it w = Ok d w)
  \/ iterator_entries it w = Undefined.
Proof.
  unfold iterator_entries. munfold.
  destruct (mjoin (tables_ w !! (shard_ref it).1)) as [t|]; [|now right].
  destruct (Table_shard t (shard_ref it).2) as [s|]; [|now right].
  left. eexists. reflexivity.
Qed.

Lemma fill_loop_state (n : nat) :
  forall (i : Z) (it : TableIterator) (resp : IteratorResp K V) w,
    (exists it' resp',
        fill_loop n i it resp w = Ok (it', resp') w
        /\ iresp_id resp' = iresp_id resp)
    \/ fill_loop n i it resp w = Undefined.
Proof.
  induction n as [|n IH]; intros i it resp w; simpl.
  - left. eexists _, _. split; reflexivity.
  - unfold TableIterator_done, TableIterator_key, TableIterator_value.
    munfold.
    destruct (iterator_entries_state it w) as [[d Hd]|Hu];
      rewrite ?Hd, ?Hu; [|now right].
    destruct (bool_decide (length d ≤ cursor it)%nat); simpl; [apply IH|].
    rewrite Hd.
    destruct (d !! cursor it) as [[k v]|] eqn:Hkv; simpl; [|now right].
    rewrite Hd, Hkv; simpl.
    match goal with
    | |- context [fill_loop n ?i' ?it' ?resp' w] =>
        destruct (IH i' it' resp' w) as [(it2 & resp2 & Hf & Hid)|Hu]
    end; [left | now right].
    eexists _, _. split; [exact Hf | exact Hid].
Qed.

Lemma TableIterator_done_state (it : TableIterator) w :
  (exists b, TableIterator_done it w = Ok b w)
  \/ TableIterator_done it w = Undefined.
Proof.
  unfold TableIterator_done. munfold.
  destruct (iterator_entries_state it w) as [[d Hd]|Hu];
    rewrite ?Hd, ?Hu; [left; eexists; reflexivity | now right].
Qed.

(** X9.  However a [GetIterator] request ends (returned or aborted), it
    leaves every registered table registered as it was, the worker id,
    the running flag and the server unchanged, and changes the iterator
    registry at one id only: the id returned in the response, or the
    requested id when the request aborts. *)
Theorem X9_get_iterator_touches_one_registry_entry w (req : IteratorReq)
    (resp : IteratorResp K V) :
  match Worker_get_iterator req resp w with
  | Ok resp' w' => same_but_iterator (iresp_id resp') w w'
  | Fatal _ w' => same_but_iterator (to_u32 (ireq_id req)) w w'
  | Undefined => True
  end.
Proof.
  assert (Hfinish : forall id it0 (resp0 : IteratorResp K V) w0,
    iresp_id resp0 = id ->
    same_but_iterator id w w0 ->
    match
      ('(it, resp1) ← fill_loop (Z.to_nat (ireq_count req)) 0 it0 resp0;
       modify (fun w => set_iterators (<[id := Some it]> (iterators_ w)) w);;
       d ← TableIterator_done it;
       mret (set_resp_done d resp1)) w0
    with
    | Ok resp' w' => same_but_iterator (iresp_id resp') w w'
    | Fatal _ w' => same_but_iterator (to_u32 (ireq_id req)) w w'
    | Undefined => True
    end).
  { intros id it0 resp0 w0 Hid (Ht & Hi & Hrest).
    unfold mbind at 1, M_bind.
    destruct (fill_loop_state (Z.to_nat (ireq_count req)) 0 it0 resp0 w0)
      as [(it1 & resp1 & Hf & Hrid)|Hu]; rewrite ?Hf, ?Hu; [|exact I].
    munfold.
    match goal with
    | |- context [TableIterator_done it1 ?w1] =>
        destruct (TableIterator_done_state it1 w1) as [[b Hb]|Hu];
        rewrite ?Hb, ?Hu; [|exact I]
    end.
    simpl.
    rewrite Hrid, Hid. split; [exact Ht|]. split; [|exact Hrest].
    intros j Hj. simpl. rewrite lookup_insert_ne by congruence. now apply Hi. }
  unfold Worker_get_iterator. cbv zeta.
  unfold mbind at 1, M_bind.
  assert (Hidx : exists (p0 : option (Table K V)) w0,
    tables_index (ireq_table req) w = Ok p0 w0
    /\ (forall id, same_but_iterator id w w0)
    /\ iterators_ w0 = iterators_ w).
  { unfold tables_index.
    destruct (tables_ w !! ireq_table req) as [p|] eqn:Ht.
    - eexists _, _. split; [reflexivity|]. split; [|reflexivity].
      intros id. unfold same_but_iterator. tauto.
    - eexists _, _. split; [reflexivity|]. split; [|reflexivity].
      intros id. unfold same_but_iterator; simpl.
      repeat split; try reflexivity.
      intros k p Hk. rewrite lookup_insert_ne by congruence. exact Hk. }
  destruct Hidx as (p0 & w0 & Hidx & Hsame & Hit0). rewrite Hidx.
  unfold mbind at 1, M_bind.
  destruct (ireq_id req =? -1).
  - munfold. destruct p0 as [t|]; [|exact I].
    destruct (Table_get_iterator (ireq_table req) t (ireq_shard req))
      as [it|]; [|exact I].
    simpl.
    apply (Hfinish (to_u32 (current_iterator_id_ w0))); [reflexivity|].
    destruct (Hsame (to_u32 (current_iterator_id_ w0)))
      as (Ht & Hi & Hrest).
    split; [exact Ht|]. split; [|exact Hrest].
    intros j Hj. simpl. rewrite lookup_insert_ne by congruence.
    now apply Hi.
  - munfold. unfold iterators_index.
    destruct (iterators_ w0 !! to_u32 (ireq_id req)) as [[it|]|] eqn:Hreg;
      simpl.
    + apply (Hfinish (to_u32 (ireq_id req))); [reflexivity | apply Hsame].
    + apply Hsame.
    + destruct (Hsame (to_u32 (ireq_id req))) as (Ht & Hi & Hrest).
      split; [exact Ht|]. split; [|exact Hrest].
      intros j Hj. simpl. rewrite lookup_insert_ne by congruence.
      now apply Hi.
Qed.
(** *** A sequence of [GetIterator] requests *)

Lemma take_take_drop_min {A} (l : list A) (c n : nat) :
  take c l ++ take n (drop (c `min` length l) l) = take (c + n) l.
Proof.
  destruct (decide (c <= length l)%nat) as [Hle|Hgt].
  - rewrite Nat.min_l by lia. apply take_take_drop.
  - rewrite Nat.min_r by lia. rewrite drop_all, take_nil.
    rewrite !take_ge by lia. now rewrite app_nil_r.
Qed.

Lemma serve_continuations (table shard id : Z) (p : option (Table K V)) t s
    (ref : Z * Z) (cs : list Z) :
  id <> -1 ->
  Table_shard t ref.2 = Some s ->
  forall w (n : nat),
    tables_ w !! table = Some p ->
    tables_ w !! ref.1 = Some (Some t) ->
    iterators_ w !! to_u32 id
      = Some (Some {| shard_ref := ref; cursor := n |}) ->
    exists resps w',
      serve_requests (continuation table shard id <$> cs) w = Ok resps w'
      /\ length resps = length cs
      /\ received resps = take (requested cs) (drop n (shard_data s))
      /\ Forall (fun r => iresp_id r = to_u32 id) resps
      /\ (forall r, last resps = Some r ->
            iresp_done r
            = bool_decide (length (shard_data s) ≤ n + requested cs)%nat)
      /\ tables_ w' = tables_ w
      /\ (cs <> [] ->
          iterators_ w' !! to_u32 id
          = Some (Some {| shard_ref := ref;
                          cursor := n + (requested cs
                                         `min` (length (shard_data s) - n)) |})).
Proof.
  intros Hid Hs. induction cs as [|c cs IH]; intros w n Hp Ht Hit.
  - exists [], w. simpl. repeat split; try done.
    all: try (now rewrite take_0).
  - change (continuation table shard id <$> c :: cs)
      with (continuation table shard id c
            :: (continuation table shard id <$> cs)).
    cbn [serve_requests].
    pose proof (Worker_get_iterator_continue_spec w
                  (continuation table shard id c) IteratorResp_new p
                  {| shard_ref := ref; cursor := n |} t s Hid Hp Hit Ht Hs)
      as Hstep.
    simpl in Hstep.
    set (m := (Z.to_nat c `min` (length (shard_data s) - n))%nat) in *.
    set (w1 := registered (to_u32 id)
                 (advance m {| shard_ref := ref; cursor := n |}) w) in *.
    destruct (IH w1 (n + m)%nat) as (resps & w' & Hrun & Hlen & Hrecv & Hids
                                     & Hlast & Htab & Hreg).
    + exact Hp.
    + exact Ht.
    + unfold w1, registered. simpl. now rewrite lookup_insert_eq.
    + eexists (_ :: resps), w'. split.
      { rewrite (bind_Ok _ _ _ _ _ Hstep).
        rewrite (bind_Ok _ _ _ _ _ Hrun). reflexivity. }
      split; [simpl; now rewrite Hlen|].
      split.
      { match goal with
        | |- received (?x :: _) = _ =>
            change (received (x :: resps))
              with (iresp_results x ++ received resps)
        end.
        rewrite Hrecv. cbn [served set_resp_done filled iresp_results
                              set_resp_id IteratorResp_new cursor app].
        change (requested (c :: cs))
          with (Z.to_nat c + requested cs)%nat.
        rewrite <- (take_take_drop_min (drop n (shard_data s))).
        rewrite length_drop, drop_drop. reflexivity. }
      split.
      { constructor; [reflexivity | exact Hids]. }
      split.
      { intros r. rewrite last_cons.
        destruct (last resps) as [r'|] eqn:Hl.
        - intros [= <-]. rewrite (Hlast r' eq_refl).
          apply bool_decide_ext. simpl. unfold m. lia.
        - intros [= <-]. apply last_None in Hl. subst resps.
          destruct cs; [|discriminate Hlen].
          simpl. apply bool_decide_ext. unfold m. lia. }
      split; [exact Htab|].
      intros _. destruct cs as [|c' cs'].
      * simpl in Hrun. injection Hrun as _ <-.
        unfold w1, registered. simpl. rewrite lookup_insert_eq.
        do 2 f_equal. unfold advance, m, requested. cbn [foldr cursor shard_ref]. f_equal. lia.
      * rewrite Hreg by discriminate. do 3 f_equal.
        unfold m, requested. cbn [foldr]. lia.
Qed.


Lemma to_u32_idem (x : Z) : to_u32 (to_u32 x) = to_u32 x.
Proof. unfold to_u32. now rewrite Z.mod_mod. Qed.

(** X7.  Paging through a shard with [GetIterator]: an opening request
    ([id = -1]) for [c] entries followed by requests that carry the
    returned id and ask for the counts [cs] are all served, every
    response carries the id taken from the iterator counter, the batches
    put together are the first [c + sum cs] entries of the shard in
    order (all of them once the counts reach its size), the last
    response has [done] set exactly when the counts reach the size of
    the shard, the tables are unchanged and the registry holds the
    cursor at the number of entries delivered.  The counter value
    [2^32 - 1] is excluded: as a request id it reads [-1]. *)
Theorem X7_paged_traversal w (table shard : Z) t s (c : Z) (cs : list Z) :
  tables_ w !! table = Some (Some t) ->
  Table_shard t shard = Some s ->
  to_u32 (current_iterator_id_ w) <> 2 ^ 32 - 1 ->
  let id := to_u32 (current_iterator_id_ w) in
  exists resps w',
    serve_requests
      (opening table shard c
       :: (continuation table shard (to_i32 id) <$> cs)) w = Ok resps w'
    /\ length resps = S (length cs)
    /\ received resps = take (requested (c :: cs)) (shard_data s)
    /\ Forall (fun r => iresp_id r = id) resps
    /\ (forall r, last resps = Some r ->
          iresp_done r
          = bool_decide (length (shard_data s) ≤ requested (c :: cs))%nat)
    /\ tables_ w' = tables_ w
    /\ iterators_ w' !! id
       = Some (Some {| shard_ref := (table, shard);
                       cursor := requested (c :: cs)
                                 `min` length (shard_data s) |}).
Proof.
  intros Ht Hs Hmax id.
  pose proof (Worker_get_iterator_new_spec w (opening table shard c)
                IteratorResp_new t s eq_refl Ht Hs) as Hopen.
  cbn zeta in Hopen. fold id in Hopen.
  cbn [opening ireq_count] in Hopen.
  set (m := (Z.to_nat c `min` (length (shard_data s) - 0))%nat) in *.
  set (it0 := new_iterator (opening table shard c)) in *.
  set (w1 := registered id (advance m it0) _) in *.
  assert (Hid : to_i32 id <> -1).
  { intros H. apply to_i32_to_u32_minus_one in H. contradiction. }
  assert (Hu : to_u32 (to_i32 id) = id).
  { unfold id. now rewrite to_u32_to_i32, to_u32_idem. }
  destruct (serve_continuations table shard (to_i32 id) (Some t) t s
              (table, shard) cs Hid Hs w1 (0 + m)%nat)
    as (resps & w' & Hrun & Hlen & Hrecv & Hids & Hlast & Htab & Hreg).
  - exact Ht.
  - exact Ht.
  - rewrite Hu. unfold w1, registered. simpl. now rewrite lookup_insert_eq.
  - rewrite Hu in *. eexists (_ :: resps), w'. split.
    { cbn [serve_requests]. rewrite (bind_Ok _ _ _ _ _ Hopen).
      rewrite (bind_Ok _ _ _ _ _ Hrun). reflexivity. }
    split; [simpl; now rewrite Hlen|].
    split.
    { match goal with
      | |- received (?x :: _) = _ =>
          change (received (x :: resps))
            with (iresp_results x ++ received resps)
      end.
      rewrite Hrecv.
      cbn [served set_resp_done filled iresp_results set_resp_id
             IteratorResp_new cursor app it0 new_iterator].
      change (requested (c :: cs)) with (Z.to_nat c + requested cs)%nat.
      rewrite <- (take_take_drop_min (shard_data s)).
      unfold m. rewrite Nat.sub_0_r, drop_0. reflexivity. }
    split.
    { constructor; [reflexivity | exact Hids]. }
    split.
    { intros r. rewrite last_cons.
      change (requested (c :: cs)) with (Z.to_nat c + requested cs)%nat.
      destruct (last resps) as [r'|] eqn:Hl.
      - intros [= <-]. rewrite (Hlast r' eq_refl).
        apply bool_decide_ext. unfold m. lia.
      - intros [= <-]. apply last_None in Hl. subst resps.
        destruct cs; [|discriminate Hlen].
        cbn [served set_resp_done iresp_done].
        apply bool_decide_ext. unfold advance, it0, new_iterator, requested.
        cbn [cursor foldr]. lia. }
    split; [exact Htab|].
    change (requested (c :: cs)) with (Z.to_nat c + requested cs)%nat.
    destruct cs as [|c' cs'].
    + simpl in Hrun. injection Hrun as _ <-.
      unfold w1, registered. simpl. rewrite lookup_insert_eq.
      do 2 f_equal. unfold advance, m, requested, it0, new_iterator.
      cbn [foldr cursor shard_ref opening ireq_table ireq_shard].
      f_equal. lia.
    + rewrite Hreg by discriminate. do 3 f_equal. unfold m. lia.
Qed.

(** X8.  A [GetIterator] request whose id is not [-1] and names no
    iterator (unknown, or registered as a null pointer) fails the check
    on the iterator; [iterators_[id]] has by then registered a null
    pointer under the id, and nothing else in the registry changed. *)
Theorem X8_unknown_iterator_id_is_fatal w (req : IteratorReq)
    (resp : IteratorResp K V) :
  ireq_id req <> -1 ->
  mjoin (iterators_ w !! to_u32 (ireq_id req)) = None ->
  exists w',
    Worker_get_iterator req resp w = Fatal CheckFailure w'
    /\ iterators_ w' = <[to_u32 (ireq_id req) := None]> (iterators_ w).
Proof.
  intros Hid Hit. apply Z.eqb_neq in Hid.
  unfold Worker_get_iterator. munfold.
  unfold tables_index, iterators_index. rewrite Hid.
  destruct (tables_ w !! ireq_table req) as [p|] eqn:Hp;
    destruct (iterators_ w !! to_u32 (ireq_id req)) as [[it|]|] eqn:Hi;
    try discriminate; simpl; rewrite ?Hi; simpl;
    rewrite ?lookup_insert_eq; simpl;
    eexists; (split; [reflexivity|]); simpl;
    rewrite ?insert_insert_eq; try reflexivity;
    now rewrite insert_id.
Qed.

(** *** The row count and the last iterator id *)

Lemma served_shape (id : Z) (c : nat) (it : TableIterator)
    (d : list (K * V)) (resp : IteratorResp K V) :
  exists batch,
    iresp_results (served id c it d resp) = iresp_results resp ++ batch
    /\ (length batch <= c)%nat
    /\ iresp_row_count (served id c it d resp)
       = match length batch with
         | O => iresp_row_count resp
         | S m => to_u32 (Z.of_nat m)
         end
    /\ (iresp_done (served id c it d resp) = false -> length batch = c).
Proof.
  exists (take c (drop (cursor it) d)).
  split; [reflexivity|]. split; [rewrite length_take; lia|].
  split; [reflexivity|].
  unfold served, set_resp_done, advance. cbn [iresp_done cursor].
  intros Hd. apply bool_decide_eq_false in Hd.
  rewrite length_take, length_drop. lia.
Qed.

(** X23.  A [GetIterator] request that returns has appended to the
    results of the response object a batch of at most [req.count]
    entries; [row_count] is the loop index of the last entry pushed, one
    less than the size of the batch, and is left as it was in the
    response object when the batch is empty, so it is not the number of
    rows; and when [done] is not set the batch is full. *)
Theorem X23_row_count_is_last_index w w' (req : IteratorReq)
    (resp resp' : IteratorResp K V) :
  Worker_get_iterator req resp w = Ok resp' w' ->
  exists batch,
    iresp_results resp' = iresp_results resp ++ batch
    /\ (length batch <= Z.to_nat (ireq_count req))%nat
    /\ iresp_row_count resp'
       = match length batch with
         | O => iresp_row_count resp
         | S m => to_u32 (Z.of_nat m)
         end
    /\ (iresp_done resp' = false ->
        length batch = Z.to_nat (ireq_count req)).
Proof.
  intros Hrun.
  assert (Hreg : exists w0 (p : option (Table K V)),
             tables_ w0 !! ireq_table req = Some p
             /\ iterators_ w0 = iterators_ w
             /\ current_iterator_id_ w0 = current_iterator_id_ w
             /\ Worker_get_iterator req resp w0 = Ok resp' w').
  { destruct (tables_ w !! ireq_table req) as [p|] eqn:Hp.
    - exists w, p. auto.
    - exists (set_tables (<[ireq_table req := None]> (tables_ w)) w), None.
      split; [simpl; apply lookup_insert_eq|].
      split; [reflexivity|]. split; [reflexivity|].
      rewrite <- Hrun. unfold Worker_get_iterator. cbv zeta.
      set (w0 := set_tables (<[ireq_table req := None]> (tables_ w)) w).
      match goal with
      | |- (?m ≫= ?f) w0 = _ =>
          transitivity (f None w0);
          [ apply (bind_Ok m f w0 w0 None)
          | symmetry; apply (bind_Ok m f w w0 None) ]
      end.
      + unfold tables_index, w0. simpl. now rewrite lookup_insert_eq.
      + unfold tables_index. now rewrite Hp. }
  destruct Hreg as (w0 & p & Hp & Hits & Hctr & Hrun0). clear Hrun.
  destruct (Z.eq_dec (ireq_id req) (-1)) as [Hid|Hid].
  - destruct p as [t|].
    + destruct (Table_shard t (ireq_shard req)) as [s|] eqn:Hs.
      * rewrite (Worker_get_iterator_new_spec w0 req resp t s Hid Hp Hs)
          in Hrun0.
        injection Hrun0 as <- _. apply served_shape.
      * exfalso. revert Hrun0. unfold Worker_get_iterator. munfold.
        unfold tables_index, Table_get_iterator. rewrite Hp, Hid. simpl.
        rewrite Hs. discriminate.
    + exfalso. revert Hrun0. unfold Worker_get_iterator. munfold.
      unfold tables_index. rewrite Hp, Hid. discriminate.
  - destruct (iterators_ w0 !! to_u32 (ireq_id req)) as [[it|]|] eqn:Hit.
    + destruct (tables_ w0 !! (shard_ref it).1) as [[t|]|] eqn:Ht.
      * destruct (Table_shard t (shard_ref it).2) as [s|] eqn:Hs.
        { rewrite (Worker_get_iterator_continue_spec w0 req resp p it t s
                     Hid Hp Hit Ht Hs) in Hrun0.
          injection Hrun0 as <- _. apply served_shape. }
        exfalso. revert Hrun0. apply Z.eqb_neq in Hid.
        unfold Worker_get_iterator. munfold.
        unfold tables_index, iterators_index. rewrite Hp, Hid, Hit. simpl.
        destruct (Z.to_nat (ireq_count req)) as [|n]; simpl.
        { unfold TableIterator_done, iterator_entries. munfold. simpl.
          rewrite Ht. simpl. rewrite Hs. discriminate. }
        unfold TableIterator_done, iterator_entries. munfold.
        rewrite Ht. simpl. rewrite Hs. discriminate.
      * exfalso. revert Hrun0. apply Z.eqb_neq in Hid.
        unfold Worker_get_iterator. munfold.
        unfold tables_index, iterators_index. rewrite Hp, Hid, Hit. simpl.
        destruct (Z.to_nat (ireq_count req)) as [|n]; simpl.
        { unfold TableIterator_done, iterator_entries. munfold. simpl.
          rewrite Ht. discriminate. }
        unfold TableIterator_done, iterator_entries. munfold.
        rewrite Ht. discriminate.
      * exfalso. revert Hrun0. apply Z.eqb_neq in Hid.
        unfold Worker_get_iterator. munfold.
        unfold tables_index, iterators_index. rewrite Hp, Hid, Hit. simpl.
        destruct (Z.to_nat (ireq_count req)) as [|n]; simpl.
        { unfold TableIterator_done, iterator_entries. munfold. simpl.
          rewrite Ht. discriminate. }
        unfold TableIterator_done, iterator_entries. munfold.
        rewrite Ht. discriminate.
    + exfalso. revert Hrun0. apply Z.eqb_neq in Hid.
      unfold Worker_get_iterator. munfold.
      unfold tables_index, iterators_index. rewrite Hp, Hid, Hit. simpl.
      discriminate.
    + exfalso. revert Hrun0. apply Z.eqb_neq in Hid.
      unfold Worker_get_iterator. munfold.
      unfold tables_index, iterators_index. rewrite Hp, Hid, Hit. simpl.
      discriminate.
Qed.

Lemma serve_requests_cons (req : IteratorReq) (rest : list IteratorReq)
    (r : IteratorResp K V) (rs : list (IteratorResp K V)) w w1 w2 :
  Worker_get_iterator req IteratorResp_new w = Ok r w1 ->
  serve_requests rest w1 = Ok rs w2 ->
  serve_requests (req :: rest) w = Ok (r :: rs) w2.
Proof.
  intros Hreq Hrest. cbn [serve_requests].
  rewrite (bind_Ok _ _ _ _ _ Hreq). rewrite (bind_Ok _ _ _ _ _ Hrest).
  reflexivity.
Qed.

(** X24.  When the iterator counter stands at [2^32 - 1], the opening
    request returns that id; in the [int] field of a request it reads
    [-1], so the request meant to continue the cursor opens a new one:
    its response carries the id [0] and delivers the shard from its
    first entry again. *)
Theorem X24_last_counter_value_reopens w (table shard : Z) t s (c1 c2 : Z) :
  tables_ w !! table = Some (Some t) ->
  Table_shard t shard = Some s ->
  to_u32 (current_iterator_id_ w) = 2 ^ 32 - 1 ->
  exists r1 r2 w',
    serve_requests
      [opening table shard c1;
       continuation table shard (to_i32 (2 ^ 32 - 1)) c2] w
    = Ok [r1; r2] w'
    /\ iresp_id r1 = 2 ^ 32 - 1
    /\ iresp_id r2 = 0
    /\ iresp_results r1 = take (Z.to_nat c1) (shard_data s)
    /\ iresp_results r2 = take (Z.to_nat c2) (shard_data s).
Proof.
  intros Ht Hs Hmax.
  pose proof (Worker_get_iterator_new_spec w (opening table shard c1)
                IteratorResp_new t s eq_refl Ht Hs) as Hopen.
  cbn zeta in Hopen.
  match type of Hopen with _ = Ok ?r ?x => set (r1 := r) in *;
    set (w1 := x) in * end.
  assert (Hctr : to_u32 (current_iterator_id_ w1) = 0).
  { unfold w1. simpl. unfold to_u32 in *.
    rewrite Z.mod_mod by lia. revert Hmax.
    generalize (current_iterator_id_ w). intros z.
    Z.to_euclidean_division_equations. lia. }
  pose proof (Worker_get_iterator_new_spec w1
                (continuation table shard (to_i32 (2 ^ 32 - 1)) c2)
                IteratorResp_new t s eq_refl Ht Hs) as Hagain.
  cbn zeta in Hagain.
  match type of Hagain with _ = Ok ?r ?x => set (r2 := r) in *;
    set (w2 := x) in * end.
  exists r1, r2, w2. split.
  { apply (serve_requests_cons _ _ _ _ _ w1 _ Hopen).
    apply (serve_requests_cons _ _ _ _ _ w2 _ Hagain). reflexivity. }
  split; [exact Hmax|]. split; [exact Hctr|].
  split; unfold r1, r2; cbn; now rewrite drop_0.
Qed.

(** *** [Worker::assign_shards] *)

Lemma Worker_assign_shards_app (l1 l2 : list ShardAssignment) :
  forall w, Worker_assign_shards (l1 ++ l2) w
            = (Worker_assign_shards l1;; Worker_assign_shards l2) w.
Proof.
  induction l1 as [|a l1 IH]; intros w; [reflexivity|].
  simpl. munfold. unfold tables_index.
  destruct (bool_decide (is_Some (tables_ w !! sa_table a))); simpl;
    [|reflexivity].
  destruct (tables_ w !! sa_table a) as [[t|]|]; simpl; try reflexivity.
  destruct (Table_set_owner t (sa_shard a) (sa_worker a)); simpl;
    [|reflexivity].
  rewrite IH. reflexivity.
Qed.

Lemma Worker_assign_shards_cons w (a : ShardAssignment)
    (rest : list ShardAssignment) t (i : ShardInfo) :
  tables_ w !! sa_table a = Some (Some t) ->
  at_index (shard_infos t) (sa_shard a) = Some i ->
  exists t',
    Table_set_owner t (sa_shard a) (sa_worker a) = Some t'
    /\ reassigned [a] (sa_table a) t t'
    /\ Worker_assign_shards (a :: rest) w
       = Worker_assign_shards rest
           (set_tables (<[sa_table a := Some t']> (tables_ w)) w).
Proof.
  intros Ht Hi. unfold Table_set_owner. rewrite Hi. simpl.
  eexists. split; [reflexivity|]. split.
  - repeat split; try reflexivity. intros j.
    unfold worker_for_shard, assigned, at_index in *. simpl.
    destruct (decide (0 <= j)) as [Hj|Hj]; [|reflexivity].
    destruct (decide (0 <= sa_shard a)) as [Ha|Ha]; [|discriminate].
    destruct (decide (sa_shard a = j)) as [<-|Hne].
    + rewrite list_lookup_insert_eq by (now apply lookup_lt_Some in Hi).
      rewrite Hi. simpl. now rewrite bool_decide_true.
    + rewrite list_lookup_insert_ne by lia.
      rewrite bool_decide_false by tauto.
      now destruct (shard_infos t !! Z.to_nat j).
  - simpl. munfold. unfold tables_index, Table_set_owner.
    rewrite bool_decide_true by (rewrite Ht; eauto).
    rewrite Ht. simpl. rewrite Hi. reflexivity.
Qed.

Lemma reassigned_nil id t : reassigned [] id t t.
Proof.
  repeat split. intros i. unfold assigned. simpl.
  now destruct (worker_for_shard t i).
Qed.

Lemma reassigned_other a id t : sa_table a <> id -> reassigned [a] id t t.
Proof.
  intros Hne. repeat split. intros i. unfold assigned. simpl.
  rewrite bool_decide_false by tauto.
  now destruct (worker_for_shard t i).
Qed.

Lemma reassigned_cons a rest id t t1 t' :
  reassigned [a] id t t1 -> reassigned rest id t1 t' ->
  reassigned (a :: rest) id t t'.
Proof.
  intros (H1 & H2 & H3 & H4 & H5) (G1 & G2 & G3 & G4 & G5).
  repeat split; try congruence.
  intros i. rewrite G5, H5.
  destruct (worker_for_shard t i); reflexivity.
Qed.

Lemma reassigned_in_range assign id t t' i :
  reassigned assign id t t' ->
  is_Some (at_index (shard_infos t) i) ->
  is_Some (at_index (shard_infos t') i).
Proof.
  intros (_ & _ & _ & _ & Hw) [x Hx]. specialize (Hw i).
  unfold worker_for_shard in Hw. rewrite Hx in Hw. simpl in Hw.
  destruct (at_index (shard_infos t') i); [eauto|discriminate].
Qed.

(** X18.  [assign_shards] with assignments that all name registered
    tables and shards of theirs returns; the iterator registry and the
    worker id are unchanged; every registered table keeps its id, its
    shards and its plug-in slots, and the owner of each of its shards is
    the worker of the last assignment naming that shard, or the previous
    owner when no assignment names it; null and unregistered entries of
    the table registry stay as they were. *)
Theorem X18_assign_shards_last_assignment_wins
    (assign : list ShardAssignment) :
  forall w,
    Forall (assignable w) assign ->
    exists w',
      Worker_assign_shards assign w = Ok tt w'
      /\ iterators_ w' = iterators_ w
      /\ id_ w' = id_ w
      /\ forall id,
           match tables_ w !! id with
           | Some (Some t) =>
               exists t', tables_ w' !! id = Some (Some t')
                          /\ reassigned assign id t t'
           | p => tables_ w' !! id = p
           end.
Proof.
  induction assign as [|a rest IH]; intros w Hall.
  - exists w. repeat split; try reflexivity. intros id.
    destruct (tables_ w !! id) as [[t|]|] eqn:Ht; try reflexivity.
    exists t. split; [reflexivity | apply reassigned_nil].
  - apply Forall_cons in Hall as [(t & Ht & [i Hi]) Hrest].
    destruct (Worker_assign_shards_cons w a rest t i Ht Hi)
      as (t1 & Hset & Hre & Hstep).
    set (w1 := set_tables (<[sa_table a := Some t1]> (tables_ w)) w) in *.
    assert (Hlook : forall id,
               match tables_ w !! id with
               | Some (Some t) =>
                   exists t', tables_ w1 !! id = Some (Some t')
                              /\ reassigned [a] id t t'
               | p => tables_ w1 !! id = p
               end).
    { intros id. unfold w1. simpl.
      destruct (decide (sa_table a = id)) as [<-|Hne].
      - rewrite Ht, lookup_insert_eq. eauto.
      - rewrite lookup_insert_ne by exact Hne.
        destruct (tables_ w !! id) as [[t0|]|] eqn:Ht0; try reflexivity.
        exists t0. split; [reflexivity | now apply reassigned_other]. }
    destruct (IH w1) as (w' & Hrun & Hit & Hid & Htabs).
    { eapply Forall_impl; [exact Hrest|].
      intros b (tb & Htb & Hb). unfold assignable.
      specialize (Hlook (sa_table b)). rewrite Htb in Hlook.
      destruct Hlook as (tb' & Htb' & Hre').
      exists tb'. split; [exact Htb'|].
      eapply reassigned_in_range; eassumption. }
    exists w'. split; [now rewrite Hstep|].
    split; [now rewrite Hit|]. split; [now rewrite Hid|].
    intros id. specialize (Hlook id). specialize (Htabs id).
    destruct (tables_ w !! id) as [[t0|]|] eqn:Ht0.
    + destruct Hlook as (t0' & Ht0' & Hre0). rewrite Ht0' in Htabs.
      destruct Htabs as (t0'' & Ht0'' & Hre1).
      exists t0''. split; [exact Ht0''|].
      eapply reassigned_cons; eassumption.
    + now rewrite Hlook in Htabs.
    + now rewrite Hlook in Htabs.
Qed.

(** X20.  [assign_shards] is not atomic: when an assignment names an
    unregistered table, the check fails in the state that the
    assignments before it produced, so their owners stay changed. *)
Theorem X20_assign_shards_is_not_atomic w w'
    (done : list ShardAssignment) (a : ShardAssignment)
    (rest : list ShardAssignment) :
  Worker_assign_shards done w = Ok tt w' ->
  tables_ w' !! sa_table a = None ->
  Worker_assign_shards (done ++ a :: rest) w = Fatal CheckFailure w'.
Proof.
  intros Hdone Ha. rewrite Worker_assign_shards_app.
  rewrite (bind_Ok _ _ _ _ _ Hdone).
  simpl. munfold. rewrite Ha. reflexivity.
Qed.

(** *** [Worker::destroy_table] *)

(** X14.  [destroy_table] always returns and erases the id from the
    table registry, leaving the other tables; afterwards a [put] to the
    id fails the check, and a [get], an opening [GetIterator] request and
    a request continuing an iterator that was opened on the table all
    use a pointer to a table that is gone. *)
Theorem X14_use_after_destroy_table w (id : Z) :
  let w' := set_tables (delete id (tables_ w)) w in
  Worker_destroy_table id w = Ok tt w'
  /\ (forall k, k <> id -> tables_ w' !! k = tables_ w !! k)
  /\ (forall req : TableData K V,
        td_table req = id -> Worker_put req w' = Fatal CheckFailure w')
  /\ (forall (req : GetRequest K) resp,
        greq_table req = id -> Worker_get req resp w' = Undefined)
  /\ (forall (req : IteratorReq) resp,
        ireq_table req = id -> ireq_id req = -1 ->
        Worker_get_iterator req resp w' = Undefined)
  /\ (forall (req : IteratorReq) resp it,
        ireq_id req <> -1 ->
        iterators_ w !! to_u32 (ireq_id req) = Some (Some it) ->
        (shard_ref it).1 = id ->
        Worker_get_iterator req resp w' = Undefined).
Proof.
  intros w'. split; [apply Worker_destroy_table_spec|].
  assert (Hgone : tables_ w' !! id = None) by apply lookup_delete_eq.
  split.
  { intros k Hk. unfold w'. simpl. now rewrite lookup_delete_ne. }
  split.
  { intros req <-. unfold Worker_put. munfold. now rewrite Hgone. }
  split.
  { intros req resp <-. unfold Worker_get. munfold. unfold tables_index.
    now rewrite Hgone. }
  split.
  { intros req resp <- Hid. unfold Worker_get_iterator. munfold.
    unfold tables_index. now rewrite Hgone, Hid. }
  intros req resp it Hid Hit Href.
  apply Z.eqb_neq in Hid.
  unfold Worker_get_iterator. munfold. unfold tables_index, iterators_index.
  assert (Hent : forall w1 : Worker K V,
             mjoin (tables_ w1 !! id) = None ->
             forall n i it' r,
               shard_ref it' = shard_ref it ->
               match fill_loop n i it' r w1 with
               | Ok _ _ => n = O
               | Fatal _ _ => False
               | Undefined => True
               end).
  { intros w1 Hw1 n. destruct n as [|n]; intros i it' r Hit'; simpl.
    - reflexivity.
    - unfold TableIterator_done, iterator_entries. munfold.
      rewrite Hit', Href, Hw1. exact I. }
  destruct (tables_ w' !! ireq_table req) as [p|] eqn:Hp; rewrite Hid.
  - change (iterators_ w') with (iterators_ w). rewrite Hit. simpl.
    specialize (Hent w' ltac:(now rewrite Hgone)
                  (Z.to_nat (ireq_count req)) 0 it
                  (set_resp_id (to_u32 (ireq_id req)) resp) eq_refl).
    destruct (fill_loop _ _ _ _ w') as [[it1 r1] w2|e w2|] eqn:Hf;
      [|contradiction|reflexivity].
    rewrite Hent in Hf. simpl in Hf. injection Hf as <- <- <-.
    simpl. unfold TableIterator_done, iterator_entries. munfold.
    simpl. now rewrite Href, lookup_delete_eq.
  - simpl. rewrite Hit. simpl.
    set (w1 := set_tables _ w').
    assert (Hw1 : mjoin (tables_ w1 !! id) = None).
    { unfold w1. simpl.
      destruct (decide (ireq_table req = id)) as [->|Hne].
      - now rewrite lookup_insert_eq.
      - rewrite lookup_insert_ne by exact Hne. now rewrite lookup_delete_eq. }
    specialize (Hent w1 Hw1 (Z.to_nat (ireq_count req)) 0 it
                  (set_resp_id (to_u32 (ireq_id req)) resp) eq_refl).
    destruct (fill_loop _ _ _ _ w1) as [[it1 r1] w2|e w2|] eqn:Hf;
      [|contradiction|reflexivity].
    rewrite Hent in Hf. simpl in Hf. injection Hf as <- <- <-.
    simpl. unfold TableIterator_done, iterator_entries. munfold.
    simpl. rewrite Href. unfold w1 in Hw1. simpl in Hw1. now rewrite Hw1.
Qed.

(** *** [Worker::shutdown] *)

(** X21.  [shutdown] empties the table registry, drops the server,
    clears [running_] and signals the condition variable; afterwards
    every [put] fails the check and every [get] dereferences a null
    pointer; a second [shutdown] changes nothing more, and a
    [destroy_table] before or after it makes no difference. *)
Theorem X21_shutdown_clears_every_table w :
  Worker_shutdown w = Ok tt (stopped w)
  /\ (forall req : TableData K V,
        Worker_put req (stopped w) = Fatal CheckFailure (stopped w))
  /\ (forall (req : GetRequest K) resp,
        Worker_get req resp (stopped w) = Undefined)
  /\ (Worker_shutdown;; Worker_shutdown) w = Worker_shutdown w
  /\ (forall id, (Worker_destroy_table id;; Worker_shutdown) w
                 = Worker_shutdown w)
  /\ (forall id, (Worker_shutdown;; Worker_destroy_table id) w
                 = Worker_shutdown w).
Proof.
  split; [reflexivity|]. split.
  { intros req. unfold Worker_put. munfold. simpl.
    now rewrite lookup_empty. }
  split.
  { intros req resp. unfold Worker_get. munfold. unfold tables_index.
    simpl. now rewrite lookup_empty. }
  split; [reflexivity|]. split.
  { intros id. rewrite (bind_Ok _ _ _ _ _ (Worker_destroy_table_spec w id)).
    reflexivity. }
  intros id. rewrite (bind_Ok _ _ _ _ _ (Worker_shutdown_spec w)).
  rewrite Worker_destroy_table_spec. simpl.
  unfold set_tables. simpl. now rewrite delete_empty.
Qed.

(** *** [Worker::initialize] *)

Lemma connect_peers_spec (id : Z) (workers : list (Z * HostPort)) :
  forall w (peers : Peers),
    Forall (connectable id (length peers)) workers ->
    exists peers' : Peers,
      connect_peers id workers (w, peers) = Ok tt (w, peers')
      /\ length peers' = length peers
      /\ (forall j : nat,
            Z.of_nat j = id \/ Z.of_nat j ∉ workers.*1 ->
            peers' !! j = peers !! j)
      /\ (NoDup workers.*1 ->
          forall i addr, (i, addr) ∈ workers -> i <> id ->
                         peers' !! Z.to_nat i = Some (Some addr)).
Proof.
  induction workers as [|[i addr] rest IH]; intros w peers Hall.
  - exists peers. repeat split; try reflexivity.
    intros _ i addr Hin. now apply elem_of_nil in Hin.
  - apply Forall_cons in Hall as [Hi Hrest].
    unfold connectable in Hi. simpl in Hi.
    cbn [connect_peers].
    destruct (decide (i = id)) as [->|Hne].
    + rewrite Z.eqb_refl. simpl.
      destruct (IH w peers Hrest) as (peers' & Hrun & Hlen & Hkeep & Hset).
      exists peers'. split.
      { munfold. exact Hrun. }
      split; [exact Hlen|]. split.
      { intros j Hj. apply Hkeep. destruct Hj as [Hj|Hj]; [now left|].
        right. intros Hin. apply Hj. simpl. now right. }
      intros Hnd i addr' Hin Hi'. apply NoDup_cons in Hnd as [_ Hnd].
      apply elem_of_cons in Hin as [[= -> ->]|Hin]; [contradiction|].
      now apply (Hset Hnd).
    + apply Z.eqb_neq in Hne as Hb. rewrite Hb. simpl.
      destruct Hi as [Hi|Hi]; [contradiction|].
      set (peers1 := <[Z.to_nat i := Some addr]> peers).
      assert (Hl1 : length peers1 = length peers) by apply length_insert.
      assert (Hrest1 : Forall (connectable id (length peers1)) rest)
        by now rewrite Hl1.
      destruct (IH w peers1 Hrest1)
        as (peers' & Hrun & Hlen & Hkeep & Hset).
      exists peers'. split.
      { munfold. unfold at_index. simpl.
        rewrite decide_True by lia.
        destruct (lookup_lt_is_Some_2 peers (Z.to_nat i) ltac:(lia))
          as [x Hx].
        rewrite Hx. exact Hrun. }
      split; [now rewrite Hlen|].
      split.
      { intros j Hj. rewrite Hkeep.
        - unfold peers1. apply list_lookup_insert_ne.
          destruct Hj as [Hj|Hj]; [lia|].
          intros <-. apply Hj. simpl. rewrite Z2Nat.id by lia.
          apply elem_of_cons; now left.
        - destruct Hj as [Hj|Hj]; [now left|].
          right. intros Hin. apply Hj. simpl. now right. }
      intros Hnd i' addr' Hin Hi'. apply NoDup_cons in Hnd as [Hnotin Hnd].
      apply elem_of_cons in Hin as [[= -> ->]|Hin].
      * rewrite Hkeep by (right; now rewrite Z2Nat.id by lia).
        unfold peers1. apply list_lookup_insert_eq. lia.
      * now apply (Hset Hnd).
Qed.

(** X16.  [initialize] with an id other than [-1], when every other
    worker's id is an index of the resized proxy vector: it returns,
    sets [id_], leaves the other members of the worker unchanged, the
    proxy vector has one slot per entry of [req.workers], every other
    worker's slot holds a proxy connected to its address (ids being
    distinct), and the worker's own slot and the slots of absent ids
    hold what the resize left there. *)
Theorem X16_initialize_connects_every_other_worker (req : WorkerInitReq)
    w (peers0 : Peers) :
  let n := length (wi_workers req) in
  wi_id req <> -1 ->
  Forall (connectable (wi_id req) n) (wi_workers req) ->
  exists peers : Peers,
    Worker_initialize req (w, peers0) = Ok tt (set_id (wi_id req) w, peers)
    /\ length peers = n
    /\ (forall j : nat,
          Z.of_nat j = wi_id req \/ Z.of_nat j ∉ (wi_workers req).*1 ->
          peers !! j = resize n None peers0 !! j)
    /\ (NoDup (wi_workers req).*1 ->
        forall i addr, (i, addr) ∈ wi_workers req -> i <> wi_id req ->
                       peers !! Z.to_nat i = Some (Some addr)).
Proof.
  intros n Hid Hall.
  assert (Hall' : Forall (connectable (wi_id req)
                            (length (resize n None peers0)))
                    (wi_workers req)) by now rewrite length_resize.
  destruct (connect_peers_spec (wi_id req) (wi_workers req)
              (set_id (wi_id req) w) (resize n None peers0) Hall')
    as (peers & Hrun & Hlen & Hkeep & Hset).
  exists peers. split.
  { unfold Worker_initialize. munfold. apply Z.eqb_neq in Hid.
    rewrite Hid. simpl. exact Hrun. }
  split; [now rewrite Hlen, length_resize|].
  split; assumption.
Qed.

Lemma connect_peers_out_of_range (id : Z) (workers : list (Z * HostPort)) :
  forall w (peers : Peers),
    Exists (fun p => ~ connectable id (length peers) p) workers ->
    connect_peers id workers (w, peers) = Undefined.
Proof.
  induction workers as [|[i addr] rest IH]; intros w peers Hex.
  - now apply Exists_nil in Hex.
  - cbn [connect_peers]. munfold.
    destruct (i =? id) eqn:Hb; simpl.
    + apply Z.eqb_eq in Hb. subst i.
      apply Exists_cons in Hex as [Hbad|Hex].
      * exfalso. apply Hbad. now left.
      * now apply IH.
    + apply Z.eqb_neq in Hb. unfold at_index. simpl.
      destruct (decide (0 <= i)) as [Hi|Hi]; [|reflexivity].
      unfold Peers in *.
      destruct (peers !! Z.to_nat i) as [x|] eqn:Hx; [|reflexivity].
      apply Exists_cons in Hex as [Hbad|Hex].
      * exfalso. apply Hbad. right. simpl.
        apply lookup_lt_Some in Hx. lia.
      * apply IH.
        assert (Hl1 : length (<[Z.to_nat i := Some addr]> peers)
                      = length peers) by apply length_insert.
        simpl. unfold Peers in *. now rewrite Hl1.
Qed.

(** X22.  [initialize] with an id other than [-1] and a worker whose id
    is neither the worker's own nor an index of the proxy vector (ids
    that are negative or not below the number of workers) writes outside
    the vector. *)
Theorem X22_initialize_with_peer_id_out_of_range (req : WorkerInitReq)
    w (peers0 : Peers) :
  wi_id req <> -1 ->
  Exists (fun p => ~ connectable (wi_id req) (length (wi_workers req)) p)
    (wi_workers req) ->
  Worker_initialize req (w, peers0) = Undefined.
Proof.
  intros Hid Hex. unfold Worker_initialize. munfold.
  apply Z.eqb_neq in Hid. rewrite Hid. simpl.
  apply connect_peers_out_of_range. now rewrite length_resize.
Qed.

(** *** [Worker::create_table] *)

Section CreateTable.
Context {Opts : Type}.
Variable Table_init : Z -> Z -> Table K V.
Variable Accumulator_get_by_id : string -> Opts -> Accumulator (V := V).

Local Abbreviation create_table :=
  (Worker_create_table Table_init Accumulator_get_by_id).

(** X15.  [create_table] on an initialised worker returns and registers
    under [req.id], replacing what was registered there, the table that
    [init] built with the combiner and the reducer looked up in the
    accumulator registry; the iterator registry and the worker id are
    unchanged; when the id was unregistered, [destroy_table] of the id
    afterwards restores the table registry (only the table context stays
    set). *)
Theorem X15_create_table_registers_the_table w (req : CreateTableReq Opts) :
  id_ w <> -1 ->
  exists t w',
    create_table req w = Ok tt w'
    /\ tables_ w' = <[creq_id req := Some t]> (tables_ w)
    /\ shards t = shards (Table_init (creq_id req) (creq_num_shards req))
    /\ shard_infos t
       = shard_infos (Table_init (creq_id req) (creq_num_shards req))
    /\ combiner t
       = Accumulator_get_by_id (type_id (creq_combiner req))
           (opts (creq_combiner req))
    /\ reducer t
       = Accumulator_get_by_id (type_id (creq_reducer req))
           (opts (creq_reducer req))
    /\ iterators_ w' = iterators_ w
    /\ id_ w' = id_ w
    /\ (tables_ w !! creq_id req = None ->
        (create_table req;; Worker_destroy_table (creq_id req)) w
        = Ok tt (set_context w)).
Proof.
  intros Hid. apply Z.eqb_neq in Hid.
  eexists _, _. split.
  { unfold Worker_create_table. munfold. rewrite Hid. simpl. reflexivity. }
  repeat split.
  intros Hnone. unfold Worker_create_table. munfold. rewrite Hid. simpl.
  rewrite Worker_destroy_table_spec. simpl. unfold set_tables. simpl.
  now rewrite delete_insert_id.
Qed.

(** X17.  A worker whose [id_] is still [-1] refuses [create_table]: the
    check fails before anything is changed; and [initialize] with the id
    [-1] fails its check and leaves the worker and its proxies as they
    were, so the worker stays uninitialised. *)
Theorem X17_uninitialised_worker_refuses (req : CreateTableReq Opts) w :
  id_ w = -1 ->
  create_table req w = Fatal CheckFailure w
  /\ (forall (ireq : WorkerInitReq) (peers : Peers),
        wi_id ireq = -1 ->
        Worker_initialize ireq (w, peers) = Fatal CheckFailure (w, peers)).
Proof.
  intros Hid. split.
  - unfold Worker_create_table. munfold. now rewrite Hid.
  - intros ireq peers Hi. unfold Worker_initialize. munfold.
    now rewrite Hi.
Qed.

End CreateTable.

(** *** [Worker::assign_shards] and [Worker::run_kernel] *)

Section Routing.
Context {Time PyException : Type}.
Variable format_exc : PyException -> string.
Variable Kernel_get_by_id : string -> option (Kernel K V PyException).

(** X19.  The routing check of [run_kernel] follows [assign_shards]:
    after the shard of a kernel request is assigned to worker [o], an
    initialised worker aborts the request with a routing violation when
    [o] is another worker, and runs the kernel, reporting an exception as
    an error text, when [o] is its own id. *)
Theorem X19_assignment_decides_routing w (kreq : RunKernelReq)
    (resp : RunKernelResp Time) (elapsed : Time) t s (o : Z) :
  id_ w <> -1 ->
  tables_ w !! kreq_table kreq = Some (Some t) ->
  Table_shard t (kreq_shard kreq) = Some s ->
  is_Some (at_index (shard_infos t) (kreq_shard kreq)) ->
  exists w1,
    Worker_assign_shards
      [mkShardAssignment (kreq_table kreq) (kreq_shard kreq) o] w = Ok tt w1
    /\ (o <> id_ w ->
        Worker_run_kernel format_exc Kernel_get_by_id kreq resp elapsed w1
        = Fatal RoutingViolation (set_context w1))
    /\ (o = id_ w ->
        forall k, Kernel_get_by_id (kreq_kernel kreq) = Some k ->
          Worker_run_kernel format_exc Kernel_get_by_id kreq resp elapsed w1
          = match k (kreq_kernel_args kreq) (kreq_task_args kreq)
                    (set_context w1) with
            | Returned w' => Ok (set_elapsed elapsed resp) w'
            | Raised exc w' =>
                Ok (set_elapsed elapsed (set_error (format_exc exc) resp)) w'
            end).
Proof.
  intros Hid Ht Hs [i Hi].
  set (a := mkShardAssignment (kreq_table kreq) (kreq_shard kreq) o).
  destruct (Worker_assign_shards_cons w a [] t i Ht Hi)
    as (t1 & Hset & (_ & Hsh & _ & _ & Hown) & Hstep).
  set (w1 := set_tables (<[sa_table a := Some t1]> (tables_ w)) w) in *.
  exists w1. split; [exact Hstep|].
  assert (Ht1 : tables_ w1 !! kreq_table kreq = Some (Some t1)).
  { unfold w1. simpl. apply lookup_insert_eq. }
  assert (Hs1 : Table_shard t1 (kreq_shard kreq) = Some s).
  { unfold Table_shard in *. now rewrite Hsh. }
  assert (Ho : worker_for_shard t1 (kreq_shard kreq) = Some o).
  { rewrite (Hown (kreq_shard kreq)). unfold worker_for_shard.
    simpl in Hi. rewrite Hi. simpl. unfold assigned. simpl.
    now rewrite bool_decide_true. }
  pose proof (Worker_run_kernel_spec format_exc Kernel_get_by_id w1 kreq
                resp elapsed t1 s o Hid Ht1 Hs1 Ho) as Hrun.
  split.
  - intros Hne. apply Z.eqb_neq in Hne.
    change (id_ w1) with (id_ w) in Hrun. now rewrite Hne in Hrun.
  - intros -> k Hk. change (id_ w1) with (id_ w) in Hrun.
    now rewrite Z.eqb_refl, Hk in Hrun.
Qed.

End Routing.

End HandlerProperties.

(** ** The remote iterator and the sharder *)

Section RemoteProperties.
Context {K V : Type} `{EqDecision K}.

(** X5.  A remote traversal yields the whole shard exactly when the shard
    fits in one batch: with at most [fetch_num] entries the client loop
    yields the entries of the shard in order, as the local traversal
    does; with more than [fetch_num] entries it never does, and whenever
    the loop ends it has yielded the first batch only, because [next]
    refills the buffer without resetting [index_]. *)
Theorem X5_remote_traversal_is_whole_iff_one_batch
    (cluster : gmap Z (Worker K V)) (ct : Table K V) shard fetch_num
    target (w : Worker K V) (t : Table K V) (s : Shard K V) :
  worker_for_shard ct shard = Some target ->
  cluster !! target = Some w ->
  tables_ w !! table_id ct = Some (Some t) ->
  Table_shard t shard = Some s ->
  0 < fetch_num < 2 ^ 32 ->
  to_u32 (current_iterator_id_ w) <> 2 ^ 32 - 1 ->
  ((length (shard_data s) <= Z.to_nat fetch_num)%nat ->
   forall fuel,
     (length (shard_data s) < fuel)%nat ->
     exists cluster',
       RemoteIterator_observe fuel ct shard fetch_num cluster
       = Ok (Some (shard_data s)) cluster'
       /\ LocalIterator_observe fuel (table_id ct) shard w
          = Ok (Some (shard_data s)) w)
  /\ ((Z.to_nat fetch_num < length (shard_data s))%nat ->
      forall fuel l cluster',
        RemoteIterator_observe fuel ct shard fetch_num cluster
        = Ok (Some l) cluster' ->
        l = take (Z.to_nat fetch_num) (shard_data s)
        /\ l <> shard_data s).
Proof.
  intros Ho Hw Ht Hs Hfetch Hid. split.
  - intros Hlen fuel Hfuel.
    exact (RemoteIterator_observe_single_batch cluster ct shard fetch_num
             target w t s fuel Ho Hw Ht Hs Hfetch Hlen Hfuel).
  - intros Hlen.
    exact (RemoteIterator_observe_truncated cluster ct shard fetch_num
             target w t s Ho Hw Ht Hs Hfetch Hlen Hid).
Qed.

End RemoteProperties.

(** X6.  Outside its precondition the Modulo sharder gives no shard
    index: with [num_shards = 0] the remainder is a division by zero,
    and a negative [num_shards] is converted to [size_t], so that every
    hash below [2^64 + num_shards] is returned as it is. *)
Theorem X6_modulo_with_nonpositive_shard_count {T : Type}
    (hash_value : T -> Z) (k : T) (num_shards : Z) :
  INT_MIN <= num_shards <= 0 ->
  (num_shards = 0 -> shard_for_key hash_value k num_shards = None)
  /\ (num_shards < 0 ->
      0 <= hash_value k < 2 ^ 64 + num_shards ->
      shard_for_key hash_value k num_shards = Some (hash_value k)).
Proof.
  intros Hn. split.
  - intros ->. reflexivity.
  - intros Hneg Hh. unfold shard_for_key, to_size_t, INT_MIN in *.
    assert (Hd : num_shards mod 2 ^ 64 = 2 ^ 64 + num_shards).
    { symmetry. apply (Z.mod_unique _ _ (-1)); lia. }
    rewrite Hd. destruct (Z.eqb_spec (2 ^ 64 + num_shards) 0); [lia|].
    rewrite (Z.mod_small (hash_value k)) by lia.
    now rewrite Z.mod_small by lia.
Qed.

(** ** The properties on concrete requests *)

Section Witnesses.
Import Reducer ReducerNotions Example Scenario.

Lemma X2_witness :
  dense_functions REDUCER_MINIMUM 2 [1; 5] [3; 2]
  = Some (zip_with (scalar_functions REDUCER_MINIMUM) [1; 5] [3; 2]).
Proof.
  apply (X2_dense_reducer_is_cellwise_scalar REDUCER_MINIMUM 2 [1; 5] [3; 2]
           eq_refl eq_refl); discriminate.
Defined.

Lemma X3_witness :
  (dense_functions REDUCER_MAXIMUM 2 [1; 7] [5; 2]
   ≫= fun out => dense_functions REDUCER_MAXIMUM 2 out [5; 2])
  = dense_functions REDUCER_MAXIMUM 2 [1; 7] [5; 2].
Proof.
  apply (X3_repeated_update REDUCER_MAXIMUM 1 5 2 [1; 7] [5; 2]
           eq_refl eq_refl).
  reflexivity.
Defined.

Lemma X4_witness :
  is_npy_int (scalar_functions REDUCER_ADD INT_MAX 1)
  /\ exists out,
      dense_functions REDUCER_ADD 1 [INT_MAX] [1] = Some out
      /\ Forall is_npy_int out.
Proof.
  apply (X4_reducers_stay_in_npy_int REDUCER_ADD INT_MAX 1 1 [INT_MAX] [1]);
    try reflexivity;
    repeat constructor; unfold INT_MIN, INT_MAX; lia.
Defined.

Lemma X5_witness :
  exists cluster',
    RemoteIterator_observe 4 client_table 0 3 (peers 3)
    = Ok (Some (entries 3)) cluster'
    /\ LocalIterator_observe 4 0 0 (owner_worker 3)
       = Ok (Some (entries 3)) (owner_worker 3).
Proof.
  refine (proj1 (X5_remote_traversal_is_whole_iff_one_batch (peers 3)
                   client_table 0 3 1 (owner_worker 3)
                   (table_of None (entries 3) 1) (shard_of (entries 3))
                   eq_refl eq_refl eq_refl eq_refl _ _) _ 4%nat _);
    simpl; try lia.
  discriminate.
Defined.

Lemma X6_witness :
  shard_for_key (fun z : Z => z) 10 (-4) = Some 10.
Proof.
  apply (X6_modulo_with_nonpositive_shard_count (fun z : Z => z) 10 (-4));
    unfold INT_MIN; lia.
Defined.

Lemma X7_witness :
  exists resps w',
    serve_requests [opening 0 0 2; continuation 0 0 0 2; continuation 0 0 0 3]
      (owner_worker 5) = Ok resps w'
    /\ received resps = entries 5
    /\ (forall r, last resps = Some r -> iresp_done r = true).
Proof.
  destruct (X7_paged_traversal (owner_worker 5) 0 0
              (table_of None (entries 5) 1) (shard_of (entries 5)) 2 [2; 3]
              eq_refl eq_refl)
    as (resps & w' & Hrun & _ & Hrecv & _ & Hlast & _).
  - discriminate.
  - exists resps, w'. split; [exact Hrun|]. split; [exact Hrecv|].
    intros r Hr. rewrite (Hlast r Hr). reflexivity.
Defined.

Lemma X8_witness :
  exists w',
    Worker_get_iterator (continuation 0 0 7 1) IteratorResp_new
      (owner_worker 2) = Fatal CheckFailure w'
    /\ iterators_ w' = <[to_u32 7 := None]> (iterators_ (owner_worker 2)).
Proof.
  apply (X8_unknown_iterator_id_is_fatal (owner_worker 2)
           (continuation 0 0 7 1) IteratorResp_new);
    [discriminate | reflexivity].
Defined.

Lemma X23_witness :
  Worker_get_iterator (opening 0 0 2) IteratorResp_new (owner_worker 3)
  = Ok two_rows after_two_rows
  /\ exists batch : list (Z * Z),
      iresp_results two_rows = batch
      /\ length batch = 2%nat
      /\ iresp_row_count two_rows = to_u32 (Z.of_nat (length batch) - 1).
Proof.
  assert (Hrun : Worker_get_iterator (opening 0 0 2) IteratorResp_new
                   (owner_worker 3) = Ok two_rows after_two_rows)
    by (vm_compute; reflexivity).
  split; [exact Hrun|].
  destruct (X23_row_count_is_last_index _ _ _ _ _ Hrun)
    as (batch & Hres & _ & Hrow & Hfull).
  exists batch. split; [exact Hres|].
  specialize (Hfull eq_refl). split; [exact Hfull|].
  rewrite Hrow, Hfull. reflexivity.
Defined.

Lemma X24_witness :
  exists r1 r2 w',
    serve_requests [opening 0 0 2; continuation 0 0 (-1) 2] last_id_worker
    = Ok [r1; r2] w'
    /\ iresp_id r1 = 2 ^ 32 - 1
    /\ iresp_id r2 = 0
    /\ iresp_results r1 = [(0, 0); (1, 10)]
    /\ iresp_results r2 = [(0, 0); (1, 10)].
Proof.
  apply (X24_last_counter_value_reopens last_id_worker 0 0
           (table_of None (entries 3) 1) (shard_of (entries 3)) 2 2);
    reflexivity.
Defined.

Lemma X15_witness :
  exists t w',
    Worker_create_table empty_table accumulators create_req max_owner
    = Ok tt w'
    /\ tables_ w' !! 1 = Some (Some t)
    /\ reducer t = Some scalar_maximum
    /\ length (shards t) = 2%nat.
Proof.
  destruct (X15_create_table_registers_the_table empty_table accumulators
              max_owner create_req)
    as (t & w' & Hrun & Htab & Hsh & _ & _ & Hred & _).
  - discriminate.
  - exists t, w'. split; [exact Hrun|]. split; [|split].
    + rewrite Htab. apply lookup_insert_eq.
    + exact Hred.
    + now rewrite Hsh.
Defined.

Lemma X16_witness :
  exists peers : Peers,
    Worker_initialize init_req (Worker_new (K := Z) (V := Z), [])
    = Ok tt (set_id 1 Worker_new, peers)
    /\ length peers = 3%nat
    /\ peers !! 0%nat = Some (Some (host 9000))
    /\ peers !! 1%nat = Some None
    /\ peers !! 2%nat = Some (Some (host 9002)).
Proof.
  destruct (X16_initialize_connects_every_other_worker init_req
              (Worker_new (K := Z) (V := Z)) [])
    as (peers & Hrun & Hlen & Hkeep & Hset).
  - discriminate.
  - repeat constructor; unfold connectable; simpl; lia.
  - assert (Hnd : NoDup (wi_workers init_req).*1).
    { apply (bool_decide_unpack _). vm_compute. exact I. }
    exists peers. split; [exact Hrun|]. split; [exact Hlen|].
    split; [|split].
    + apply (Hset Hnd 0 (host 9000)); [|discriminate].
      apply elem_of_cons. now left.
    + rewrite (Hkeep 1%nat) by now left. reflexivity.
    + apply (Hset Hnd 2 (host 9002)); [|discriminate].
      do 2 (apply elem_of_cons; right). apply elem_of_cons. now left.
Defined.

Lemma X17_witness :
  Worker_create_table empty_table accumulators create_req Worker_new
  = Fatal CheckFailure Worker_new.
Proof.
  apply (X17_uninitialised_worker_refuses empty_table accumulators
           create_req Worker_new eq_refl).
Defined.

Lemma X18_witness :
  exists w' t',
    Worker_assign_shards
      [mkShardAssignment 0 0 1; mkShardAssignment 0 0 5] max_owner
    = Ok tt w'
    /\ tables_ w' !! 0 = Some (Some t')
    /\ shards t' = shards max_table
    /\ worker_for_shard t' 0 = Some 5.
Proof.
  destruct (X18_assign_shards_last_assignment_wins
              [mkShardAssignment 0 0 1; mkShardAssignment 0 0 5] max_owner)
    as (w' & Hrun & _ & _ & Htabs).
  - repeat constructor; exists max_table; split; try reflexivity;
      eexists; reflexivity.
  - specialize (Htabs 0).
    change (tables_ max_owner !! 0) with (Some (Some max_table)) in Htabs.
    destruct Htabs as (t' & Ht' & _ & Hsh & _ & _ & Hown).
    exists w', t'. split; [exact Hrun|]. split; [exact Ht'|].
    split; [exact Hsh|]. rewrite Hown. reflexivity.
Defined.

Lemma X19_witness :
  exists w1,
    Worker_assign_shards [mkShardAssignment 0 0 1] max_owner = Ok tt w1
    /\ Worker_run_kernel example_format_exc example_kernels
         (kernel_req "writer") fresh_kernel_resp 7 w1
       = Fatal RoutingViolation (set_context w1).
Proof.
  destruct (X19_assignment_decides_routing example_format_exc
              example_kernels max_owner (kernel_req "writer")
              fresh_kernel_resp 7 max_table (shard_of [(1, 5)]) 1)
    as (w1 & Hrun & Hother & _).
  - discriminate.
  - reflexivity.
  - reflexivity.
  - eexists. reflexivity.
  - exists w1. split; [exact Hrun|]. apply Hother. discriminate.
Defined.

Lemma X20_witness :
  exists w' t',
    Worker_assign_shards
      [mkShardAssignment 0 0 1; mkShardAssignment 3 0 1] max_owner
    = Fatal CheckFailure w'
    /\ tables_ w' !! 0 = Some (Some t')
    /\ worker_for_shard t' 0 = Some 1.
Proof.
  eexists _, _. split; [|split].
  - apply (X20_assign_shards_is_not_atomic max_owner _
             [mkShardAssignment 0 0 1] (mkShardAssignment 3 0 1) []);
      reflexivity.
  - reflexivity.
  - reflexivity.
Defined.

Lemma X22_witness :
  Worker_initialize sparse_init_req (Worker_new (K := Z) (V := Z), [])
  = Undefined.
Proof.
  apply (X22_initialize_with_peer_id_out_of_range sparse_init_req
           Worker_new []).
  - discriminate.
  - apply Exists_cons_tl, Exists_cons_hd.
    unfold connectable. simpl. lia.
Defined.

End Witnesses.
